(** * Tool registry, conversation entities and chat orchestrators

    A shallow embedding of the TypeScript samples of the repository
    (Tool.ts, the durable agent orchestrator, the human-in-the-loop wrapper
    and the human-in-the-loop orchestrator), followed by the properties of
    the specification that were checked against it.

    Conventions of the embedding.
    - JavaScript values that cross the JSON boundary are [Js.JsValue].
      Numbers are integers ([Z]); only equality with zero and decimal
      rendering are ever used.
    - A JavaScript [Map] and the own properties of a plain object are
      insertion-ordered association lists ([Js.Map_set] keeps the position
      of an existing key, as [Map.prototype.set] does).  Property reads see
      own properties only: names inherited from [Object.prototype] and
      integer-like keys (which JavaScript enumerates first) are outside the
      model.
    - A computation that may throw has type [Js.Completion].
    - [new Date()] and [generateGuid] read from a host that is threaded
      explicitly ([Js.Host]); instants are milliseconds since the epoch and
      their ISO rendering is left implicit.
    - Console logging and [context.df.setCustomStatus] are not modelled;
      neither are the model name and the temperature, which are passed
      through to the API unchanged. *)

From stdpp Require Import base strings list gmap pretty.

Open Scope Z_scope.

(* ================================================================== *)
(** * JavaScript values and control flow *)
(* ================================================================== *)

Module Js.

#[warnings="-register-all"]
Inductive JsValue : Type :=
| JUndefined
| JNull
| JBool (b : bool)
| JNum (n : Z)
| JStr (s : string)
| JArr (items : list JsValue)
| JObj (props : list (string * JsValue)).

(** Values that can be thrown: [Error] objects (with their [name] and
    [message]) and bare strings. *)
Inductive Thrown : Type :=
| ThrowError (name message : string)
| ThrowString (s : string).

Inductive Completion (A : Type) : Type :=
| Returned (a : A)
| Threw (e : Thrown).
Arguments Returned {A} a.
Arguments Threw {A} e.

Definition bind {A B} (c : Completion A) (k : A -> Completion B) : Completion B :=
  match c with
  | Returned a => k a
  | Threw e => Threw e
  end.

Definition isEmpty (s : string) : bool :=
  match s with
  | EmptyString => true
  | String _ _ => false
  end.

(** [Error.prototype.toString]. *)
Definition Error_toString (name message : string) : string :=
  if isEmpty name then message
  else if isEmpty message then name
  else name +:+ ": " +:+ message.

(** [String(e)], which is also what a template literal does with [e]. *)
Definition String_of_thrown (e : Thrown) : string :=
  match e with
  | ThrowError name message => Error_toString name message
  | ThrowString s => s
  end.

(** [new Error(message)]. *)
Definition new_Error (message : string) : Thrown := ThrowError "Error" message.

(** ToBoolean. *)
Definition truthy (v : JsValue) : bool :=
  match v with
  | JUndefined | JNull => false
  | JBool b => b
  | JNum n => negb (n =? 0)
  | JStr s => negb (isEmpty s)
  | JArr _ | JObj _ => true
  end.

(** [a || b]. *)
Definition or_else (a b : JsValue) : JsValue := if truthy a then a else b.

(** [s || d] at type [string | null | undefined]. *)
Definition string_or (s : option string) (d : string) : string :=
  match s with
  | Some x => if isEmpty x then d else x
  | None => d
  end.

(** ** Insertion-ordered maps: [Map] and own properties of objects *)

Fixpoint Map_get {V} (k : string) (m : list (string * V)) : option V :=
  match m with
  | [] => None
  | (k', v) :: rest => if String.eqb k k' then Some v else Map_get k rest
  end.

Fixpoint Map_set {V} (k : string) (v : V) (m : list (string * V)) : list (string * V) :=
  match m with
  | [] => [(k, v)]
  | (k', v') :: rest =>
      if String.eqb k k' then (k, v) :: rest else (k', v') :: Map_set k v rest
  end.

Definition Map_has {V} (k : string) (m : list (string * V)) : bool :=
  match Map_get k m with Some _ => true | None => false end.

Definition Map_keys {V} (m : list (string * V)) : list string := m.*1.
Definition Map_values {V} (m : list (string * V)) : list V := m.*2.

Definition Object_keys {V} (o : list (string * V)) : list string := o.*1.
Definition Object_entries {V} (o : list (string * V)) : list (string * V) := o.

(** [v[k]]: reading a property of [undefined] or [null] throws a
    [TypeError]; an absent property reads as [undefined]. *)
Definition TypeError_read (what k : string) : Thrown :=
  ThrowError "TypeError"
    ("Cannot read properties of " +:+ what +:+ " (reading '" +:+ k +:+ "')").

Definition getProperty (v : JsValue) (k : string) : Completion JsValue :=
  match v with
  | JUndefined => Threw (TypeError_read "undefined" k)
  | JNull => Threw (TypeError_read "null" k)
  | JObj props => Returned (default JUndefined (Map_get k props))
  | _ => Returned JUndefined
  end.

(** [v?.k]. *)
Definition getOptional (v : JsValue) (k : string) : JsValue :=
  match getProperty v k with
  | Returned x => x
  | Threw _ => JUndefined
  end.

(** [names.map(f)] where [f] may throw: the first throw aborts the map. *)
Fixpoint mapM {A B} (f : A -> Completion B) (l : list A) : Completion (list B) :=
  match l with
  | [] => Returned []
  | x :: rest =>
      bind (f x) (fun y => bind (mapM f rest) (fun ys => Returned (y :: ys)))
  end.

(** ** Stateful computations that may throw *)

Definition M (S A : Type) : Type := S -> S * Completion A.

Definition ret {S A} (a : A) : M S A := fun s => (s, Returned a).
Definition throw {S A} (e : Thrown) : M S A := fun s => (s, Threw e).
Definition lift {S A} (c : Completion A) : M S A := fun s => (s, c).

Definition mbind {S A B} (m : M S A) (k : A -> M S B) : M S B :=
  fun s =>
    match m s with
    | (s', Returned a) => k a s'
    | (s', Threw e) => (s', Threw e)
    end.

(** [try { m } catch (error) { h error }]. *)
Definition try_catch {S A} (m : M S A) (h : Thrown -> M S A) : M S A :=
  fun s =>
    match m s with
    | (s', Returned a) => (s', Returned a)
    | (s', Threw e) => h e s'
    end.

(** JSON text: [JSON.parse] may throw a [SyntaxError]. *)
Record JSON := {
  JSON_parse : string -> Completion JsValue;
  JSON_stringify : JsValue -> string
}.

(** ** The host: wall clock and random identifiers *)

Definition Instant := Z.

(** What the process reads from outside: successive readings of the wall
    clock and successive results of [generateGuid] (which draws on
    [Math.random]). *)
Record Host := {
  times : nat -> Instant;
  time_pos : nat;
  guids : nat -> string;
  guid_pos : nat
}.

(** [new Date()] and [Date.now()]. *)
Definition Date_now (h : Host) : Instant * Host :=
  (times h (time_pos h),
   {| times := times h; time_pos := S (time_pos h);
      guids := guids h; guid_pos := guid_pos h |}).

(** The private method [generateGuid] of the agent classes. *)
Definition generateGuid (h : Host) : string * Host :=
  (guids h (guid_pos h),
   {| times := times h; time_pos := time_pos h;
      guids := guids h; guid_pos := S (guid_pos h) |}).

(** [l.slice(-n)]. *)
Definition slice_last {A} (n : nat) (l : list A) : list A :=
  drop (length l - n) l.

End Js.

Declare Scope js_scope.
Delimit Scope js_scope with js.
Notation "x <- m ;; k" := (Js.mbind m (fun x => k))
  (at level 100, m at next level, right associativity) : js_scope.
Notation "m ;;; k" := (Js.mbind m (fun _ => k))
  (at level 100, right associativity) : js_scope.

(* ================================================================== *)
(** * Tool.ts *)
(* ================================================================== *)

Module Tool.
Import Js.

Inductive ParamType := TString | TNumber | TBoolean | TObject | TArray.

Record ToolParameter := {
  type : ParamType;
  description : string;
  required : option bool
}.

Record ToolDefinition := {
  name : string;
  tool_description : string;
  parameters : list (string * ToolParameter);
  handler : list JsValue -> Completion string
}.

(** One call of a tool's handler, with the positional arguments it got. *)
Record Invocation := { inv_tool : string; inv_args : list JsValue }.

(** The private field [tools: Map<string, ToolDefinition>]. *)
Definition ToolRegistry := list (string * ToolDefinition).

Definition new_ToolRegistry : ToolRegistry := [].

Definition registerTool (toolDef : ToolDefinition) (this : ToolRegistry) : ToolRegistry :=
  Map_set (name toolDef) toolDef this.

Definition notFound (toolName : string) : Thrown :=
  new_Error ("Tool '" +:+ toolName +:+ "' not found in registry").

Definition errorText (toolName : string) (error : Thrown) : string :=
  "Error executing " +:+ toolName +:+ ": " +:+ String_of_thrown error.

(** [paramNames.map(paramName => args[paramName])]. *)
Definition argArray (tool : ToolDefinition) (args : JsValue) : Completion (list JsValue) :=
  mapM (getProperty args) (Object_keys (parameters tool)).

(** [executeTool]: the handler calls made, and how the method completes. *)
Definition executeTool (this : ToolRegistry) (toolName : string) (args : JsValue)
  : list Invocation * Completion string :=
  match Map_get toolName this with
  | None => ([], Threw (notFound toolName))
  | Some tool =>
      match argArray tool args with
      | Threw error => ([], Returned (errorText toolName error))
      | Returned argv =>
          let call := {| inv_tool := toolName; inv_args := argv |} in
          match handler tool argv with
          | Returned result => ([call], Returned result)
          | Threw error => ([call], Returned (errorText toolName error))
          end
      end
  end.

Record PropertySchema := { ps_type : ParamType; ps_description : string }.

Record ParametersSchema := {
  schema_type : string;
  properties : list (string * PropertySchema);
  schema_required : list string
}.

Record FunctionSchema := {
  fn_name : string;
  fn_description : string;
  fn_parameters : ParametersSchema
}.

Record ChatCompletionTool := {
  tool_type : string;
  function : FunctionSchema
}.

Definition isRequired (param : ToolParameter) : bool :=
  match required param with
  | Some false => false
  | _ => true
  end.

(** The [reduce] that builds [properties]: [props[name] = {...}]. *)
Definition propertiesOf (params : list (string * ToolParameter)) : list (string * PropertySchema) :=
  foldl (fun props entry =>
           Map_set entry.1
             {| ps_type := type entry.2; ps_description := description entry.2 |}
             props)
        [] (Object_entries params).

Definition requiredOf (params : list (string * ToolParameter)) : list string :=
  (filter (fun entry => isRequired entry.2 = true) (Object_entries params)).*1.

Definition schemaOf (tool : ToolDefinition) : ChatCompletionTool :=
  {| tool_type := "function";
     function :=
       {| fn_name := name tool;
          fn_description := tool_description tool;
          fn_parameters :=
            {| schema_type := "object";
               properties := propertiesOf (parameters tool);
               schema_required := requiredOf (parameters tool) |} |} |}.

Definition getOpenAISchema (this : ToolRegistry) : list ChatCompletionTool :=
  schemaOf <$> Map_values this.

Definition getToolNames (this : ToolRegistry) : list string := Map_keys this.
Definition hasTool (this : ToolRegistry) (toolName : string) : bool := Map_has toolName this.
Definition getToolCount (this : ToolRegistry) : nat := length this.

End Tool.

(* ================================================================== *)
(** * Properties of the tool registry *)
(* ================================================================== *)

Module ToolSpec.
Import Js Tool.

(** Registering a list of definitions one after the other, starting from
    an empty registry. *)
Definition registerAll (defs : list ToolDefinition) : ToolRegistry :=
  foldl (fun reg d => registerTool d reg) new_ToolRegistry defs.

(** The names of a list in the order in which each one first occurs. *)
Definition firstOccurrences (names : list string) : list string :=
  foldl (fun (seen : list string) (n : string) =>
           if decide (n ∈ seen) then seen else seen ++ [n]) [] names.

(** The definition registered last under a name. *)
Definition lastDefinition (n : string) (defs : list ToolDefinition) : option ToolDefinition :=
  last (filter (fun d => name d = n) defs).

Definition schemaNames (schema : list ChatCompletionTool) : list string :=
  (fun t => fn_name (function t)) <$> schema.

(** A handler that always throws [new Error(message)]. *)
Definition failing (message : string) : list JsValue -> Completion string :=
  fun _ => Threw (new_Error message).

(** A handler that reports the arguments it was called with. *)
Definition show (v : JsValue) : string :=
  match v with
  | JNum n => pretty n
  | JStr s => s
  | JUndefined => "undefined"
  | _ => "?"
  end.

Definition echo : list JsValue -> Completion string :=
  fun argv => Returned (foldr (fun v acc => show v +:+ ";" +:+ acc) EmptyString argv).

Definition param (t : ParamType) (d : string) : ToolParameter :=
  {| type := t; description := d; required := Some true |}.

Definition pair_tool : ToolDefinition :=
  {| name := "pair"; tool_description := "takes a then b";
     parameters := [("a", param TNumber "first"); ("b", param TNumber "second")];
     handler := echo |}.

Definition broken_tool : ToolDefinition :=
  {| name := "broken"; tool_description := "always fails";
     parameters := [("x", param TString "ignored")];
     handler := failing "boom" |}.

(** [pair] registered a second time, with a different definition. *)
Definition pair_tool_v2 : ToolDefinition :=
  {| name := "pair"; tool_description := "takes b then a";
     parameters := [("b", param TNumber "second");
                    ("a", {| type := TNumber; description := "first";
                             required := Some false |})];
     handler := echo |}.

Definition sample_registry : ToolRegistry :=
  registerAll [pair_tool; broken_tool].

End ToolSpec.

(* ================================================================== *)
(** * External collaborators: the chat-completions API and the HTTP host *)
(* ================================================================== *)

Module OpenAI.
Import Js Tool.

Record ToolCall := {
  call_id : string;
  call_name : string;          (* toolCall.function.name *)
  call_arguments : string      (* toolCall.function.arguments *)
}.

(** [response.choices[0].message]. *)
Record AssistantMessage := {
  message_content : option string;
  tool_calls : option (list ToolCall)
}.

Inductive RequestMessage :=
| SystemMessage (c : string)
| UserMessage (c : string)
| AssistantEcho (m : AssistantMessage)
| ToolMessage (tool_call_id c : string).

(** The request of [chat.completions.create]; [tools] is present on the
    first call of a turn only.  The model name and the temperature are
    passed through unchanged and are not modelled. *)
Record ChatRequest := {
  messages : list RequestMessage;
  tools : option (list ChatCompletionTool)
}.

(** The API as seen by one process: the answer to its n-th call. *)
Definition Client := nat -> ChatRequest -> Completion AssistantMessage.

End OpenAI.

Module Http.
Import Js.

Definition isAlnum (c : Ascii.ascii) : bool :=
  let n := Ascii.nat_of_ascii c in
  ((48 <=? n) && (n <=? 57) || (65 <=? n) && (n <=? 90)
   || (97 <=? n) && (n <=? 122))%nat.

(** [name.replace(/[^a-zA-Z0-9]/g, '')]. *)
Fixpoint stripNonAlnum (s : string) : string :=
  match s with
  | EmptyString => EmptyString
  | String c rest =>
      if isAlnum c then String c (stripNonAlnum rest) else stripNonAlnum rest
  end.

(** What a chat handler reads from the request: the outcome of
    [request.json()] and the route parameter [sessionId]. *)
Record HttpRequest := {
  json : Completion JsValue;
  params_sessionId : option string
}.

(** The input handed to [client.startNew]. *)
Record StartInput := {
  start_orchestrator : string;
  start_message : JsValue;
  start_sessionId : JsValue
}.

(** The fields of the JSON response that are modelled; [timestamp],
    [processingTimeMs] and the endpoint URLs are left out. *)
Record HttpResponse := {
  http_status : Z;
  body_success : bool;
  body_message : option string;
  body_error : option string;
  body_sessionId : option JsValue;
  body_instanceId : option string
}.

Definition failed (error : Thrown) : HttpResponse :=
  {| http_status := 500; body_success := false; body_message := None;
     body_error := Some (String_of_thrown error);
     body_sessionId := None; body_instanceId := None |}.

(** [body?.message || body?.prompt || 'Hello']. *)
Definition messageOf (body : JsValue) : JsValue :=
  or_else (or_else (getOptional body "message") (getOptional body "prompt"))
          (JStr "Hello").

(** The choice of the session id: the body's, else the route's, else a
    fresh one. *)
Definition sessionOf (body : JsValue) (route : option string) (h : Host)
  : JsValue * Host :=
  if truthy (getOptional body "sessionId") then (getOptional body "sessionId", h)
  else if negb (isEmpty (default EmptyString route)) then
         (JStr (default EmptyString route), h)
  else let (guid, h') := generateGuid h in (JStr ("session-" +:+ guid), h').

(** [message.substring(0, 50)] exists on strings only. *)
Definition substring_check (message : JsValue) : Completion unit :=
  match message with
  | JStr _ => Returned tt
  | _ => Threw (ThrowError "TypeError" "message.substring is not a function")
  end.

End Http.

(* ================================================================== *)
(** * The durable agent orchestrator (class DurableOpenAiAgentOrchestrator) *)
(* ================================================================== *)

Module DurableOpenAiAgentOrchestrator.
Import Js Tool OpenAI Http.

Record AgentConfig := {
  agentName : string;
  systemPrompt : string
}.

(** The fields of an agent instance. *)
Record Agent := {
  openai : Client;
  config : AgentConfig;
  toolRegistry : ToolRegistry;
  JSON_ : JSON
}.

Inductive Role := user | assistant.

Record ChatMessage := {
  role : Role;
  content : string;
  timestamp : Instant
}.

Record ConversationState := {
  chatHistory : list ChatMessage;
  createdAt : Instant;
  lastUpdated : Instant
}.

(** ** The conversation entity *)

Inductive Operation :=
| addMessage (r : Role) (c : string)
| getState
| getFullHistory
| otherOperation (operationName : string).

Inductive Result :=
| Success
| StateSummary (messageCount : nat) (created updated : Instant)
               (recentMessages : list ChatMessage)
| FullHistory (history : list ChatMessage)
| WholeState (state : ConversationState).

(** The initializer passed to [context.df.getState]. *)
Definition initialState (h : Host) : ConversationState * Host :=
  let (t1, h1) := Date_now h in
  let (t2, h2) := Date_now h1 in
  ({| chatHistory := []; createdAt := t1; lastUpdated := t2 |}, h2).

Definition loadState (stored : option ConversationState) (h : Host)
  : ConversationState * Host :=
  match stored with
  | Some state => (state, h)
  | None => initialState h
  end.

(** The entity function that [createConversationEntity] registers, run
    on one operation: the reply, the state that is persisted afterwards
    ([None] while [setState] was never called) and the host. *)
Definition createConversationEntity (op : Operation)
    (stored : option ConversationState) (h : Host)
  : Result * option ConversationState * Host :=
  let (state, h0) := loadState stored h in
  match op with
  | addMessage r c =>
      let (t, h1) := Date_now h0 in
      let (u, h2) := Date_now h1 in
      (Success,
       Some {| chatHistory := chatHistory state
                 ++ [{| role := r; content := c; timestamp := t |}];
               createdAt := createdAt state;
               lastUpdated := u |},
       h2)
  | getState =>
      (StateSummary (length (chatHistory state)) (createdAt state)
         (lastUpdated state) (slice_last 5 (chatHistory state)),
       stored, h0)
  | getFullHistory => (FullHistory (chatHistory state), stored, h0)
  | otherOperation _ => (WholeState state, stored, h0)
  end.

(** ** The world a turn runs in *)

(** The entity instances (one per session id), the host, the number of
    API calls made so far and the handler calls made so far. *)
Record World := {
  entities : gmap string ConversationState;
  host : Host;
  api_calls : nat;
  invoked : list Invocation
}.

(** [context.df.callEntity(new df.EntityId(entityName, sessionId), op)]. *)
Definition callEntity (session : string) (op : Operation) : M World Result :=
  fun w =>
    let '(result, stored, h) :=
      createConversationEntity op (entities w !! session) (host w) in
    ({| entities := match stored with
                    | Some state => <[session := state]> (entities w)
                    | None => entities w
                    end;
        host := h; api_calls := api_calls w; invoked := invoked w |},
     Returned result).

(** [this.openai.chat.completions.create(request)] followed by
    [.choices[0].message]. *)
Definition create (this : Agent) (request : ChatRequest) : M World AssistantMessage :=
  fun w =>
    ({| entities := entities w; host := host w;
        api_calls := S (api_calls w); invoked := invoked w |},
     openai this (api_calls w) request).

(** [this.toolRegistry.executeTool(toolName, toolArgs)]. *)
Definition callTool (this : Agent) (toolName : string) (toolArgs : JsValue)
  : M World string :=
  fun w =>
    let (calls, outcome) := executeTool (toolRegistry this) toolName toolArgs in
    ({| entities := entities w; host := host w;
        api_calls := api_calls w; invoked := invoked w ++ calls |},
     outcome).

(** ** executeOpenAIChat *)

Definition errorText (toolName : string) (error : Thrown) : string :=
  "Error executing " +:+ toolName +:+ ": " +:+ String_of_thrown error.

Definition processingFailed (error : Thrown) : Thrown :=
  new_Error ("OpenAI processing failed: " +:+ String_of_thrown error).

(** The [for] loop over [completion.message.tool_calls]. *)
Fixpoint runToolCalls (this : Agent) (calls : list ToolCall)
    (toolResults : list RequestMessage) : M World (list RequestMessage) :=
  match calls with
  | [] => ret toolResults
  | toolCall :: rest =>
      (toolArgs <- lift (JSON_parse (JSON_ this) (call_arguments toolCall)) ;;
       text <- try_catch (callTool this (call_name toolCall) toolArgs)
                 (fun error => ret (errorText (call_name toolCall) error)) ;;
       runToolCalls this rest
         (toolResults ++ [ToolMessage (call_id toolCall) text]))%js
  end.

Definition executeOpenAIChat (this : Agent) (message : string) : M World string :=
  try_catch
    (completion <-
       create this
         {| messages := [SystemMessage (systemPrompt (config this));
                         UserMessage message];
            tools := Some (getOpenAISchema (toolRegistry this)) |} ;;
     match tool_calls completion with
     | Some (toolCall :: rest) =>
         toolResults <- runToolCalls this (toolCall :: rest) [] ;;
         finalResponse <-
           create this
             {| messages := [SystemMessage (systemPrompt (config this));
                             UserMessage message;
                             AssistantEcho completion] ++ toolResults;
                tools := None |} ;;
         ret (string_or (message_content finalResponse) "No response generated")
     | _ => ret (string_or (message_content completion) "No response generated")
     end)%js
    (fun error => throw (processingFailed error)).

(** ** The chat orchestrator and its activity *)

Record OrchestratorInput := { message : string; sessionId : string }.

Record OrchestratorOutput := { success : bool; response : string }.

(** The activity that [createChatOrchestrator] registers. *)
Definition activity (this : Agent) (message : string) : M World string :=
  try_catch (executeOpenAIChat this message) (fun error => throw error).

(** The orchestrator function that [createChatOrchestrator] registers. *)
Definition createChatOrchestrator (this : Agent) (input : OrchestratorInput)
  : M World OrchestratorOutput :=
  try_catch
    (callEntity (sessionId input) (addMessage user (message input)) ;;;
     response <- activity this (message input) ;;
     callEntity (sessionId input) (addMessage assistant response) ;;;
     ret {| success := true; response := response |})%js
    (fun error => throw error).

(** Turns issued one after the other, each running to its end before the
    next one starts. *)
Fixpoint runTurns (this : Agent) (inputs : list OrchestratorInput) (w : World)
  : World * list (Completion OrchestratorOutput) :=
  match inputs with
  | [] => (w, [])
  | input :: rest =>
      let (w1, outcome) := createChatOrchestrator this input w in
      let (w2, outcomes) := runTurns this rest w1 in
      (w2, outcome :: outcomes)
  end.

(** The full history of a session, as the entity operation
    [getFullHistory] returns it. *)
Definition readHistory (w : World) (session : string) : list ChatMessage :=
  match (createConversationEntity getFullHistory
           (entities w !! session) (host w)).1.1 with
  | FullHistory history => history
  | _ => []
  end.

(** What a message says and who says it, without its timestamp. *)
Definition said (m : ChatMessage) : Role * string := (role m, content m).

(** The messages that completed turns contribute to the history of a
    session: for each turn on that session, in the order of issue, the
    user message and then the assistant's response. *)
Definition transcript (session : string)
    (turns : list (OrchestratorInput * OrchestratorOutput)) : list (Role * string) :=
  flat_map (fun t => [(user, message t.1); (assistant, response t.2)])
           (filter (fun t => sessionId t.1 = session) turns).

(** The history held by a stored state; a session that was never written
    has none. *)
Definition historyOf (stored : option ConversationState) : list ChatMessage :=
  default [] (chatHistory <$> stored).

(** A computation that leaves the entities and the host alone. *)
Definition quiet {A} (m : M World A) : Prop :=
  forall w, entities (m w).1 = entities w /\ host (m w).1 = host w.

(** ** The chat endpoint *)

Definition orchestratorName (this : Agent) : string :=
  stripNonAlnum (agentName (config this)) +:+ "ChatOrchestrator".

(** The durable client of the handler: [startNew] and [getStatus] (whose
    result is [status?.output]). *)
Record DurableClient := {
  startNew : StartInput -> Completion string;
  getStatus : string -> Completion (option OrchestratorOutput)
}.

(** The handler of [createChatEndpoint]: the response, the orchestrations
    it asked the client to start, and the host. *)
Definition createChatEndpoint (this : Agent) (client : DurableClient)
    (request : HttpRequest) (h : Host)
  : HttpResponse * list StartInput * Host :=
  match json request with
  | Threw error => (failed error, [], h)
  | Returned body =>
      let message := messageOf body in
      let (session, h1) := sessionOf body (params_sessionId request) h in
      match substring_check message with
      | Threw error => (failed error, [], h1)
      | Returned _ =>
          let input := {| start_orchestrator := orchestratorName this;
                          start_message := message;
                          start_sessionId := session |} in
          match startNew client input with
          | Threw error => (failed error, [input], h1)
          | Returned instanceId =>
              match getStatus client instanceId with
              | Returned (Some result) =>
                  ({| http_status := 200; body_success := true;
                      body_message :=
                        Some (string_or (Some (response result)) "Chat completed");
                      body_error := None;
                      body_sessionId := Some session;
                      body_instanceId := Some instanceId |},
                   [input], h1)
              | _ =>
                  ({| http_status := 202; body_success := true;
                      body_message := Some "Chat processing started";
                      body_error := None;
                      body_sessionId := Some session;
                      body_instanceId := Some instanceId |},
                   [input], h1)
              end
          end
      end
  end.

End DurableOpenAiAgentOrchestrator.

(* ================================================================== *)
(** * The human-in-the-loop wrapper (class HumanInLoopDurableAgentWrapper) *)
(* ================================================================== *)

Module HumanInLoopDurableAgentWrapper.
Import Js Tool OpenAI Http.

Record AgentConfig := {
  agentName : string;
  systemPrompt : string
}.

(** The fields of an agent instance that never change during a turn; the
    in-memory map [pendingApprovals] lives in the [World]. *)
Record Agent := {
  openai : Client;
  config : AgentConfig;
  toolRegistry : ToolRegistry;
  humanApprovalTools : gset string;
  JSON_ : JSON
}.

(** [this.humanApprovalTools = new Set(toolNames)]. *)
Definition setHumanApprovalTools (toolNames : list string) (this : Agent) : Agent :=
  {| openai := openai this; config := config this;
     toolRegistry := toolRegistry this;
     humanApprovalTools := list_to_set toolNames;
     JSON_ := JSON_ this |}.

Inductive Role := user | assistant | system.

Record ChatMessage := {
  role : Role;
  content : string;
  timestamp : Instant
}.

Inductive Status := pending | approved | rejected.

Inductive Decision := decide_approved | decide_rejected.

Definition status_of (d : Decision) : Status :=
  match d with
  | decide_approved => approved
  | decide_rejected => rejected
  end.

Record HumanApprovalRequest := {
  id : string;
  toolName : string;
  toolArgs : JsValue;
  reasoning : string;
  requestTimestamp : Instant;
  status : Status;
  humanResponse : option string;
  humanResponseTimestamp : option Instant
}.

Record ConversationState := {
  chatHistory : list ChatMessage;
  pendingApprovals : list HumanApprovalRequest;
  createdAt : Instant;
  lastUpdated : Instant
}.

(** ** The conversation entity *)

Inductive Operation :=
| addMessage (r : Role) (c : string)
| addApprovalRequest (tool : string) (args : JsValue) (why : string)
| handleApproval (approvalId : string) (decision : Decision) (response : option string)
| getPendingApprovals
| getState
| getFullHistory
| otherOperation (operationName : string).

Inductive Result :=
| Success
| ApprovalAdded (approvalId : string)
| ApprovalHandled (approval : HumanApprovalRequest)
| Failure (error : string)
| Approvals (approvals : list HumanApprovalRequest)
| StateSummary (messageCount pendingApprovalCount : nat) (created updated : Instant)
               (recentMessages : list ChatMessage)
               (pendingList : list HumanApprovalRequest)
| FullHistory (history : list ChatMessage) (approvalHistory : list HumanApprovalRequest)
| WholeState (state : ConversationState).

Global Instance Status_eq_dec : EqDecision Status.
Proof. solve_decision. Defined.

Definition initialState (h : Host) : ConversationState * Host :=
  let (t1, h1) := Date_now h in
  let (t2, h2) := Date_now h1 in
  ({| chatHistory := []; pendingApprovals := []; createdAt := t1; lastUpdated := t2 |}, h2).

Definition loadState (stored : option ConversationState) (h : Host)
  : ConversationState * Host :=
  match stored with
  | Some state => (state, h)
  | None => initialState h
  end.

(** The three assignments of [handleApproval] to the request it found. *)
Definition resolve (approval : HumanApprovalRequest) (decision : Decision)
    (response : option string) (t : Instant) : HumanApprovalRequest :=
  {| id := id approval;
     toolName := toolName approval;
     toolArgs := toolArgs approval;
     reasoning := reasoning approval;
     requestTimestamp := requestTimestamp approval;
     status := status_of decision;
     humanResponse := response;
     humanResponseTimestamp := Some t |}.

Definition isPending (a : HumanApprovalRequest) : Prop := status a = pending.

(** The entity function that [createConversationEntity] registers; its
    requests are found by [id]. *)
Definition createConversationEntity (op : Operation)
    (stored : option ConversationState) (h : Host)
  : Result * option ConversationState * Host :=
  let (state, h0) := loadState stored h in
  match op with
  | addMessage r c =>
      let (t, h1) := Date_now h0 in
      let (u, h2) := Date_now h1 in
      (Success,
       Some {| chatHistory := chatHistory state
                 ++ [{| role := r; content := c; timestamp := t |}];
               pendingApprovals := pendingApprovals state;
               createdAt := createdAt state;
               lastUpdated := u |},
       h2)
  | addApprovalRequest tool args why =>
      let (guid, h1) := generateGuid h0 in
      let (t, h2) := Date_now h1 in
      let approvalRequest :=
        {| id := guid; toolName := tool; toolArgs := args; reasoning := why;
           requestTimestamp := t; status := pending;
           humanResponse := None; humanResponseTimestamp := None |} in
      let (u, h3) := Date_now h2 in
      (ApprovalAdded (id approvalRequest),
       Some {| chatHistory := chatHistory state;
               pendingApprovals := pendingApprovals state ++ [approvalRequest];
               createdAt := createdAt state;
               lastUpdated := u |},
       h3)
  | handleApproval approvalId decision response =>
      match list_find (fun a => id a = approvalId) (pendingApprovals state) with
      | Some (i, approval) =>
          let (t, h1) := Date_now h0 in
          let (u, h2) := Date_now h1 in
          let approval' := resolve approval decision response t in
          (ApprovalHandled approval',
           Some {| chatHistory := chatHistory state;
                   pendingApprovals := <[i := approval']> (pendingApprovals state);
                   createdAt := createdAt state;
                   lastUpdated := u |},
           h2)
      | None => (Failure "Approval request not found", stored, h0)
      end
  | getPendingApprovals =>
      (Approvals (filter isPending (pendingApprovals state)), stored, h0)
  | getState =>
      (StateSummary (length (chatHistory state))
         (length (filter isPending (pendingApprovals state)))
         (createdAt state) (lastUpdated state)
         (slice_last 5 (chatHistory state))
         (filter isPending (pendingApprovals state)),
       stored, h0)
  | getFullHistory =>
      (FullHistory (chatHistory state) (pendingApprovals state), stored, h0)
  | otherOperation _ => (WholeState state, stored, h0)
  end.

(** ** The world a turn runs in *)

(** A record of the in-memory map [pendingApprovals] of the agent. *)
Record StoredApproval := {
  sa_toolName : string;
  sa_toolArgs : JsValue;
  sa_reasoning : string;
  sa_sessionId : string;
  sa_timestamp : Instant;
  sa_status : Status;
  sa_feedback : option string;
  sa_decidedAt : option Instant;
  sa_executionResult : option string;
  sa_executedAt : option Instant;
  sa_executionError : option string
}.

(** What the approval gate does, in the order in which it does it:
    storing a pending approval for a tool, and calling
    [toolRegistry.executeTool]. *)
Inductive Event :=
| ApprovalStored (toolName : string)
| ToolExecuted (toolName : string) (toolArgs : JsValue).

Record World := {
  entities : gmap string ConversationState;
  host : Host;
  api_calls : nat;
  invoked : list Invocation;
  approvalMap : list (string * StoredApproval);
  events : list Event
}.

Definition callEntity (session : string) (op : Operation) : M World Result :=
  fun w =>
    let '(result, stored, h) :=
      createConversationEntity op (entities w !! session) (host w) in
    ({| entities := match stored with
                    | Some state => <[session := state]> (entities w)
                    | None => entities w
                    end;
        host := h; api_calls := api_calls w; invoked := invoked w;
        approvalMap := approvalMap w; events := events w |},
     Returned result).

Definition create (this : Agent) (request : ChatRequest) : M World AssistantMessage :=
  fun w =>
    ({| entities := entities w; host := host w;
        api_calls := S (api_calls w); invoked := invoked w;
        approvalMap := approvalMap w; events := events w |},
     openai this (api_calls w) request).

(** [this.toolRegistry.executeTool(toolName, toolArgs)]. *)
Definition callTool (this : Agent) (toolName : string) (toolArgs : JsValue)
  : M World string :=
  fun w =>
    let (calls, outcome) := executeTool (toolRegistry this) toolName toolArgs in
    ({| entities := entities w; host := host w;
        api_calls := api_calls w; invoked := invoked w ++ calls;
        approvalMap := approvalMap w;
        events := events w ++ [ToolExecuted toolName toolArgs] |},
     outcome).

Definition readClock : M World Instant :=
  fun w =>
    let (t, h) := Date_now (host w) in
    ({| entities := entities w; host := h; api_calls := api_calls w;
        invoked := invoked w; approvalMap := approvalMap w;
        events := events w |},
     Returned t).

(** ** requestHumanApproval and processApprovalDecision *)

Record ApprovalResult := {
  decision : Decision;
  resultResponse : option string;
  instanceId : option string
}.

Definition storePendingApproval (approvalId : string) (data : StoredApproval)
  : M World unit :=
  fun w =>
    ({| entities := entities w; host := host w; api_calls := api_calls w;
        invoked := invoked w;
        approvalMap := Map_set approvalId data (approvalMap w);
        events := events w ++ [ApprovalStored (sa_toolName data)] |},
     Returned tt).

Definition requestHumanApproval (session tool : string) (args : JsValue)
    (why : string) : M World ApprovalResult :=
  (stamp <- readClock ;;
   let approvalId :=
     "approval-" +:+ session +:+ "-" +:+ tool +:+ "-" +:+ pretty stamp in
   t <- readClock ;;
   storePendingApproval approvalId
     {| sa_toolName := tool; sa_toolArgs := args; sa_reasoning := why;
        sa_sessionId := session; sa_timestamp := t; sa_status := pending;
        sa_feedback := None; sa_decidedAt := None;
        sa_executionResult := None; sa_executedAt := None;
        sa_executionError := None |} ;;;
   ret {| decision := decide_approved;
          resultResponse :=
            Some ("Approval request " +:+ approvalId +:+ " created for "
                  +:+ tool +:+ ". Waiting for human decision.");
          instanceId := Some approvalId |})%js.

Definition getPendingApproval (approvalId : string) (w : World) : option StoredApproval :=
  Map_get approvalId (approvalMap w).

Definition setApproval (approvalId : string) (data : StoredApproval) : M World unit :=
  fun w =>
    ({| entities := entities w; host := host w; api_calls := api_calls w;
        invoked := invoked w;
        approvalMap := Map_set approvalId data (approvalMap w);
        events := events w |},
     Returned tt).

Definition processApprovalDecision (this : Agent) (approvalId : string)
    (isApproved : bool) (feedback : option string) : M World bool :=
  fun w =>
    match Map_get approvalId (approvalMap w) with
    | None => (w, Returned false)
    | Some approval =>
        (decidedAt <- readClock ;;
         let decided :=
           {| sa_toolName := sa_toolName approval;
              sa_toolArgs := sa_toolArgs approval;
              sa_reasoning := sa_reasoning approval;
              sa_sessionId := sa_sessionId approval;
              sa_timestamp := sa_timestamp approval;
              sa_status := if isApproved then approved else rejected;
              sa_feedback := feedback;
              sa_decidedAt := Some decidedAt;
              sa_executionResult := sa_executionResult approval;
              sa_executedAt := sa_executedAt approval;
              sa_executionError := sa_executionError approval |} in
         final <-
           (if isApproved then
              try_catch
                (toolResult <- callTool this (sa_toolName decided) (sa_toolArgs decided) ;;
                 executedAt <- readClock ;;
                 ret {| sa_toolName := sa_toolName decided;
                        sa_toolArgs := sa_toolArgs decided;
                        sa_reasoning := sa_reasoning decided;
                        sa_sessionId := sa_sessionId decided;
                        sa_timestamp := sa_timestamp decided;
                        sa_status := sa_status decided;
                        sa_feedback := sa_feedback decided;
                        sa_decidedAt := sa_decidedAt decided;
                        sa_executionResult := Some toolResult;
                        sa_executedAt := Some executedAt;
                        sa_executionError := sa_executionError decided |})
                (fun error =>
                   ret {| sa_toolName := sa_toolName decided;
                          sa_toolArgs := sa_toolArgs decided;
                          sa_reasoning := sa_reasoning decided;
                          sa_sessionId := sa_sessionId decided;
                          sa_timestamp := sa_timestamp decided;
                          sa_status := sa_status decided;
                          sa_feedback := sa_feedback decided;
                          sa_decidedAt := sa_decidedAt decided;
                          sa_executionResult := sa_executionResult decided;
                          sa_executedAt := sa_executedAt decided;
                          sa_executionError := Some (String_of_thrown error) |})
            else ret decided) ;;
         setApproval approvalId final ;;;
         ret true)%js w
    end.

(** ** executeOpenAIChatWithHumanApproval *)

Definition errorText (toolName : string) (error : Thrown) : string :=
  "Error executing " +:+ toolName +:+ ": " +:+ String_of_thrown error.

Definition processingFailed (error : Thrown) : Thrown :=
  new_Error ("OpenAI processing failed: " +:+ String_of_thrown error).

(** The tool result of one call, gated or not. *)
Definition gatedToolCall (this : Agent) (session : string)
    (completion : AssistantMessage) (toolCall : ToolCall) : M World string :=
  (toolArgs <- lift (JSON_parse (JSON_ this) (call_arguments toolCall)) ;;
   let toolName := call_name toolCall in
   if decide (toolName ∈ humanApprovalTools this) then
     approvalResult <-
       requestHumanApproval session toolName toolArgs
         (string_or (message_content completion)
            ("The AI wants to execute " +:+ toolName
             +:+ " with the provided arguments.")) ;;
     match decision approvalResult with
     | decide_approved =>
         toolResult <- callTool this toolName toolArgs ;;
         ret ("[HUMAN APPROVED] " +:+ toolResult)
     | decide_rejected =>
         ret ("[HUMAN REJECTED] Tool execution was rejected by human. Reason: "
              +:+ string_or (resultResponse approvalResult) "No reason provided")
     end
   else
     try_catch (callTool this toolName toolArgs)
       (fun error => ret (errorText toolName error)))%js.

(** The [for] loop over [completion.message.tool_calls]. *)
Fixpoint runToolCalls (this : Agent) (session : string)
    (completion : AssistantMessage) (calls : list ToolCall)
    (toolResults : list RequestMessage) : M World (list RequestMessage) :=
  match calls with
  | [] => ret toolResults
  | toolCall :: rest =>
      (text <- gatedToolCall this session completion toolCall ;;
       runToolCalls this session completion rest
         (toolResults ++ [ToolMessage (call_id toolCall) text]))%js
  end.

Definition executeOpenAIChatWithHumanApproval (this : Agent)
    (message session : string) : M World string :=
  try_catch
    (completion <-
       create this
         {| messages := [SystemMessage (systemPrompt (config this));
                         UserMessage message];
            tools := Some (getOpenAISchema (toolRegistry this)) |} ;;
     match tool_calls completion with
     | Some (toolCall :: rest) =>
         toolResults <- runToolCalls this session completion (toolCall :: rest) [] ;;
         finalResponse <-
           create this
             {| messages := [SystemMessage (systemPrompt (config this));
                             UserMessage message;
                             AssistantEcho completion] ++ toolResults;
                tools := None |} ;;
         ret (string_or (message_content finalResponse) "No response generated")
     | _ => ret (string_or (message_content completion) "No response generated")
     end)%js
    (fun error => throw (processingFailed error)).

(** The arguments of a tool call as the loop reads them. *)
Definition argumentsOf (this : Agent) (toolCall : ToolCall) : Completion JsValue :=
  JSON_parse (JSON_ this) (call_arguments toolCall).

(** A call that the loop gets past: its arguments parse and, when the tool
    is gated, the tool is registered (a missing ungated tool is caught in
    the loop, a missing gated one aborts the turn). *)
Definition processable (this : Agent) (toolCall : ToolCall) : Prop :=
  (∃ toolArgs, argumentsOf this toolCall = Returned toolArgs)
  ∧ (call_name toolCall ∈ humanApprovalTools this →
     hasTool (toolRegistry this) (call_name toolCall) = true).


(** ** The chat orchestrator and its activity *)

Record OrchestratorInput := { message : string; sessionId : string }.

Record OrchestratorOutput := { success : bool; response : string }.

(** The activity that [createChatOrchestrator] registers. *)
Definition activity (this : Agent) (input : OrchestratorInput) : M World string :=
  try_catch
    (executeOpenAIChatWithHumanApproval this (message input) (sessionId input))
    (fun error => throw error).

(** The orchestrator function that [createChatOrchestrator] registers. *)
Definition createChatOrchestrator (this : Agent) (input : OrchestratorInput)
  : M World OrchestratorOutput :=
  try_catch
    (callEntity (sessionId input) (addMessage user (message input)) ;;;
     response <- activity this input ;;
     callEntity (sessionId input) (addMessage assistant response) ;;;
     ret {| success := true; response := response |})%js
    (fun error => throw error).

(** ** The chat endpoint *)

Definition orchestratorName (this : Agent) : string :=
  stripNonAlnum (agentName (config this)) +:+ "ChatOrchestrator".

(** The handler of [createChatEndpoint]: the response, the orchestrations
    it asked the client to start, and the host. *)
Definition createChatEndpoint (this : Agent) (startNew : StartInput -> Completion string)
    (request : HttpRequest) (h : Host)
  : HttpResponse * list StartInput * Host :=
  match json request with
  | Threw error => (failed error, [], h)
  | Returned body =>
      let message := messageOf body in
      let (session, h1) := sessionOf body (params_sessionId request) h in
      match substring_check message with
      | Threw error => (failed error, [], h1)
      | Returned _ =>
          let input := {| start_orchestrator := orchestratorName this;
                          start_message := message;
                          start_sessionId := session |} in
          match startNew input with
          | Threw error => (failed error, [input], h1)
          | Returned instance =>
              ({| http_status := 202; body_success := true;
                  body_message := Some "Human-in-loop chat processing started";
                  body_error := None;
                  body_sessionId := Some session;
                  body_instanceId := Some instance |},
               [input], h1)
          end
      end
  end.

End HumanInLoopDurableAgentWrapper.

(* ================================================================== *)
(** * The human-in-the-loop orchestrator
      (class HumanInLoopDurableAgentOrchestrator) *)
(* ================================================================== *)

Module HumanInLoopDurableAgentOrchestrator.
Import Js Tool OpenAI Http.

Record AgentConfig := {
  agentName : string;
  systemPrompt : string
}.

(** The fields of an agent instance as [createChatOrchestrator] captures
    them. *)
Record Agent := {
  openai : Client;
  config : AgentConfig;
  toolRegistry : ToolRegistry;
  humanApprovalTools : gset string;
  JSON_ : JSON
}.

(** [this.humanApprovalTools = new Set(toolNames)]. *)
Definition setHumanApprovalTools (toolNames : list string) (this : Agent) : Agent :=
  {| openai := openai this; config := config this;
     toolRegistry := toolRegistry this;
     humanApprovalTools := list_to_set toolNames;
     JSON_ := JSON_ this |}.

Inductive Role := user | assistant | system.

Record ChatMessage := {
  role : Role;
  content : string;
  timestamp : Instant
}.

Inductive Status := pending | approved | rejected.

Inductive Decision := decide_approved | decide_rejected.

Definition status_of (d : Decision) : Status :=
  match d with
  | decide_approved => approved
  | decide_rejected => rejected
  end.

(** In this variant a request carries the session id and no id of its own. *)
Record HumanApprovalRequest := {
  sessionId : string;
  toolName : string;
  toolArgs : JsValue;
  reasoning : string;
  requestTimestamp : Instant;
  status : Status;
  humanResponse : option string;
  humanResponseTimestamp : option Instant
}.

Record ConversationState := {
  chatHistory : list ChatMessage;
  pendingApprovals : list HumanApprovalRequest;
  createdAt : Instant;
  lastUpdated : Instant
}.

(** ** The conversation entity *)

Inductive Operation :=
| addMessage (r : Role) (c : string)
| addApprovalRequest (session tool : string) (args : JsValue) (why : string)
| handleApproval (session : string) (decision : Decision) (response : option string)
| getPendingApprovals
| getState
| getFullHistory
| otherOperation (operationName : string).

Inductive Result :=
| Success
| ApprovalAdded (session : string)
| ApprovalHandled (approval : HumanApprovalRequest)
| Failure (error : string)
| Approvals (approvals : list HumanApprovalRequest)
| StateSummary (messageCount pendingApprovalCount : nat) (created updated : Instant)
               (recentMessages : list ChatMessage)
               (allApprovals : list HumanApprovalRequest)
| FullHistory (history : list ChatMessage) (approvalHistory : list HumanApprovalRequest)
| WholeState (state : ConversationState).

Global Instance Status_eq_dec : EqDecision Status.
Proof. solve_decision. Defined.

Definition initialState (h : Host) : ConversationState * Host :=
  let (t1, h1) := Date_now h in
  let (t2, h2) := Date_now h1 in
  ({| chatHistory := []; pendingApprovals := []; createdAt := t1; lastUpdated := t2 |}, h2).

Definition loadState (stored : option ConversationState) (h : Host)
  : ConversationState * Host :=
  match stored with
  | Some state => (state, h)
  | None => initialState h
  end.

Definition resolve (approval : HumanApprovalRequest) (decision : Decision)
    (response : option string) (t : Instant) : HumanApprovalRequest :=
  {| sessionId := sessionId approval;
     toolName := toolName approval;
     toolArgs := toolArgs approval;
     reasoning := reasoning approval;
     requestTimestamp := requestTimestamp approval;
     status := status_of decision;
     humanResponse := response;
     humanResponseTimestamp := Some t |}.

Definition isPending (a : HumanApprovalRequest) : Prop := status a = pending.

(** The predicate of the [find] in [handleApproval]. *)
Definition awaitsDecision (session : string) (a : HumanApprovalRequest) : Prop :=
  sessionId a = session ∧ status a = pending.

(** The entity function that [createConversationEntity] registers; its
    requests are found by [sessionId] and status. *)
Definition createConversationEntity (op : Operation)
    (stored : option ConversationState) (h : Host)
  : Result * option ConversationState * Host :=
  let (state, h0) := loadState stored h in
  match op with
  | addMessage r c =>
      let (t, h1) := Date_now h0 in
      let (u, h2) := Date_now h1 in
      (Success,
       Some {| chatHistory := chatHistory state
                 ++ [{| role := r; content := c; timestamp := t |}];
               pendingApprovals := pendingApprovals state;
               createdAt := createdAt state;
               lastUpdated := u |},
       h2)
  | addApprovalRequest session tool args why =>
      let (t, h1) := Date_now h0 in
      let approvalRequest :=
        {| sessionId := session; toolName := tool; toolArgs := args;
           reasoning := why; requestTimestamp := t; status := pending;
           humanResponse := None; humanResponseTimestamp := None |} in
      let (u, h2) := Date_now h1 in
      (ApprovalAdded (sessionId approvalRequest),
       Some {| chatHistory := chatHistory state;
               pendingApprovals := pendingApprovals state ++ [approvalRequest];
               createdAt := createdAt state;
               lastUpdated := u |},
       h2)
  | handleApproval session decision response =>
      match list_find (awaitsDecision session) (pendingApprovals state) with
      | Some (i, approval) =>
          let (t, h1) := Date_now h0 in
          let (u, h2) := Date_now h1 in
          let approval' := resolve approval decision response t in
          (ApprovalHandled approval',
           Some {| chatHistory := chatHistory state;
                   pendingApprovals := <[i := approval']> (pendingApprovals state);
                   createdAt := createdAt state;
                   lastUpdated := u |},
           h2)
      | None => (Failure "Approval request not found", stored, h0)
      end
  | getPendingApprovals =>
      (Approvals (filter isPending (pendingApprovals state)), stored, h0)
  | getState =>
      (StateSummary (length (chatHistory state))
         (length (filter isPending (pendingApprovals state)))
         (createdAt state) (lastUpdated state)
         (slice_last 5 (chatHistory state))
         (pendingApprovals state),
       stored, h0)
  | getFullHistory =>
      (FullHistory (chatHistory state) (pendingApprovals state), stored, h0)
  | otherOperation _ => (WholeState state, stored, h0)
  end.

(** The operation that the approval endpoint signals to the entity:
    [decision: approved ? 'approved' : 'rejected'] and
    [humanResponse: feedback || '']. *)
Definition approvalSignal (session : string) (isApproved : bool)
    (feedback : option string) : Operation :=
  handleApproval session
    (if isApproved then decide_approved else decide_rejected)
    (Some (string_or feedback EmptyString)).

(** ** The world an orchestration runs in *)

(** What the orchestrator function yields to the durable runtime. *)
Inductive Task :=
| CallEntity (op : Operation)
| ProcessMessage (message : string)
| ExecuteTool (toolName : string) (toolArgs : JsValue)
| CreateTimer (fireAt : Z).

(** What happens while the orchestration is suspended on a task: the
    operations that other callers get executed on the entity of the
    session, and how much later than asked the orchestration resumes. *)
Record Tick := {
  arrivals : list Operation;
  lag : N
}.

Definition quietTick : Tick := {| arrivals := []; lag := 0%N |}.

(** The entity of the session of the turn, the host, the orchestration
    clock [context.df.currentUtcDateTime], what the surroundings will do
    at the coming suspensions (nothing once the list is used up), the API
    and handler calls made, and the tasks yielded so far. *)
Record World := {
  store : option ConversationState;
  host : Host;
  now : Z;
  environment : list Tick;
  api_calls : nat;
  invoked : list Invocation;
  trace : list Task
}.

Definition ledger (w : World) : list HumanApprovalRequest :=
  default [] (pendingApprovals <$> store w).

(** The surroundings execute their operations on the entity. *)
Definition deliver (ops : list Operation) (stored : option ConversationState) (h : Host)
  : option ConversationState * Host :=
  foldl (fun sh op =>
           let '(_, stored', h') := createConversationEntity op sh.1 sh.2 in
           (stored', h'))
        (stored, h) ops.

(** [yield task]: the surroundings act, the clock moves to the wake-up
    instant (or beyond), and the task is on record. *)
Definition suspend (task : Task) (wake : Z) : M World unit :=
  fun w =>
    let tick := default quietTick (head (environment w)) in
    let (stored, h) := deliver (arrivals tick) (store w) (host w) in
    ({| store := stored; host := h;
        now := Z.max (now w) wake + Z.of_N (lag tick);
        environment := tail (environment w);
        api_calls := api_calls w; invoked := invoked w;
        trace := trace w ++ [task] |},
     Returned tt).

Definition currentUtcDateTime : M World Z := fun w => (w, Returned (now w)).

(** What the durable runtime hands to the caller of an entity operation:
    the value that the entity function gave to [context.df.return].  The
    entity function of this class never calls [context.df.return]; its
    [return] statements only give the callback a return value, which the
    runtime drops.  So every operation delivers [undefined], whatever the
    callback returned. *)
Definition delivered (result : Result) : option Result := None.

(** [yield context.df.callEntity(entityId, op, input)]: the entity executes
    the operation, and the [yield] evaluates to what was delivered. *)
Definition callEntity (op : Operation) : M World (option Result) :=
  (now_ <- currentUtcDateTime ;;
   suspend (CallEntity op) now_ ;;;
   fun w =>
     let '(result, stored, h) := createConversationEntity op (store w) (host w) in
     ({| store := stored; host := h; now := now w;
         environment := environment w; api_calls := api_calls w;
         invoked := invoked w; trace := trace w |},
      Returned (delivered result)))%js.

(** [yield context.df.createTimer(fireAt)]. *)
Definition createTimer (fireAt : Z) : M World unit :=
  suspend (CreateTimer fireAt) fireAt.

(** [yield context.df.callActivity('ProcessMessage', ...)]. *)
Definition callProcessMessage (this : Agent) (message : string)
  : M World AssistantMessage :=
  (now_ <- currentUtcDateTime ;;
   suspend (ProcessMessage message) now_ ;;;
   fun w =>
     ({| store := store w; host := host w; now := now w;
         environment := environment w; api_calls := S (api_calls w);
         invoked := invoked w; trace := trace w |},
      openai this (api_calls w)
        {| messages := [SystemMessage (systemPrompt (config this));
                        UserMessage message];
           tools := Some (getOpenAISchema (toolRegistry this)) |}))%js.

(** [yield context.df.callActivity('ExecuteTool', { toolName, toolArgs })]. *)
Definition callExecuteTool (this : Agent) (toolName : string) (toolArgs : JsValue)
  : M World string :=
  (now_ <- currentUtcDateTime ;;
   suspend (ExecuteTool toolName toolArgs) now_ ;;;
   fun w =>
     let (calls, outcome) := executeTool (toolRegistry this) toolName toolArgs in
     ({| store := store w; host := host w; now := now w;
         environment := environment w; api_calls := api_calls w;
         invoked := invoked w ++ calls; trace := trace w |},
      outcome))%js.

(** ** The orchestrator *)

Record OrchestratorInput := {
  input_message : string;
  input_sessionId : string;
  approvalTimeoutMinutes : option Z
}.

Record OrchestratorOutput := {
  success : bool;
  response : string;
  requiresApproval : bool;
  out_sessionId : option string;
  out_toolName : option string;
  out_toolArgs : option JsValue
}.

Record HumanDecision := { isApproved : bool; feedback : string }.

(** The predicate of the [find] in the polling loop. *)
Definition decisionFor (session tool : string) (a : HumanApprovalRequest) : Prop :=
  sessionId a = session ∧ toolName a = tool ∧ status a ≠ pending.

(** How the polling loop ends.  [Unfinished] is the loop cut short by the
    iteration bound of this model; it does not occur with the bound
    [pollBudget] that the orchestrator uses. *)
Inductive PollOutcome :=
| Decided (humanDecision : HumanDecision)
| Expired
| Unfinished.

(** [new Date(t)] for an integer [t]: a time value of more than
    8.64e15 milliseconds either side of the epoch makes an Invalid Date,
    here [None]. *)
Definition maxTime : Z := 8640000000000000.

Definition new_Date (t : Z) : option Z :=
  if decide (- maxTime ≤ t ≤ maxTime) then Some t else None.

(** [currentUtcDateTime < timeoutDate]: comparing with an Invalid Date
    compares with [NaN] and is false. *)
Definition earlier (t : Z) (date : option Z) : Prop :=
  match date with
  | Some limit => t < limit
  | None => False
  end.

Global Instance earlier_dec t date : base.Decision (earlier t date).
Proof. destruct date; simpl; apply _. Defined.

(** [while (!approvalReceived && currentUtcDateTime < timeoutDate)].  The
    decision is looked for in [entityState?.pendingApprovals], where
    [entityState] is what [yield callEntity(entityId, 'getState')]
    evaluated to.  (The clock is taken to stay five seconds short of the
    end of the range of [Date], so that the timer's date is valid.) *)
Fixpoint pollLoop (fuel : nat) (session tool : string) (timeoutDate : option Z)
  : M World PollOutcome :=
  fun w =>
    if decide (earlier (now w) timeoutDate) then
      match fuel with
      | O => (w, Returned Unfinished)
      | S fuel' =>
          (createTimer (now w + 5000) ;;;
           entityState <- callEntity getState ;;
           match entityState with
           | Some (StateSummary _ _ _ _ _ allApprovals) =>
               match list_find (decisionFor session tool) allApprovals with
               | Some (_, currentApproval) =>
                   ret (Decided
                          {| isApproved :=
                               bool_decide (status currentApproval = approved);
                             feedback :=
                               string_or (humanResponse currentApproval) EmptyString |})
               | None => pollLoop fuel' session tool timeoutDate
               end
           | _ => pollLoop fuel' session tool timeoutDate
           end)%js w
      end
    else (w, Returned Expired).

(** Each iteration waits five seconds or more, so this many iterations
    reach the deadline. *)
Definition pollBudget (timeoutMs : Z) : nat := S (Z.to_nat (timeoutMs / 5000)).

Definition minutesOf (input : OrchestratorInput) : Z :=
  default 30 (approvalTimeoutMinutes input).

(** The branch of a tool that requires approval, up to its [return]. *)
Definition gate (this : Agent) (input : OrchestratorInput)
    (tool : string) (toolArgs : JsValue) : M World OrchestratorOutput :=
  (let session := input_sessionId input in
   let minutes := minutesOf input in
   callEntity
     (addApprovalRequest session tool toolArgs
        ("AI wants to execute " +:+ tool +:+ " with: "
         +:+ JSON_stringify (JSON_ this) toolArgs)) ;;;
   start <- currentUtcDateTime ;;
   let timeoutDate := new_Date (start + minutes * 60 * 1000) in
   outcome <- pollLoop (pollBudget (minutes * 60 * 1000)) session tool timeoutDate ;;
   finalResponse <-
     match outcome with
     | Decided humanDecision =>
         if isApproved humanDecision then
           toolResult <- callExecuteTool this tool toolArgs ;;
           ret ("[HUMAN APPROVED] " +:+ toolResult)
         else
           ret ("[HUMAN REJECTED] "
                +:+ string_or (Some (feedback humanDecision)) "Operation was rejected")
     | Expired =>
         callEntity
           (handleApproval session decide_rejected
              (Some ("Timeout after " +:+ pretty minutes +:+ " minutes"))) ;;;
         ret ("[TIMEOUT] Request timed out after " +:+ pretty minutes +:+ " minutes")
     | Unfinished => throw (ThrowError "Model" "iteration bound reached")
     end ;;
   ret {| success := true; response := finalResponse; requiresApproval := true;
          out_sessionId := Some session; out_toolName := Some tool;
          out_toolArgs := Some toolArgs |})%js.

(** The [for] loop over [response.tool_calls]: either it runs to its end
    with the last [finalResponse], or a gated call returns from the
    orchestrator. *)
Fixpoint toolLoop (this : Agent) (input : OrchestratorInput)
    (calls : list ToolCall) (finalResponse : string)
  : M World (string + OrchestratorOutput) :=
  match calls with
  | [] => ret (inl finalResponse)
  | toolCall :: rest =>
      (toolArgs <- lift (JSON_parse (JSON_ this) (call_arguments toolCall)) ;;
       if decide (call_name toolCall ∈ humanApprovalTools this) then
         output <- gate this input (call_name toolCall) toolArgs ;;
         ret (inr output)
       else
         toolResult <- callExecuteTool this (call_name toolCall) toolArgs ;;
         toolLoop this input rest toolResult)%js
  end.

(** The orchestrator function that [createChatOrchestrator] registers. *)
Definition createChatOrchestrator (this : Agent) (input : OrchestratorInput)
  : M World OrchestratorOutput :=
  try_catch
    (callEntity (addMessage user (input_message input)) ;;;
     response <- callProcessMessage this (input_message input) ;;
     let finalResponse := string_or (message_content response) "No response generated" in
     exit <-
       match tool_calls response with
       | Some (toolCall :: rest) => toolLoop this input (toolCall :: rest) finalResponse
       | _ => ret (inl finalResponse)
       end ;;
     match exit with
     | inr output => ret output
     | inl finalResponse =>
         callEntity (addMessage assistant finalResponse) ;;;
         ret {| success := true; response := finalResponse;
                requiresApproval := false; out_sessionId := None;
                out_toolName := None; out_toolArgs := None |}
     end)%js
    (fun error => throw error).

(** ** What the approval gate did, read off the tasks *)

Inductive GateEvent :=
| RequestCreated (tool : string)
| ExecutorInvoked (tool : string) (toolArgs : JsValue).

Definition gateEvent (task : Task) : option GateEvent :=
  match task with
  | CallEntity (addApprovalRequest _ tool _ _) => Some (RequestCreated tool)
  | ExecuteTool tool toolArgs => Some (ExecutorInvoked tool toolArgs)
  | _ => None
  end.

Definition gateEvents (tasks : list Task) : list GateEvent := omap gateEvent tasks.

(** The arguments of a tool call as the orchestrator reads them. *)
Definition argumentsOf (this : Agent) (toolCall : ToolCall) : Completion JsValue :=
  JSON_parse (JSON_ this) (call_arguments toolCall).


(** A call that the loop gets past: its arguments parse and its tool is
    registered (so the [ExecuteTool] activity does not fail). *)
Definition processable (this : Agent) (toolCall : ToolCall) : Prop :=
  (∃ toolArgs, argumentsOf this toolCall = Returned toolArgs)
  ∧ hasTool (toolRegistry this) (call_name toolCall) = true.

Definition ungated (this : Agent) (toolCall : ToolCall) : Prop :=
  call_name toolCall ∉ humanApprovalTools this.

(** From [w] to [w'] the requests that were already resolved stay as they
    are, at their place in the ledger. *)
Definition persists (w w' : World) : Prop :=
  ∀ i a, ledger w !! i = Some a → status a ≠ pending → ledger w' !! i = Some a.

(** An operation that neither files nor decides an approval request. *)
Definition leavesRequests (op : Operation) : Prop :=
  match op with
  | addApprovalRequest _ _ _ _ | handleApproval _ _ _ => False
  | _ => True
  end.

(** Surroundings in which nobody else files or decides approval requests
    on the entity, whatever the delays: what arrives is messages and
    reads. *)
Definition undecided (w : World) : Prop :=
  Forall (fun tick => Forall leavesRequests (arrivals tick)) (environment w).

(** From [w] to [w'] the orchestration yielded tasks whose gate events
    are [evs], and resolved requests stayed. *)
Definition extends (w w' : World) (evs : list GateEvent) : Prop :=
  gateEvents (trace w') = gateEvents (trace w) ++ evs ∧ persists w w'.

End HumanInLoopDurableAgentOrchestrator.

(* ================================================================== *)
(** * Sample data *)
(* ================================================================== *)

Module Samples.
Import Js.

(** A host whose clock advances by one second per reading. *)
Definition host0 : Host :=
  {| times := fun n => 1000 * Z.of_nat n; time_pos := 0;
     guids := fun n => "guid-" +:+ pretty n; guid_pos := 0 |}.

End Samples.

Module WrapperSamples.
Import Js Samples HumanInLoopDurableAgentWrapper.

Definition request1 : HumanApprovalRequest :=
  {| id := "req-1"; toolName := "makePayment";
     toolArgs := JObj [("amount", JNum 100)];
     reasoning := "pay"; requestTimestamp := 5; status := pending;
     humanResponse := None; humanResponseTimestamp := None |}.

Definition ledger1 : ConversationState :=
  {| chatHistory := [{| role := user; content := "pay 100"; timestamp := 4 |}];
     pendingApprovals := [request1]; createdAt := 3; lastUpdated := 5 |}.

End WrapperSamples.

Module OrchestratorSamples.
Import Js Samples HumanInLoopDurableAgentOrchestrator.

Definition request (tool : string) (st : Status) : HumanApprovalRequest :=
  {| sessionId := "s1"; toolName := tool;
     toolArgs := JObj [("amount", JNum 100)];
     reasoning := "pay"; requestTimestamp := 5; status := st;
     humanResponse := match st with pending => None | _ => Some "earlier" end;
     humanResponseTimestamp := match st with pending => None | _ => Some 6 end |}.

(** A ledger with a resolved request followed by two pending ones. *)
Definition ledger3 : ConversationState :=
  {| chatHistory := [{| role := user; content := "pay 100"; timestamp := 4 |}];
     pendingApprovals :=
       [request "makePayment" approved; request "deleteFile" pending;
        request "sendEmail" pending];
     createdAt := 3; lastUpdated := 6 |}.

(** A ledger whose only request has been approved. *)
Definition ledgerResolved : ConversationState :=
  {| chatHistory := [{| role := user; content := "pay 100"; timestamp := 4 |}];
     pendingApprovals := [request "makePayment" approved];
     createdAt := 3; lastUpdated := 6 |}.

End OrchestratorSamples.

Module AgentSamples.
Import Js Tool OpenAI Http Samples.

Definition quote : string := String (Ascii.ascii_of_nat 34) EmptyString.

(** The JSON text of [{ number: 9 }] and of [{ amount: 100 }]. *)
Definition nineText : string := "{" +:+ quote +:+ "number" +:+ quote +:+ ":9}".
Definition amountText : string := "{" +:+ quote +:+ "amount" +:+ quote +:+ ":100}".

(** A JSON reader that knows the few texts the samples use. *)
Definition sampleJSON : JSON :=
  {| JSON_parse := fun text =>
       if String.eqb text nineText then Returned (JObj [("number", JNum 9)])
       else if String.eqb text amountText then Returned (JObj [("amount", JNum 100)])
       else if String.eqb text "{}" then Returned (JObj [])
       else Threw (ThrowError "SyntaxError" "Unexpected token");
     JSON_stringify := fun v =>
       match v with
       | JObj [("number", JNum n)] => "{" +:+ quote +:+ "number" +:+ quote +:+ ":" +:+ pretty n +:+ "}"
       | JObj [("amount", JNum n)] => "{" +:+ quote +:+ "amount" +:+ quote +:+ ":" +:+ pretty n +:+ "}"
       | _ => "{}"
       end |}.

Definition calculateSquare : ToolDefinition :=
  {| name := "calculateSquare";
     tool_description := "Calculate the square of a number";
     parameters := [("number", {| type := TNumber;
                                  description := "The number to square";
                                  required := Some true |})];
     handler := fun argv =>
       match argv with
       | [JNum n] =>
           Returned ("The square of " +:+ pretty n +:+ " is " +:+ pretty (n * n))
       | _ => Returned "The square of NaN is NaN"
       end |}.

Definition mathRegistry : ToolRegistry :=
  registerTool calculateSquare new_ToolRegistry.

Definition lastToolText (request : ChatRequest) : string :=
  default "nothing"
    (last (omap (fun m => match m with ToolMessage _ c => Some c | _ => None end)
                (messages request))).

Definition asksForSquare (request : ChatRequest) : bool :=
  existsb (fun m => match m with
                   | UserMessage c => String.eqb c "What is 9 squared?"
                   | _ => false
                   end)
          (messages request).

(** A stand-in for the model: on the first call of a turn it asks for
    [calculateSquare] when the user asked for a square and greets
    otherwise; on the second call it reports the last tool result. *)
Definition sampleModel : Client :=
  fun _ request =>
    match tools request with
    | Some _ =>
        if asksForSquare request then
          Returned {| message_content := None;
                      tool_calls := Some [{| call_id := "call-1";
                                             call_name := "calculateSquare";
                                             call_arguments := nineText |}] |}
        else
          Returned {| message_content := Some "Hello! How can I help?";
                      tool_calls := None |}
    | None =>
        Returned {| message_content := Some ("Result: " +:+ lastToolText request);
                    tool_calls := None |}
    end.

Definition mathAgent : DurableOpenAiAgentOrchestrator.Agent :=
  {| DurableOpenAiAgentOrchestrator.openai := sampleModel;
     DurableOpenAiAgentOrchestrator.config :=
       {| DurableOpenAiAgentOrchestrator.agentName := "Math Agent";
          DurableOpenAiAgentOrchestrator.systemPrompt := "You are a math assistant." |};
     DurableOpenAiAgentOrchestrator.toolRegistry := mathRegistry;
     DurableOpenAiAgentOrchestrator.JSON_ := sampleJSON |}.

Definition freshWorld : DurableOpenAiAgentOrchestrator.World :=
  {| DurableOpenAiAgentOrchestrator.entities := ∅;
     DurableOpenAiAgentOrchestrator.host := host0;
     DurableOpenAiAgentOrchestrator.api_calls := 0;
     DurableOpenAiAgentOrchestrator.invoked := [] |}.

Definition threeTurns : list DurableOpenAiAgentOrchestrator.OrchestratorInput :=
  [ {| DurableOpenAiAgentOrchestrator.message := "What is 9 squared?";
       DurableOpenAiAgentOrchestrator.sessionId := "s1" |};
    {| DurableOpenAiAgentOrchestrator.message := "hello";
       DurableOpenAiAgentOrchestrator.sessionId := "s2" |};
    {| DurableOpenAiAgentOrchestrator.message := "thanks";
       DurableOpenAiAgentOrchestrator.sessionId := "s1" |} ].

Definition threeAnswers : list DurableOpenAiAgentOrchestrator.OrchestratorOutput :=
  [ {| DurableOpenAiAgentOrchestrator.success := true;
       DurableOpenAiAgentOrchestrator.response := "Result: The square of 9 is 81" |};
    {| DurableOpenAiAgentOrchestrator.success := true;
       DurableOpenAiAgentOrchestrator.response := "Hello! How can I help?" |};
    {| DurableOpenAiAgentOrchestrator.success := true;
       DurableOpenAiAgentOrchestrator.response := "Hello! How can I help?" |} ].

(** A chat request whose body is [{ sessionId: 'abc' }]. *)
Definition bareRequest : HttpRequest :=
  {| json := Returned (JObj [("sessionId", JStr "abc")]);
     params_sessionId := None |}.

Definition acceptingClient : DurableOpenAiAgentOrchestrator.DurableClient :=
  {| DurableOpenAiAgentOrchestrator.startNew := fun _ => Returned "instance-1";
     DurableOpenAiAgentOrchestrator.getStatus := fun _ => Returned None |}.

End AgentSamples.


Module GateSamples.
Import Js Tool OpenAI Http Samples AgentSamples HumanInLoopDurableAgentOrchestrator.

Definition checkBalance : ToolDefinition :=
  {| name := "checkBalance";
     tool_description := "Check account balance";
     parameters := [];
     handler := fun _ => Returned "Balance: $1,000" |}.

Definition makePayment : ToolDefinition :=
  {| name := "makePayment";
     tool_description := "Transfer money (REQUIRES HUMAN APPROVAL)";
     parameters := [("amount", {| type := TNumber;
                                  description := "Amount to transfer in dollars";
                                  required := Some true |})];
     handler := fun argv =>
       match argv with
       | [JNum n] => Returned ("Payment of $" +:+ pretty n +:+ " completed.")
       | _ => Returned "Payment of $NaN completed."
       end |}.

Definition bankRegistry : ToolRegistry :=
  registerTool makePayment (registerTool checkBalance new_ToolRegistry).

Definition balanceCall : ToolCall :=
  {| call_id := "call-b"; call_name := "checkBalance"; call_arguments := "{}" |}.

Definition paymentCall : ToolCall :=
  {| call_id := "call-p"; call_name := "makePayment"; call_arguments := amountText |}.

(** A stand-in for the model that answers a few fixed messages with fixed
    tool calls. *)
Definition bankModel : Client :=
  fun _ request =>
    let asks text :=
      existsb (fun m => match m with
                        | UserMessage c => String.eqb c text
                        | _ => false
                        end) (messages request) in
    if asks "pay" then
      Returned {| message_content := None; tool_calls := Some [paymentCall] |}
    else if asks "pay then check" then
      Returned {| message_content := None;
                  tool_calls := Some [paymentCall; balanceCall] |}
    else if asks "check then pay" then
      Returned {| message_content := None;
                  tool_calls := Some [balanceCall; paymentCall] |}
    else if asks "check" then
      Returned {| message_content := None; tool_calls := Some [balanceCall] |}
    else
      Returned {| message_content := Some "Hello! How can I help?";
                  tool_calls := None |}.

Definition bankAgent : Agent :=
  setHumanApprovalTools ["makePayment"]
    {| openai := bankModel;
       config := {| agentName := "FinancialAgent";
                    systemPrompt := "You are a financial assistant." |};
       toolRegistry := bankRegistry;
       humanApprovalTools := ∅;
       JSON_ := sampleJSON |}.

(** A turn on session [s1] with a one-minute approval timeout. *)
Definition turn (text : string) : OrchestratorInput :=
  {| input_message := text; input_sessionId := "s1";
     approvalTimeoutMinutes := Some 1 |}.

(** A world in which the surroundings do what [ticks] says. *)
Definition worldWith (stored : option ConversationState) (ticks : list Tick) : World :=
  {| store := stored; host := host0; now := 0; environment := ticks;
     api_calls := 0; invoked := []; trace := [] |}.

(** The human approves while the orchestration waits on its first timer
    (the fourth suspension of a turn whose first tool call is gated). *)
Definition approveDuringFirstWait : list Tick :=
  [quietTick; quietTick; quietTick;
   {| arrivals := [approvalSignal "s1" true (Some "ok")]; lag := 0%N |}].

End GateSamples.

Module WrapperGateSamples.
Import Js Tool OpenAI Http Samples AgentSamples GateSamples.
Import HumanInLoopDurableAgentWrapper.

Definition wrapperAgent : Agent :=
  setHumanApprovalTools ["makePayment"]
    {| openai := bankModel;
       config := {| agentName := "FinancialAgent";
                    systemPrompt := "You are a financial assistant." |};
       toolRegistry := bankRegistry;
       humanApprovalTools := ∅;
       JSON_ := sampleJSON |}.

Definition emptyWorld : World :=
  {| entities := ∅; host := host0; api_calls := 0; invoked := [];
     approvalMap := []; events := [] |}.

Definition paymentAnswer : AssistantMessage :=
  {| message_content := None; tool_calls := Some [paymentCall] |}.

(** The world after the wrapper processed the gated payment call. *)
Definition afterPayment : World :=
  (gatedToolCall wrapperAgent "s1" paymentAnswer paymentCall emptyWorld).1.

End WrapperGateSamples.

(* ================================================================== *)
(** * Tool.ts: the helper functions *)
(* ================================================================== *)

Module ToolHelpers.
Import Js Tool.

(** [createTool(definition)] returns its argument. *)
Definition createTool (definition : ToolDefinition) : ToolDefinition := definition.

(** [createParameter(type, description, required = true)]: the default
    applies when the third argument is omitted or [undefined]. *)
Definition createParameter (t : ParamType) (d : string) (r : option bool)
  : ToolParameter :=
  {| type := t; description := d; required := Some (default true r) |}.

(** The [agent] part of the body of the health endpoints that describes
    the registry: [availableTools] and [toolCount]. *)
Record HealthTools := {
  availableTools : list string;
  toolCount : nat
}.

Definition healthTools (this : ToolRegistry) : HealthTools :=
  {| availableTools := getToolNames this; toolCount := getToolCount this |}.

End ToolHelpers.

(* ================================================================== *)
(** * generateGuid *)
(* ================================================================== *)

(** The private method [generateGuid] of the three agent classes, computed
    from the random draws it makes.  ([Js.generateGuid] above stands for
    the same method as seen by its callers: a supply of results.) *)
Module Guid.
Import Stdlib.Strings.Ascii.

(** [v.toString(16)] for a non-negative integer. *)
Definition hexDigit (v : Z) : Ascii.ascii :=
  match v with
  | 0 => "0" | 1 => "1" | 2 => "2" | 3 => "3" | 4 => "4" | 5 => "5"
  | 6 => "6" | 7 => "7" | 8 => "8" | 9 => "9" | 10 => "a" | 11 => "b"
  | 12 => "c" | 13 => "d" | 14 => "e" | _ => "f"
  end%char.

Fixpoint digits16 (fuel : nat) (v : Z) (acc : string) : string :=
  match fuel with
  | O => acc
  | S fuel' =>
      let acc' := String (hexDigit (v mod 16)) acc in
      if v / 16 =? 0 then acc' else digits16 fuel' (v / 16) acc'
  end.

Definition toString16 (v : Z) : string :=
  digits16 (S (Z.to_nat (Z.log2 v))) v EmptyString.

Definition template : string := "xxxxxxxx-xxxx-4xxx-yxxx-xxxxxxxxxxxx".

(** [s.replace(/[xy]/g, function (c) { ... })]: the callback runs once
    for each [x] or [y], from left to right.  [random16 n] is the value of
    [Math.random() * 16 | 0] at the n-th call of [Math.random]. *)
Fixpoint replaceXY (s : string) (random16 : nat -> Z) (pos : nat) : string * nat :=
  match s with
  | EmptyString => (EmptyString, pos)
  | String c rest =>
      if Ascii.eqb c "x" || Ascii.eqb c "y" then
        let r := random16 pos in
        let v := if Ascii.eqb c "x" then r else Z.lor (Z.land r 3) 8 in
        let (out, pos') := replaceXY rest random16 (S pos) in
        (toString16 v +:+ out, pos')
      else
        let (out, pos') := replaceXY rest random16 pos in
        (String c out, pos')
  end.

(** The guid and the number of draws made so far. *)
Definition generateGuid (random16 : nat -> Z) (pos : nat) : string * nat :=
  replaceXY template random16 pos.

Definition isHexDigit (c : Ascii.ascii) : bool :=
  let n := Ascii.nat_of_ascii c in
  ((48 <=? n) && (n <=? 57) || (97 <=? n) && (n <=? 102))%nat.

End Guid.

(* ================================================================== *)
(** * The names an agent registers its functions under *)
(* ================================================================== *)

(** The constructors of the three agent classes derive the names of the
    entity, the orchestrator and the activity from [config.name] in the
    same way; [run] derives the routes from the lower-cased id. *)
Module AgentNames.
Import Js Http.

Definition agentId (name : string) : string := stripNonAlnum name.

Definition entityName (name : string) : string :=
  agentId name +:+ "ConversationEntity".

Definition orchestratorName (name : string) : string :=
  agentId name +:+ "ChatOrchestrator".

Definition activityName (name : string) : string :=
  agentId name +:+ "ProcessChatActivity".

(** [toLowerCase] on a character. *)
Definition lowerChar (c : Ascii.ascii) : Ascii.ascii :=
  let n := Ascii.nat_of_ascii c in
  if ((65 <=? n) && (n <=? 90))%nat then Ascii.ascii_of_nat (n + 32) else c.

(** [s.toLowerCase()] for a string of ASCII letters and digits, which is
    what [agentId] is. *)
Fixpoint toLowerCase (s : string) : string :=
  match s with
  | EmptyString => EmptyString
  | String c rest => String (lowerChar c) (toLowerCase rest)
  end.

(** The route prefix that [run] uses:
    [config.name.replace(/[^a-zA-Z0-9]/g, '').toLowerCase()]. *)
Definition routeId (name : string) : string := toLowerCase (agentId name).

Definition chatRoute (name : string) : string := routeId name +:+ "/chat/{sessionId?}".
Definition stateRoute (name : string) : string := routeId name +:+ "/state/{sessionId}".
Definition healthRoute (name : string) : string := routeId name +:+ "/health".

End AgentNames.

(* ================================================================== *)
(** * The durable agent orchestrator: state endpoint and turn outcomes *)
(* ================================================================== *)

Module DurableOpenAiAgentOrchestratorHttp.
Import Js Tool OpenAI Http DurableOpenAiAgentOrchestrator.

(** Operations executed one after the other on the entity of one session. *)
Definition deliver (ops : list Operation) (stored : option ConversationState) (h : Host)
  : option ConversationState * Host :=
  foldl (fun sh op =>
           let '(_, stored', h') := createConversationEntity op sh.1 sh.2 in
           (stored', h'))
        (stored, h) ops.

(** What a list of operations asks to append. *)
Definition appended (ops : list Operation) : list (Role * string) :=
  omap (fun op => match op with
                  | addMessage r c => Some (r, c)
                  | _ => None
                  end) ops.

(** The fields of the JSON body of the state endpoint that are modelled
    ([timestamp] and [processingTimeMs] are left out). *)
Record StateResponse := {
  state_status : Z;
  state_success : bool;
  state_error : option string;
  state_sessionId : option string;
  state_messageCount : option nat;
  state_createdAt : option Instant;
  state_lastUpdated : option Instant;
  state_recentMessages : option (list ChatMessage)
}.

(** The handler of [createStateEndpoint].  [readEntityState] is
    [client.readEntityState], whose answer is the entity's state when the
    entity exists. *)
Definition createStateEndpoint
    (readEntityState : string -> Completion (option ConversationState))
    (params_sessionId : option string) : StateResponse :=
  let sessionId := default EmptyString params_sessionId in
  if isEmpty sessionId then
    {| state_status := 400; state_success := false;
       state_error := Some "sessionId is required";
       state_sessionId := None; state_messageCount := None;
       state_createdAt := None; state_lastUpdated := None;
       state_recentMessages := None |}
  else
    match readEntityState sessionId with
    | Threw error =>
        {| state_status := 500; state_success := false;
           state_error := Some (String_of_thrown error);
           state_sessionId := None; state_messageCount := None;
           state_createdAt := None; state_lastUpdated := None;
           state_recentMessages := None |}
    | Returned None =>
        {| state_status := 404; state_success := false;
           state_error := Some "Session not found";
           state_sessionId := Some sessionId; state_messageCount := None;
           state_createdAt := None; state_lastUpdated := None;
           state_recentMessages := None |}
    | Returned (Some state) =>
        {| state_status := 200; state_success := true;
           state_error := None;
           state_sessionId := Some sessionId;
           state_messageCount := Some (length (chatHistory state));
           state_createdAt := Some (createdAt state);
           state_lastUpdated := Some (lastUpdated state);
           state_recentMessages := Some (slice_last 5 (chatHistory state)) |}
    end.

(** The durable client's view of the entities of a world. *)
Definition readEntityState (w : World) : string -> Completion (option ConversationState) :=
  fun sessionId => Returned (entities w !! sessionId).

(** The tool message that the loop of [executeOpenAIChat] pushes for a
    call whose arguments parsed to [toolArgs]. *)
Definition toolMessage (this : Agent) (toolCall : ToolCall) (toolArgs : JsValue)
  : RequestMessage :=
  ToolMessage (call_id toolCall)
    (match (executeTool (toolRegistry this) (call_name toolCall) toolArgs).2 with
     | Returned text => text
     | Threw error => errorText (call_name toolCall) error
     end).

(** The handler calls that executing a call with these arguments makes. *)
Definition invocations (this : Agent) (toolCall : ToolCall) (toolArgs : JsValue)
  : list Invocation :=
  (executeTool (toolRegistry this) (call_name toolCall) toolArgs).1.

(** The first request of a turn and the request that follows the tool
    calls. *)
Definition firstRequest (this : Agent) (message : string) : ChatRequest :=
  {| messages := [SystemMessage (systemPrompt (config this)); UserMessage message];
     tools := Some (getOpenAISchema (toolRegistry this)) |}.

Definition secondRequest (this : Agent) (message : string)
    (completion : AssistantMessage) (toolResults : list RequestMessage) : ChatRequest :=
  {| messages := [SystemMessage (systemPrompt (config this)); UserMessage message;
                  AssistantEcho completion] ++ toolResults;
     tools := None |}.

End DurableOpenAiAgentOrchestratorHttp.

Module TurnSamples.
Import Js Tool OpenAI Http Samples AgentSamples DurableOpenAiAgentOrchestrator.

(** The answers of [sampleModel] to the question about the square. *)
Definition squareCall : ToolCall :=
  {| call_id := "call-1"; call_name := "calculateSquare"; call_arguments := nineText |}.

Definition squareAnswer : AssistantMessage :=
  {| message_content := None; tool_calls := Some [squareCall] |}.

Definition squareReport : AssistantMessage :=
  {| message_content := Some "Result: The square of 9 is 81"; tool_calls := None |}.

(** A model that asks for two tool calls, the second with arguments that
    are not JSON. *)
Definition garbledCall : ToolCall :=
  {| call_id := "call-2"; call_name := "calculateSquare"; call_arguments := "{oops" |}.

Definition garbledAnswer : AssistantMessage :=
  {| message_content := None; tool_calls := Some [squareCall; garbledCall; squareCall] |}.

Definition garbledAgent : Agent :=
  {| openai := fun _ _ => Returned garbledAnswer;
     config := config mathAgent;
     toolRegistry := mathRegistry;
     JSON_ := sampleJSON |}.

(** An agent whose API key is refused. *)
Definition offlineAgent : Agent :=
  {| openai := fun _ _ => Threw (new_Error "401 Incorrect API key provided");
     config := config mathAgent;
     toolRegistry := mathRegistry;
     JSON_ := sampleJSON |}.

Definition squareTurn : OrchestratorInput :=
  {| message := "What is 9 squared?"; sessionId := "s1" |}.

End TurnSamples.

(* ================================================================== *)
(** * The human-in-the-loop wrapper: pending approvals and the approval
      endpoint *)
(* ================================================================== *)

Module HumanInLoopDurableAgentWrapperHttp.
Import Js Tool OpenAI Http HumanInLoopDurableAgentWrapper.

(** [getPendingApprovals()]: the entries of the in-memory map whose status
    is ['pending'], in the order of the map. *)
Definition getPendingApprovals (w : World) : list (string * StoredApproval) :=
  filter (fun entry => sa_status entry.2 = pending) (approvalMap w).

(** The id that [requestHumanApproval] builds:
    [`approval-${sessionId}-${toolName}-${Date.now()}`]. *)
Definition approvalIdOf (session tool : string) (stamp : Instant) : string :=
  "approval-" +:+ session +:+ "-" +:+ tool +:+ "-" +:+ pretty stamp.

(** Operations executed one after the other on the entity of one session. *)
Definition deliver (ops : list Operation) (stored : option ConversationState) (h : Host)
  : option ConversationState * Host :=
  foldl (fun sh op =>
           let '(_, stored', h') := createConversationEntity op sh.1 sh.2 in
           (stored', h'))
        (stored, h) ops.

(** ** The approval endpoint *)

(** [request.method]; the function is registered for GET and POST. *)
Inductive Method := GET | POST | OtherMethod.

(** The input of [client.signalEntity(entityId, 'handleApproval', ...)],
    with the values as the request body gave them. *)
Record Signal := {
  signal_sessionId : string;
  signal_approvalId : JsValue;
  signal_decision : Decision;
  signal_humanResponse : JsValue
}.

(** [['approved', 'rejected'].includes(decision)]. *)
Definition decisionOf (v : JsValue) : option Decision :=
  match v with
  | JStr s =>
      if String.eqb s "approved" then Some decide_approved
      else if String.eqb s "rejected" then Some decide_rejected
      else None
  | _ => None
  end.

Definition decisionText (d : Decision) : string :=
  match d with
  | decide_approved => "approved"
  | decide_rejected => "rejected"
  end.

(** [const { approvalId, decision, humanResponse } = body]: destructuring
    [null] or [undefined] throws a [TypeError]. *)
Definition destructure (body : JsValue) : Completion (JsValue * JsValue * JsValue) :=
  match body with
  | JUndefined =>
      Threw (ThrowError "TypeError"
               "Cannot destructure property 'approvalId' of 'body' as it is undefined.")
  | JNull =>
      Threw (ThrowError "TypeError"
               "Cannot destructure property 'approvalId' of 'body' as it is null.")
  | _ =>
      Returned (getOptional body "approvalId", getOptional body "decision",
                getOptional body "humanResponse")
  end.

(** The fields of the JSON body of the approval endpoint that are
    modelled ([timestamp] and [processingTimeMs] are left out). *)
Record ApprovalResponse := {
  approval_status : Z;
  approval_success : bool;
  approval_error : option string;
  approval_message : option string;
  approval_sessionId : option string;
  approval_approvals : option (list HumanApprovalRequest);
  approval_approvalId : option JsValue;
  approval_decision : option Decision
}.

Definition refused (status : Z) (error : string) : ApprovalResponse :=
  {| approval_status := status; approval_success := false;
     approval_error := Some error; approval_message := None;
     approval_sessionId := None; approval_approvals := None;
     approval_approvalId := None; approval_decision := None |}.

(** The handler of [createApprovalEndpoint]: the response and the signals
    it asked the durable client to send. *)
Definition createApprovalEndpoint
    (readEntityState : string -> Completion (option ConversationState))
    (signalEntity : Signal -> Completion unit)
    (method : Method) (request : HttpRequest)
  : ApprovalResponse * list Signal :=
  let sessionId := default EmptyString (params_sessionId request) in
  if isEmpty sessionId then (refused 400 "sessionId is required", [])
  else
    match method with
    | GET =>
        match readEntityState sessionId with
        | Threw error => (refused 500 (String_of_thrown error), [])
        | Returned stateResponse =>
            let approvals :=
              match stateResponse with
              | Some state => filter isPending (pendingApprovals state)
              | None => []
              end in
            ({| approval_status := 200; approval_success := true;
                approval_error := None; approval_message := None;
                approval_sessionId := Some sessionId;
                approval_approvals := Some approvals;
                approval_approvalId := None; approval_decision := None |},
             [])
        end
    | POST =>
        match bind (json request) destructure with
        | Threw error => (refused 500 (String_of_thrown error), [])
        | Returned (approvalId, decision, humanResponse) =>
            match (if truthy approvalId && truthy decision
                   then decisionOf decision else None) with
            | None =>
                (refused 400 "approvalId and decision (approved/rejected) are required",
                 [])
            | Some d =>
                let signal :=
                  {| signal_sessionId := sessionId; signal_approvalId := approvalId;
                     signal_decision := d; signal_humanResponse := humanResponse |} in
                match signalEntity signal with
                | Threw error => (refused 500 (String_of_thrown error), [signal])
                | Returned _ =>
                    ({| approval_status := 200; approval_success := true;
                        approval_error := None;
                        approval_message := Some ("Approval " +:+ decisionText d);
                        approval_sessionId := Some sessionId;
                        approval_approvals := None;
                        approval_approvalId := Some approvalId;
                        approval_decision := Some d |},
                     [signal])
                end
            end
        end
    | OtherMethod =>
        (refused 405
           "Method not allowed. Use GET to retrieve approvals or POST to handle approvals.",
         [])
    end.

(** The entity operation that a signal amounts to when its values have
    the types the entity expects ([approvalId: string],
    [humanResponse?: string]). *)
Definition operationOf (signal : Signal) : option Operation :=
  match signal_approvalId signal, signal_humanResponse signal with
  | JStr approvalId, JStr response =>
      Some (handleApproval approvalId (signal_decision signal) (Some response))
  | JStr approvalId, JUndefined =>
      Some (handleApproval approvalId (signal_decision signal) None)
  | _, _ => None
  end.

(** What a GET on the approval endpoint lists for a stored state. *)
Definition listed (stored : option ConversationState) : list HumanApprovalRequest :=
  match stored with
  | Some state => filter isPending (pendingApprovals state)
  | None => []
  end.

End HumanInLoopDurableAgentWrapperHttp.

(* ================================================================== *)
(** * The human-in-the-loop orchestrator: endpoints and turn outcomes *)
(* ================================================================== *)

Module HumanInLoopDurableAgentOrchestratorHttp.
Import Js Tool OpenAI Http HumanInLoopDurableAgentOrchestrator.

(** ** Reading a turn *)

(** What a message says and who says it, without its timestamp. *)
Definition said (m : ChatMessage) : Role * string := (role m, content m).

(** The chat history of the entity of the session of the turn. *)
Definition history (w : World) : list ChatMessage :=
  default [] (chatHistory <$> store w).

(** Surroundings in which the only operations that arrive are decisions
    ([handleApproval], which is what the approval endpoint signals). *)
Definition isDecision (op : Operation) : Prop :=
  match op with
  | handleApproval _ _ _ => True
  | _ => False
  end.

Definition decisionsOnly (w : World) : Prop :=
  Forall (fun tick => Forall isDecision (arrivals tick)) (environment w).

(** What an approval request asks for: everything but its timestamp, its
    status and the decision. *)
Definition asked (a : HumanApprovalRequest) : string * string * JsValue * string :=
  (sessionId a, toolName a, toolArgs a, reasoning a).

(** The requests that a sequence of operations files. *)
Definition filed (ops : list Operation) : list (string * string * JsValue * string) :=
  omap (fun op =>
          match op with
          | addApprovalRequest session tool args why => Some (session, tool, args, why)
          | _ => None
          end) ops.

(** From [w] to [w'] the history says the same, an existing entity still
    exists, and the surroundings still deliver decisions only. *)
Definition steady (w w' : World) : Prop :=
  decisionsOnly w'
  ∧ said <$> history w' = said <$> history w
  ∧ (is_Some (store w) → is_Some (store w'))
  ∧ api_calls w' = api_calls w.

(** The text that the [ExecuteTool] activity returns for a call. *)
Definition toolText (this : Agent) (toolCall : ToolCall) : option string :=
  match argumentsOf this toolCall with
  | Returned toolArgs =>
      match (executeTool (toolRegistry this) (call_name toolCall) toolArgs).2 with
      | Returned text => Some text
      | Threw _ => None
      end
  | Threw _ => None
  end.

(** The handler calls that the [ExecuteTool] activity makes for a call. *)
Definition toolInvocations (this : Agent) (toolCall : ToolCall) : list Invocation :=
  match argumentsOf this toolCall with
  | Returned toolArgs =>
      (executeTool (toolRegistry this) (call_name toolCall) toolArgs).1
  | Threw _ => []
  end.

(** ** The chat endpoint *)

(** The input handed to [client.startNew] by this class's chat endpoint. *)
Record TimedStartInput := {
  timed_orchestrator : string;
  timed_message : JsValue;
  timed_sessionId : JsValue;
  timed_approvalTimeoutMinutes : JsValue
}.

Record DurableClient := {
  startNew : TimedStartInput -> Completion string;
  getStatus : string -> Completion (option OrchestratorOutput)
}.

(** The fields of the JSON response that are modelled; [timestamp],
    [processingTimeMs] and the endpoint URLs are left out. *)
Record ChatResponse := {
  chat_status : Z;
  chat_success : bool;
  chat_message : option string;
  chat_error : option string;
  chat_sessionId : option JsValue;
  chat_requiresApproval : option bool;
  chat_toolName : option string;
  chat_toolArgs : option JsValue;
  chat_approvalTimeoutMinutes : option JsValue
}.

Definition chatFailed (error : Thrown) : ChatResponse :=
  {| chat_status := 500; chat_success := false; chat_message := None;
     chat_error := Some (String_of_thrown error); chat_sessionId := None;
     chat_requiresApproval := None; chat_toolName := None; chat_toolArgs := None;
     chat_approvalTimeoutMinutes := None |}.

(** [output && output.requiresApproval && output.sessionId]. *)
Definition asksForApproval (output : option OrchestratorOutput) : bool :=
  match output with
  | Some out =>
      requiresApproval out
      && negb (isEmpty (default EmptyString (out_sessionId out)))
  | None => false
  end.

(** The handler of [createChatEndpoint]: the response, the orchestrations
    it asked the client to start, and the host.  The five seconds that the
    handler waits before it asks for the status are not modelled. *)
Definition createChatEndpoint (this : Agent) (client : DurableClient)
    (request : HttpRequest) (h : Host)
  : ChatResponse * list TimedStartInput * Host :=
  match json request with
  | Threw error => (chatFailed error, [], h)
  | Returned body =>
      let message := messageOf body in
      let (session, h1) := sessionOf body (params_sessionId request) h in
      match substring_check message with
      | Threw error => (chatFailed error, [], h1)
      | Returned _ =>
          let approvalTimeoutMinutes :=
            or_else (getOptional body "approvalTimeoutMinutes") (JNum 30) in
          let input :=
            {| timed_orchestrator :=
                 AgentNames.orchestratorName (agentName (config this));
               timed_message := message;
               timed_sessionId := session;
               timed_approvalTimeoutMinutes := approvalTimeoutMinutes |} in
          match startNew client input with
          | Threw error => (chatFailed error, [input], h1)
          | Returned instanceId =>
              match getStatus client instanceId with
              | Threw error => (chatFailed error, [input], h1)
              | Returned output =>
                  if asksForApproval output then
                    ({| chat_status := 200; chat_success := true;
                        chat_message :=
                          Some "Human approval required for this operation.";
                        chat_error := None;
                        chat_sessionId := Some session;
                        chat_requiresApproval := Some true;
                        chat_toolName := output ≫= out_toolName;
                        chat_toolArgs := output ≫= out_toolArgs;
                        chat_approvalTimeoutMinutes := Some approvalTimeoutMinutes |},
                     [input], h1)
                  else
                    ({| chat_status := 202; chat_success := true;
                        chat_message := Some "Chat processing started.";
                        chat_error := None;
                        chat_sessionId := Some session;
                        chat_requiresApproval := Some false;
                        chat_toolName := None; chat_toolArgs := None;
                        chat_approvalTimeoutMinutes := Some approvalTimeoutMinutes |},
                     [input], h1)
              end
          end
      end
  end.

(** The orchestrator input that a start input amounts to when its values
    have the types the orchestrator expects. *)
Definition inputOf (input : TimedStartInput) : option OrchestratorInput :=
  match timed_message input, timed_sessionId input,
        timed_approvalTimeoutMinutes input with
  | JStr message, JStr session, JNum minutes =>
      Some {| input_message := message; input_sessionId := session;
              approvalTimeoutMinutes := Some minutes |}
  | _, _, _ => None
  end.

(** ** The approval endpoint ([createApprovalBySessionEndpoint]) *)

(** The input of [client.signalEntity(entityId, 'handleApproval', ...)]. *)
Record SessionSignal := {
  ss_sessionId : string;
  ss_decision : Decision;
  ss_humanResponse : JsValue
}.

Record ApproveResponse := {
  approve_status : Z;
  approve_success : bool;
  approve_error : option string;
  approve_message : option string;
  approve_sessionId : option string;
  approve_approved : option bool;
  approve_feedback : option JsValue
}.

Definition approveRefused (status : Z) (error : string) : ApproveResponse :=
  {| approve_status := status; approve_success := false;
     approve_error := Some error; approve_message := None;
     approve_sessionId := None; approve_approved := None;
     approve_feedback := None |}.

(** [const { approved, feedback } = body]. *)
Definition destructure (body : JsValue) : Completion (JsValue * JsValue) :=
  match body with
  | JUndefined =>
      Threw (ThrowError "TypeError"
               "Cannot destructure property 'approved' of 'body' as it is undefined.")
  | JNull =>
      Threw (ThrowError "TypeError"
               "Cannot destructure property 'approved' of 'body' as it is null.")
  | _ => Returned (getOptional body "approved", getOptional body "feedback")
  end.

(** The handler of [createApprovalBySessionEndpoint]: the response and
    the signals it asked the durable client to send. *)
Definition createApprovalBySessionEndpoint
    (signalEntity : SessionSignal -> Completion unit) (request : HttpRequest)
  : ApproveResponse * list SessionSignal :=
  let sessionId := default EmptyString (params_sessionId request) in
  if isEmpty sessionId then (approveRefused 400 "sessionId is required", [])
  else
    match bind (json request) destructure with
    | Threw error => (approveRefused 500 (String_of_thrown error), [])
    | Returned (JBool isApproved, feedback) =>
        let signal :=
          {| ss_sessionId := sessionId;
             ss_decision := if isApproved then decide_approved else decide_rejected;
             ss_humanResponse := or_else feedback (JStr EmptyString) |} in
        match signalEntity signal with
        | Threw error => (approveRefused 500 (String_of_thrown error), [signal])
        | Returned _ =>
            ({| approve_status := 200; approve_success := true;
                approve_error := None;
                approve_message := Some "Human approval stored for session.";
                approve_sessionId := Some sessionId;
                approve_approved := Some isApproved;
                approve_feedback := Some (or_else feedback (JStr EmptyString)) |},
             [signal])
        end
    | Returned _ => (approveRefused 400 "approved field must be true or false", [])
    end.

(** The entity operation that a signal amounts to when its response is a
    string, as the entity expects. *)
Definition operationOf (signal : SessionSignal) : option Operation :=
  match ss_humanResponse signal with
  | JStr response =>
      Some (handleApproval (ss_sessionId signal) (ss_decision signal) (Some response))
  | _ => None
  end.

(** ** The status endpoint ([createSessionStatusEndpoint]) *)

Record StatusResponse := {
  status_status : Z;
  status_success : bool;
  status_error : option string;
  status_sessionId : option string;
  status_entityState : option ConversationState
}.

Definition createSessionStatusEndpoint
    (readEntityState : string -> Completion (option ConversationState))
    (params_sessionId : option string) : StatusResponse :=
  let sessionId := default EmptyString params_sessionId in
  if isEmpty sessionId then
    {| status_status := 400; status_success := false;
       status_error := Some "sessionId is required";
       status_sessionId := None; status_entityState := None |}
  else
    match readEntityState sessionId with
    | Threw error =>
        {| status_status := 500; status_success := false;
           status_error := Some (String_of_thrown error);
           status_sessionId := None; status_entityState := None |}
    | Returned None =>
        {| status_status := 404; status_success := false;
           status_error := Some "Session not found";
           status_sessionId := Some sessionId; status_entityState := None |}
    | Returned (Some state) =>
        {| status_status := 200; status_success := true; status_error := None;
           status_sessionId := Some sessionId; status_entityState := Some state |}
    end.

End HumanInLoopDurableAgentOrchestratorHttp.

(* ================================================================== *)
(** * The function app of the human-in-the-loop wrapper *)
(* ================================================================== *)

Module HumanInLoopFunctionApp.
Import Js Tool OpenAI Http HumanInLoopDurableAgentWrapper.
Import HumanInLoopDurableAgentWrapperHttp.

(** The app creates three agents; its approval API looks them up in this
    order and names them by these labels. *)
Inductive AgentLabel := Financial | Data | Communication.

Global Instance AgentLabel_eq_dec : EqDecision AgentLabel.
Proof. solve_decision. Defined.

Record App := {
  financialAgent : Agent;
  dataAgent : Agent;
  communicationAgent : Agent
}.

(** What the three instances hold (their in-memory approvals among it),
    each with the clock readings that it will make. *)
Record AppState := {
  financialWorld : World;
  dataWorld : World;
  communicationWorld : World
}.

Definition agentOf (app : App) (label : AgentLabel) : Agent :=
  match label with
  | Financial => financialAgent app
  | Data => dataAgent app
  | Communication => communicationAgent app
  end.

Definition worldOf (s : AppState) (label : AgentLabel) : World :=
  match label with
  | Financial => financialWorld s
  | Data => dataWorld s
  | Communication => communicationWorld s
  end.

(** The first agent, in the order of the app, that holds an approval. *)
Definition holder (approvalId : string) (s : AppState) : option AgentLabel :=
  head (filter (fun label =>
                  is_Some (getPendingApproval approvalId (worldOf s label)))
               [Financial; Data; Communication]).

(** ** [GET approvals/pending] *)

Record PendingResponse := {
  pending_status : Z;
  pending_count : nat;
  pending_approvals : list (string * StoredApproval * AgentLabel)
}.

Definition labelled (label : AgentLabel) (w : World)
  : list (string * StoredApproval * AgentLabel) :=
  (fun a => (a.1, a.2, label)) <$> getPendingApprovals w.

Definition getPendingApprovalsEndpoint (s : AppState) : PendingResponse :=
  let allPendingApprovals :=
    labelled Financial (financialWorld s)
    ++ labelled Data (dataWorld s)
    ++ labelled Communication (communicationWorld s) in
  {| pending_status := 200;
     pending_count := length allPendingApprovals;
     pending_approvals := allPendingApprovals |}.

(** ** [POST approval/{approvalId}] *)

Record DecisionResponse := {
  decision_status : Z;
  decision_error : option string;
  decision_message : option string;
  decision_approvalId : option string;
  decision_approved : option bool;
  decision_agent : option AgentLabel;
  decision_feedback : option JsValue
}.

Definition decisionRefused (status : Z) (error : string) : DecisionResponse :=
  {| decision_status := status; decision_error := Some error;
     decision_message := None; decision_approvalId := None;
     decision_approved := None; decision_agent := None;
     decision_feedback := None |}.

Definition decisionMade (approvalId : string) (isApproved : bool)
    (label : AgentLabel) (feedback : JsValue) : DecisionResponse :=
  {| decision_status := 200; decision_error := None;
     decision_message :=
       Some ("Approval " +:+ (if isApproved then "granted" else "rejected"));
     decision_approvalId := Some approvalId;
     decision_approved := Some isApproved;
     decision_agent := Some label;
     decision_feedback := Some (or_else feedback (JStr EmptyString)) |}.

(** [body.feedback] as the parameter [feedback?: string] of
    [processApprovalDecision]: a string or absent.  Other values are
    outside this view. *)
Definition feedbackOf (v : JsValue) : option (option string) :=
  match v with
  | JStr text => Some (Some text)
  | JUndefined => Some None
  | _ => None
  end.

(** The handler of [processApproval]: the response and the state of the
    agents afterwards; [None] for a body whose [feedback] is neither a
    string nor absent. *)
Definition processApproval (app : App) (params_approvalId : option string)
    (json : Completion JsValue) (s : AppState)
  : option (DecisionResponse * AppState) :=
  let approvalId := default EmptyString params_approvalId in
  let failed := decisionRefused 500 "Failed to process approval" in
  match json with
  | Threw _ => Some (failed, s)
  | Returned body =>
      if isEmpty approvalId then
        Some (decisionRefused 400 "approvalId is required", s)
      else
        match getProperty body "approved" with
        | Threw _ => Some (failed, s)
        | Returned (JBool isApproved) =>
            match feedbackOf (getOptional body "feedback") with
            | None => None
            | Some feedback =>
                let (w1, r1) :=
                  processApprovalDecision (financialAgent app) approvalId
                    isApproved feedback (financialWorld s) in
                let s1 := {| financialWorld := w1; dataWorld := dataWorld s;
                             communicationWorld := communicationWorld s |} in
                match r1 with
                | Threw _ => Some (failed, s1)
                | Returned true =>
                    Some (decisionMade approvalId isApproved Financial
                            (getOptional body "feedback"), s1)
                | Returned false =>
                    let (w2, r2) :=
                      processApprovalDecision (dataAgent app) approvalId
                        isApproved feedback (dataWorld s1) in
                    let s2 := {| financialWorld := financialWorld s1;
                                 dataWorld := w2;
                                 communicationWorld := communicationWorld s1 |} in
                    match r2 with
                    | Threw _ => Some (failed, s2)
                    | Returned true =>
                        Some (decisionMade approvalId isApproved Data
                                (getOptional body "feedback"), s2)
                    | Returned false =>
                        let (w3, r3) :=
                          processApprovalDecision (communicationAgent app)
                            approvalId isApproved feedback
                            (communicationWorld s2) in
                        let s3 := {| financialWorld := financialWorld s2;
                                     dataWorld := dataWorld s2;
                                     communicationWorld := w3 |} in
                        match r3 with
                        | Threw _ => Some (failed, s3)
                        | Returned true =>
                            Some (decisionMade approvalId isApproved Communication
                                    (getOptional body "feedback"), s3)
                        | Returned false =>
                            Some (decisionRefused 404
                                    ("Approval " +:+ approvalId
                                     +:+ " not found or already processed"),
                                  s3)
                        end
                    end
                end
            end
        | Returned _ =>
            Some (decisionRefused 400 "approved field must be true or false", s)
        end
  end.

(** ** [GET approval/{approvalId}/status] *)

Record ApprovalStatusResponse := {
  as_status : Z;
  as_error : option string;
  as_approvalId : option string;
  as_agent : option AgentLabel;
  as_approvalStatus : option Status;
  as_toolName : option string;
  as_toolArgs : option JsValue;
  as_reasoning : option string;
  as_sessionId : option string;
  as_timestamp : option Instant;
  as_decidedAt : option Instant;
  as_feedback : option string
}.

Definition statusRefused (status : Z) (error : string) : ApprovalStatusResponse :=
  {| as_status := status; as_error := Some error; as_approvalId := None;
     as_agent := None; as_approvalStatus := None; as_toolName := None;
     as_toolArgs := None; as_reasoning := None; as_sessionId := None;
     as_timestamp := None; as_decidedAt := None; as_feedback := None |}.

Definition getApprovalStatus (params_approvalId : option string) (s : AppState)
  : ApprovalStatusResponse :=
  let approvalId := default EmptyString params_approvalId in
  if isEmpty approvalId then statusRefused 400 "approvalId is required"
  else
    let found :=
      match getPendingApproval approvalId (financialWorld s) with
      | Some approval => Some (approval, Financial)
      | None =>
          match getPendingApproval approvalId (dataWorld s) with
          | Some approval => Some (approval, Data)
          | None =>
              match getPendingApproval approvalId (communicationWorld s) with
              | Some approval => Some (approval, Communication)
              | None => None
              end
          end
      end in
    match found with
    | None => statusRefused 404 ("Approval " +:+ approvalId +:+ " not found")
    | Some (approval, agent) =>
        {| as_status := 200; as_error := None;
           as_approvalId := Some approvalId;
           as_agent := Some agent;
           as_approvalStatus := Some (sa_status approval);
           as_toolName := Some (sa_toolName approval);
           as_toolArgs := Some (sa_toolArgs approval);
           as_reasoning := Some (sa_reasoning approval);
           as_sessionId := Some (sa_sessionId approval);
           as_timestamp := Some (sa_timestamp approval);
           as_decidedAt := sa_decidedAt approval;
           as_feedback := sa_feedback approval |}
    end.

End HumanInLoopFunctionApp.

(* ================================================================== *)
(** * Facts about insertion-ordered maps *)
(* ================================================================== *)

Module MapFacts.
Import Js.

Lemma Map_get_set_eq {V} k (v : V) m : Map_get k (Map_set k v m) = Some v.
Proof.
  induction m as [|[k' v'] m IH]; simpl.
  - by rewrite String.eqb_refl.
  - destruct (String.eqb k k') eqn:E; simpl; by rewrite ?String.eqb_refl, ?E.
Qed.

Lemma Map_get_set_ne {V} k k' (v : V) m :
  k ≠ k' → Map_get k' (Map_set k v m) = Map_get k' m.
Proof.
  intros Hne. induction m as [|[k0 v0] m IH]; simpl.
  - destruct (String.eqb_spec k' k); congruence.
  - destruct (String.eqb_spec k k0) as [->|Hk]; simpl.
    + destruct (String.eqb_spec k' k0); congruence.
    + destruct (String.eqb_spec k' k0); congruence.
Qed.

Lemma Map_get_None {V} k (m : list (string * V)) :
  Map_get k m = None ↔ k ∉ Map_keys m.
Proof.
  unfold Map_keys. induction m as [|[k' v'] m IH]; simpl.
  - split; [intros _; apply not_elem_of_nil | done].
  - rewrite not_elem_of_cons. destruct (String.eqb_spec k k') as [->|Hne].
    + split; [done | intros [? _]; congruence].
    + rewrite IH. tauto.
Qed.

Lemma Map_get_Some_elem {V} k (v : V) m : Map_get k m = Some v → (k, v) ∈ m.
Proof.
  induction m as [|[k' v'] m IH]; simpl; [done|].
  destruct (String.eqb_spec k k') as [->|Hne].
  - intros [= ->]. left.
  - intros H. right. by apply IH.
Qed.

Lemma Map_get_NoDup {V} k (v : V) m :
  NoDup (Map_keys m) → (k, v) ∈ m → Map_get k m = Some v.
Proof.
  unfold Map_keys. induction m as [|[k' v'] m IH]; simpl.
  - intros _ H. by apply elem_of_nil in H.
  - rewrite NoDup_cons. intros [Hk Hnd] Hin.
    apply elem_of_cons in Hin as [[= -> ->]|Hin].
    + by rewrite String.eqb_refl.
    + destruct (String.eqb_spec k k') as [->|Hne]; [|by apply IH].
      exfalso. apply Hk. apply list_elem_of_fmap. by exists (k', v).
Qed.

Lemma Map_keys_set {V} k (v : V) m :
  Map_keys (Map_set k v m) =
  if decide (k ∈ Map_keys m) then Map_keys m else Map_keys m ++ [k].
Proof.
  unfold Map_keys. induction m as [|[k' v'] m IH].
  - destruct (decide (k ∈ ([] : list (string * V)).*1)) as [Hin|_]; [|done].
    by apply elem_of_nil in Hin.
  - cbn [Map_set fmap list_fmap fst].
    destruct (String.eqb_spec k k') as [->|Hne].
    + destruct (decide (k' ∈ k' :: m.*1)) as [_|Hn]; [done|].
      exfalso. apply Hn. left.
    + cbn [fmap list_fmap fst]. rewrite IH.
      destruct (decide (k ∈ m.*1)) as [Hin|Hin];
        destruct (decide (k ∈ k' :: m.*1)) as [Hin'|Hin']; try done.
      * exfalso. apply Hin'. by right.
      * apply elem_of_cons in Hin' as [?|?]; done.
Qed.

Lemma Map_set_NoDup {V} k (v : V) m :
  NoDup (Map_keys m) → NoDup (Map_keys (Map_set k v m)).
Proof.
  intros Hnd. rewrite Map_keys_set. case_decide; [done|].
  apply NoDup_app. split_and!; [done | | apply NoDup_singleton].
  intros x Hx Hx'. apply list_elem_of_singleton in Hx'. by subst.
Qed.

(** Setting fresh keys one after the other is a plain [map]. *)
Lemma foldl_Map_set_fresh {A V} (key : A → string) (val : A → V) (l : list A) acc :
  NoDup (Map_keys acc ++ (key <$> l)) →
  foldl (fun m x => Map_set (key x) (val x) m) acc l
  = acc ++ ((fun x => (key x, val x)) <$> l).
Proof.
  revert acc. induction l as [|x l IH]; intros acc Hnd; simpl.
  - by rewrite app_nil_r.
  - assert (Hfresh : key x ∉ Map_keys acc).
    { apply NoDup_app in Hnd as (_ & Hd & _). intros Hin.
      apply (Hd _ Hin). left. }
    assert (Hset : Map_set (key x) (val x) acc = acc ++ [(key x, val x)]).
    { clear -Hfresh. unfold Map_keys in Hfresh.
      induction acc as [|[k' v'] acc IHa]; simpl; [done|].
      simpl in Hfresh. apply not_elem_of_cons in Hfresh as [Hne Hfresh].
      destruct (String.eqb_spec (key x) k'); [done|]. by rewrite IHa. }
    rewrite Hset, IH.
    + by rewrite <- app_assoc.
    + unfold Map_keys in *. rewrite fmap_app. simpl. rewrite <- app_assoc. done.
Qed.

End MapFacts.

(* ================================================================== *)
(** * The tool registry *)
(* ================================================================== *)

Module ToolFacts.
Import Js Tool ToolSpec MapFacts.

Lemma mapM_getProperty_obj props (names : list string) :
  mapM (getProperty (JObj props)) names
  = Returned ((fun p => default JUndefined (Map_get p props)) <$> names).
Proof.
  induction names as [|p names IH]; simpl; [done|]. by rewrite IH.
Qed.

Lemma Map_get_Permutation {V} (m m' : list (string * V)) k :
  NoDup (Map_keys m) → m' ≡ₚ m → Map_get k m' = Map_get k m.
Proof.
  intros Hnd Hp.
  assert (Hnd' : NoDup (Map_keys m')).
  { unfold Map_keys in *. by rewrite Hp. }
  destruct (Map_get k m) as [v|] eqn:E.
  - apply Map_get_NoDup; [done|]. rewrite Hp. by apply Map_get_Some_elem.
  - apply Map_get_None. apply Map_get_None in E.
    unfold Map_keys in *. by rewrite Hp.
Qed.

Lemma executeTool_calls_obj reg toolName tool props :
  Map_get toolName reg = Some tool →
  (executeTool reg toolName (JObj props)).1
  = [{| inv_tool := toolName;
        inv_args := (fun p => default JUndefined (Map_get p props))
                      <$> Object_keys (parameters tool) |}].
Proof.
  intros Hget. unfold executeTool, argArray.
  rewrite Hget, mapM_getProperty_obj.
  by destruct (handler tool _).
Qed.

(** C2.  When the executor of a registered tool throws, [executeTool]
    catches the failure and returns the text
    ["Error executing <name>: "] followed by the thrown value rendered as
    a string; [executeTool] itself throws only when the name is absent from
    the registry, and then it throws the not-found error. *)
Theorem executeTool_contains_executor_failure
    (reg : ToolRegistry) (toolName : string) (args : JsValue) :
  (∀ tool argv e,
      Map_get toolName reg = Some tool →
      argArray tool args = Returned argv →
      handler tool argv = Threw e →
      (executeTool reg toolName args).2
      = Returned ("Error executing " +:+ toolName +:+ ": " +:+ String_of_thrown e))
  ∧ (∀ e, (executeTool reg toolName args).2 = Threw e
          ↔ hasTool reg toolName = false ∧ e = notFound toolName).
Proof.
  split.
  - intros tool argv e Hget Hargs Hthrow.
    unfold executeTool. by rewrite Hget, Hargs, Hthrow.
  - intros e. unfold executeTool, hasTool, Map_has.
    destruct (Map_get toolName reg) as [tool|]; simpl.
    + destruct (argArray tool args) as [argv|err]; simpl.
      * destruct (handler tool argv); simpl; split; intros H;
          try discriminate; destruct H; discriminate.
      * split; intros H; try discriminate; destruct H; discriminate.
    + split; [intros [= <-]; done | intros [_ ->]; done].
Qed.

Lemma executeTool_contains_executor_failure_witness :
  (executeTool sample_registry "broken" (JObj [("x", JStr "hi")])).2
  = Returned "Error executing broken: Error: boom".
Proof.
  apply (proj1 (executeTool_contains_executor_failure
                  sample_registry "broken" (JObj [("x", JStr "hi")]))
           broken_tool [JStr "hi"] (new_Error "boom"));
    reflexivity.
Defined.

(** C3.  For a registered tool and an argument object, [executeTool]
    applies the executor once, to one positional argument per declared
    parameter, in the order of the keys of the tool's [parameters] record:
    what [executeTool] returns is what the executor returns on exactly
    that list (its error text when the executor throws).  Each value is
    the argument object's property of that name, or [undefined] when the
    object has none.  The order in which the argument object lists its
    properties is irrelevant.  For parameters [a, b] and arguments
    [{b: 2, a: 1}] the executor is applied to [(1, 2)]. *)
Theorem executeTool_arguments_in_declaration_order
    (reg : ToolRegistry) (toolName : string) (tool : ToolDefinition)
    (props : list (string * JsValue)) :
  Map_get toolName reg = Some tool →
  let argv := (fun p => default JUndefined (Map_get p props))
                <$> Object_keys (parameters tool) in
  let applied (args : list JsValue) :=
    ([{| inv_tool := toolName; inv_args := args |}],
     match handler tool args with
     | Returned result => Returned result
     | Threw error => Returned (errorText toolName error)
     end) in
  executeTool reg toolName (JObj props) = applied argv
  ∧ (∀ i p, Object_keys (parameters tool) !! i = Some p →
            argv !! i = Some (default JUndefined (Map_get p props)))
  ∧ (∀ i p, Object_keys (parameters tool) !! i = Some p →
            p ∉ Object_keys props → argv !! i = Some JUndefined)
  ∧ (∀ props', NoDup (Object_keys props) → props' ≡ₚ props →
               executeTool reg toolName (JObj props') = applied argv)
  ∧ (Object_keys (parameters tool) = ["a"; "b"] →
     executeTool reg toolName (JObj [("b", JNum 2); ("a", JNum 1)])
     = applied [JNum 1; JNum 2]).
Proof.
  intros Hget argv applied.
  assert (Hrun : ∀ props0,
            executeTool reg toolName (JObj props0)
            = applied ((fun p => default JUndefined (Map_get p props0))
                         <$> Object_keys (parameters tool))).
  { intros props0. unfold executeTool, argArray, applied.
    rewrite Hget, mapM_getProperty_obj. by destruct (handler tool _). }
  split_and!.
  - apply Hrun.
  - intros i p Hi. unfold argv. by rewrite list_lookup_fmap, Hi.
  - intros i p Hi Hp. unfold argv. rewrite list_lookup_fmap, Hi. simpl.
    apply Map_get_None in Hp. by rewrite Hp.
  - intros props' Hnd Hperm. rewrite Hrun. f_equal.
    unfold argv. apply list_fmap_ext. intros _ p _.
    by rewrite (Map_get_Permutation props props' p Hnd Hperm).
  - intros Hkeys. rewrite Hrun. by rewrite Hkeys.
Qed.

Lemma executeTool_arguments_in_declaration_order_witness :
  executeTool sample_registry "pair" (JObj [("b", JNum 2); ("a", JNum 1)])
  = ([{| inv_tool := "pair"; inv_args := [JNum 1; JNum 2] |}], Returned "1;2;")
  ∧ executeTool sample_registry "pair" (JObj [("b", JNum 2)])
    = ([{| inv_tool := "pair"; inv_args := [JUndefined; JNum 2] |}],
       Returned "undefined;2;").
Proof.
  split.
  - destruct (executeTool_arguments_in_declaration_order
                sample_registry "pair" pair_tool [("b", JNum 2); ("a", JNum 1)])
      as [Hrun _]; [reflexivity|]. exact Hrun.
  - destruct (executeTool_arguments_in_declaration_order
                sample_registry "pair" pair_tool [("b", JNum 2)])
      as [Hrun _]; [reflexivity|]. exact Hrun.
Defined.

(** ** Registration and the schema *)

Lemma registerAll_keys (defs : list ToolDefinition) (acc : ToolRegistry) :
  Map_keys (foldl (fun reg d => registerTool d reg) acc defs)
  = foldl (fun (seen : list string) (n : string) =>
             if decide (n ∈ seen) then seen else seen ++ [n])
          (Map_keys acc) (name <$> defs).
Proof.
  revert acc. induction defs as [|d defs IH]; intros acc; simpl; [done|].
  rewrite IH. unfold registerTool. by rewrite Map_keys_set.
Qed.

Lemma registerAll_NoDup (defs : list ToolDefinition) (acc : ToolRegistry) :
  NoDup (Map_keys acc) →
  NoDup (Map_keys (foldl (fun reg d => registerTool d reg) acc defs)).
Proof.
  revert acc. induction defs as [|d defs IH]; intros acc Hnd; simpl; [done|].
  apply IH. by apply Map_set_NoDup.
Qed.

Lemma lastDefinition_cons n d defs :
  lastDefinition n (d :: defs)
  = match lastDefinition n defs with
    | Some d' => Some d'
    | None => if decide (name d = n) then Some d else None
    end.
Proof.
  unfold lastDefinition. rewrite filter_cons.
  destruct (decide (name d = n)) as [Heq|Hne]; [|by destruct (last _)].
  destruct (filter _ defs) as [|x l] eqn:E; [done|].
  change (last (d :: x :: l)) with (last (x :: l)).
  destruct (last (x :: l)) eqn:El; [done|].
  by apply last_None in El.
Qed.

Lemma registerAll_get (defs : list ToolDefinition) (acc : ToolRegistry) n :
  Map_get n (foldl (fun reg d => registerTool d reg) acc defs)
  = match lastDefinition n defs with
    | Some d => Some d
    | None => Map_get n acc
    end.
Proof.
  revert acc. induction defs as [|d defs IH]; intros acc; simpl; [done|].
  rewrite IH, lastDefinition_cons.
  destruct (lastDefinition n defs); [done|].
  unfold registerTool. destruct (decide (name d = n)) as [<-|Hne].
  - apply Map_get_set_eq.
  - by apply Map_get_set_ne.
Qed.

Lemma firstOccurrences_elem_acc (names seen : list string) n :
  n ∈ foldl (fun (seen : list string) (n : string) =>
               if decide (n ∈ seen) then seen else seen ++ [n]) seen names
  ↔ n ∈ seen ∨ n ∈ names.
Proof.
  revert seen. induction names as [|x names IH]; intros seen; simpl.
  - split; [by left | intros [H|H]; [done | by apply elem_of_nil in H]].
  - rewrite IH, elem_of_cons. destruct (decide (x ∈ seen)) as [Hx|Hx].
    + split; [tauto|]. intros [?|[->|?]]; tauto.
    + rewrite elem_of_app, list_elem_of_singleton. tauto.
Qed.

Lemma firstOccurrences_NoDup_acc (names seen : list string) :
  NoDup (seen ++ names) →
  foldl (fun (seen : list string) (n : string) =>
           if decide (n ∈ seen) then seen else seen ++ [n]) seen names
  = seen ++ names.
Proof.
  revert seen. induction names as [|x names IH]; intros seen Hnd; simpl.
  - by rewrite app_nil_r.
  - assert (Hx : x ∉ seen).
    { apply NoDup_app in Hnd as (_ & Hd & _). intros Hin. apply (Hd _ Hin). left. }
    rewrite decide_False by done. rewrite IH.
    + by rewrite <- app_assoc.
    + by rewrite <- app_assoc.
Qed.

Lemma propertiesOf_map (params : list (string * ToolParameter)) :
  NoDup (Object_keys params) →
  propertiesOf params
  = (fun e => (e.1, {| ps_type := type e.2; ps_description := description e.2 |}))
      <$> params.
Proof.
  intros Hnd. unfold propertiesOf, Object_entries.
  by rewrite (foldl_Map_set_fresh fst
                (fun e => {| ps_type := type e.2; ps_description := description e.2 |})).
Qed.

(** C5.  After any sequence of [registerTool] calls, [getOpenAISchema]
    lists exactly the registered names, each once, in the order in which
    they were first registered (registration order when the names are
    distinct); the entry of a name is built from the definition registered
    last under it, and has the shape
    [{ name, description, parameters: { type: object, properties,
    required } }] where [properties] gives each parameter's type and
    description and [required] lists the parameters whose [required] field
    is not [false]. *)
Theorem getOpenAISchema_registration_order (defs : list ToolDefinition) :
  Forall (fun d => NoDup (Object_keys (parameters d))) defs →
  let schema := getOpenAISchema (registerAll defs) in
  schemaNames schema = firstOccurrences (name <$> defs)
  ∧ NoDup (schemaNames schema)
  ∧ (∀ n, n ∈ schemaNames schema ↔ n ∈ name <$> defs)
  ∧ (NoDup (name <$> defs) → schemaNames schema = name <$> defs)
  ∧ (∀ t, t ∈ schema →
       ∃ d, lastDefinition (fn_name (function t)) defs = Some d
            ∧ tool_type t = "function"
            ∧ fn_name (function t) = name d
            ∧ fn_description (function t) = tool_description d
            ∧ schema_type (fn_parameters (function t)) = "object"
            ∧ properties (fn_parameters (function t))
              = (fun e => (e.1, {| ps_type := type e.2;
                                   ps_description := description e.2 |}))
                  <$> parameters d
            ∧ schema_required (fn_parameters (function t))
              = (filter (fun e => required e.2 ≠ Some false) (parameters d)).*1).
Proof.
  intros Hwf schema.
  assert (Hget : ∀ k d, (k, d) ∈ registerAll defs →
                        lastDefinition k defs = Some d ∧ name d = k).
  { intros k d Hin.
    pose proof (registerAll_NoDup defs new_ToolRegistry (NoDup_nil_2)) as Hnd.
    pose proof (Map_get_NoDup k d _ Hnd Hin) as Hk.
    unfold registerAll in Hk. rewrite registerAll_get in Hk.
    destruct (lastDefinition k defs) as [d'|] eqn:El; [|done].
    injection Hk as ->. split; [done|].
    unfold lastDefinition in El. apply last_Some in El as [l' El].
    assert (Hin' : d ∈ filter (fun d0 => name d0 = k) defs).
    { rewrite El. apply elem_of_app. right. left. }
    by apply list_elem_of_filter in Hin' as [? _]. }
  assert (Hnames : schemaNames schema = Map_keys (registerAll defs)).
  { unfold schemaNames, schema, getOpenAISchema, Map_values, Map_keys.
    rewrite <- !list_fmap_compose. apply list_fmap_ext.
    intros i [k d] Hi. simpl. apply list_elem_of_lookup_2 in Hi.
    by destruct (Hget k d Hi). }
  split_and!.
  - rewrite Hnames. unfold registerAll. by rewrite registerAll_keys.
  - rewrite Hnames. apply registerAll_NoDup. apply NoDup_nil_2.
  - intros n. rewrite Hnames. unfold registerAll. rewrite registerAll_keys.
    rewrite firstOccurrences_elem_acc. split; [|by right].
    intros [H|H]; [by apply elem_of_nil in H | done].
  - intros Hnd. rewrite Hnames. unfold registerAll. rewrite registerAll_keys.
    by rewrite firstOccurrences_NoDup_acc.
  - intros t Ht. unfold schema, getOpenAISchema, Map_values in Ht.
    apply list_elem_of_fmap in Ht as (d & -> & Hd).
    apply list_elem_of_fmap in Hd as ([k d'] & -> & Hin). simpl.
    destruct (Hget k d' Hin) as [Hlast Hname].
    exists d'. rewrite Hname. split_and!; try done.
    + apply propertiesOf_map.
      unfold lastDefinition in Hlast. apply last_Some in Hlast as [l' El].
      assert (Hin' : d' ∈ filter (fun d0 => name d0 = k) defs).
      { rewrite El. apply elem_of_app. right. left. }
      apply list_elem_of_filter in Hin' as [_ Hin'].
      by apply (proj1 (Forall_forall _ _) Hwf).
    + unfold requiredOf, Object_entries. f_equal.
      apply list_filter_iff. intros [n p]. unfold isRequired. simpl.
      destruct (required p) as [[|]|]; split; congruence.
Qed.

Lemma getOpenAISchema_registration_order_witness :
  getOpenAISchema (registerAll [pair_tool; broken_tool; pair_tool_v2])
  = [schemaOf pair_tool_v2; schemaOf broken_tool]
  ∧ schemaNames (getOpenAISchema (registerAll [pair_tool; broken_tool; pair_tool_v2]))
    = firstOccurrences ["pair"; "broken"; "pair"].
Proof.
  split; [reflexivity|].
  apply (getOpenAISchema_registration_order [pair_tool; broken_tool; pair_tool_v2]).
  repeat (apply Forall_cons; split); try apply Forall_nil;
    apply (bool_decide_unpack _); vm_compute; reflexivity.
Defined.

End ToolFacts.

(* ================================================================== *)
(** * The approval ledger of the wrapper (requests addressed by id) *)
(* ================================================================== *)

Module WrapperEntityFacts.
Import Js HumanInLoopDurableAgentWrapper.

Lemma handleApproval_found stored h approvalId decision response i a :
  list_find (fun a => id a = approvalId) (pendingApprovals (loadState stored h).1)
  = Some (i, a) →
  let state := (loadState stored h).1 in
  let h0 := (loadState stored h).2 in
  let t := (Date_now h0).1 in
  let u := (Date_now (Date_now h0).2).1 in
  createConversationEntity (handleApproval approvalId decision response) stored h
  = (ApprovalHandled (resolve a decision response t),
     Some {| chatHistory := chatHistory state;
             pendingApprovals :=
               <[i := resolve a decision response t]> (pendingApprovals state);
             createdAt := createdAt state;
             lastUpdated := u |},
     (Date_now (Date_now h0).2).2).
Proof.
  intros Hfind. unfold createConversationEntity.
  destruct (loadState stored h) as [state h0] eqn:Eload. simpl in *.
  by rewrite Hfind.
Qed.

(** C6.  A request created by [addApprovalRequest] is appended with status
    [pending]; [handleApproval] with decision [approved] sets the status
    of the request with the given id to [approved] and stamps
    [humanResponseTimestamp] with the current instant; [handleApproval] on
    an id that no stored request carries answers
    ["Approval request not found"] and leaves the persisted state as it
    was. *)
Theorem approval_request_lifecycle (stored : option ConversationState) (h : Host) :
  let state := (loadState stored h).1 in
  let h0 := (loadState stored h).2 in
  (∀ tool args why,
     ∃ request state' h',
       createConversationEntity (addApprovalRequest tool args why) stored h
       = (ApprovalAdded (id request), Some state', h')
       ∧ pendingApprovals state' = pendingApprovals state ++ [request]
       ∧ chatHistory state' = chatHistory state
       ∧ status request = pending
       ∧ toolName request = tool ∧ toolArgs request = args
       ∧ reasoning request = why
       ∧ humanResponse request = None
       ∧ humanResponseTimestamp request = None)
  ∧ (∀ approvalId response i a,
       list_find (fun a => id a = approvalId) (pendingApprovals state) = Some (i, a) →
       ∃ a' state' h',
         createConversationEntity (handleApproval approvalId decide_approved response) stored h
         = (ApprovalHandled a', Some state', h')
         ∧ pendingApprovals state' !! i = Some a'
         ∧ id a' = approvalId
         ∧ status a' = approved
         ∧ humanResponseTimestamp a' = Some (Date_now h0).1)
  ∧ (∀ approvalId decision response,
       (∀ a, a ∈ pendingApprovals state → id a ≠ approvalId) →
       ∃ h',
         createConversationEntity (handleApproval approvalId decision response) stored h
         = (Failure "Approval request not found", stored, h')).
Proof.
  intros state h0. split_and!.
  - intros tool args why. unfold createConversationEntity. subst state h0.
    destruct (loadState stored h) as [state h0]. simpl.
    eexists (Build_HumanApprovalRequest _ _ _ _ _ _ _ _), _, _.
    split; [reflexivity|]. simpl. done.
  - intros approvalId response i a Hfind.
    rewrite (handleApproval_found _ _ _ decide_approved response _ _ Hfind).
    eexists _, _, _. split; [reflexivity|]. simpl.
    apply list_find_Some in Hfind as (Hi & Hid & _).
    split_and!; try done.
    apply list_lookup_insert_eq. by eapply lookup_lt_Some.
  - intros approvalId decision response Hnone. unfold createConversationEntity. subst state h0.
    destruct (loadState stored h) as [state h0]. simpl in *.
    destruct (list_find _ _) as [[i a]|] eqn:Hfind; [|by eexists].
    apply list_find_Some in Hfind as (Hi & Hid & _).
    exfalso. apply (Hnone a); [|done]. by eapply list_elem_of_lookup_2.
Qed.

Lemma approval_request_lifecycle_witness :
  (∃ a' state' h',
     createConversationEntity (handleApproval "req-1" decide_approved (Some "ok"))
       (Some WrapperSamples.ledger1) Samples.host0
     = (ApprovalHandled a', Some state', h')
     ∧ pendingApprovals state' !! 0%nat = Some a'
     ∧ id a' = "req-1"
     ∧ status a' = approved
     ∧ humanResponseTimestamp a' = Some 0)
  ∧ (∃ h',
       createConversationEntity (handleApproval "req-2" decide_approved None)
         (Some WrapperSamples.ledger1) Samples.host0
       = (Failure "Approval request not found", Some WrapperSamples.ledger1, h')).
Proof.
  destruct (approval_request_lifecycle (Some WrapperSamples.ledger1) Samples.host0)
    as (_ & Hresolve & Hmissing).
  split.
  - apply (Hresolve "req-1" (Some "ok") 0%nat WrapperSamples.request1).
    reflexivity.
  - apply (Hmissing "req-2" decide_approved None).
    intros a Ha. apply list_elem_of_singleton in Ha. by subst.
Defined.

(** In the id-keyed ledger [handleApproval] succeeds again on a request
    that is already resolved and overwrites it. *)
Lemma handleApproval_by_id_overwrites
    (stored : option ConversationState) (h : Host)
    (approvalId : string) (decision : Decision) (response : option string)
    (i : nat) (a : HumanApprovalRequest) :
  let state := (loadState stored h).1 in
  let h0 := (loadState stored h).2 in
  list_find (fun a => id a = approvalId) (pendingApprovals state) = Some (i, a) →
  status a ≠ pending →
  ∃ a' state' h',
    createConversationEntity (handleApproval approvalId decision response) stored h
    = (ApprovalHandled a', Some state', h')
    ∧ pendingApprovals state' !! i = Some a'
    ∧ id a' = approvalId
    ∧ status a' = status_of decision
    ∧ humanResponse a' = response
    ∧ humanResponseTimestamp a' = Some (Date_now h0).1.
Proof.
  intros state h0 Hfind _.
  rewrite (handleApproval_found _ _ _ decision response _ _ Hfind).
  eexists _, _, _. split; [reflexivity|]. simpl.
  apply list_find_Some in Hfind as (Hi & Hid & _).
  split_and!; try done.
  apply list_lookup_insert_eq. by eapply lookup_lt_Some.
Qed.

(** The request of [ledger1] once it has been approved. *)
Lemma ledger1_approved :
  (createConversationEntity (handleApproval "req-1" decide_approved (Some "ok"))
     (Some WrapperSamples.ledger1) Samples.host0).1.2
  = Some {| chatHistory := chatHistory WrapperSamples.ledger1;
            pendingApprovals :=
              [resolve WrapperSamples.request1 decide_approved (Some "ok") 0];
            createdAt := 3; lastUpdated := 1000 |}.
Proof. reflexivity. Qed.

End WrapperEntityFacts.

(* ================================================================== *)
(** * The approval ledger of the orchestrator (requests addressed by session) *)
(* ================================================================== *)

Module OrchestratorEntityFacts.
Import Js HumanInLoopDurableAgentOrchestrator.

Lemma handleApproval_by_session_found stored h session decision response i a :
  list_find (awaitsDecision session) (pendingApprovals (loadState stored h).1)
  = Some (i, a) →
  let state := (loadState stored h).1 in
  let h0 := (loadState stored h).2 in
  let t := (Date_now h0).1 in
  let u := (Date_now (Date_now h0).2).1 in
  createConversationEntity (handleApproval session decision response) stored h
  = (ApprovalHandled (resolve a decision response t),
     Some {| chatHistory := chatHistory state;
             pendingApprovals :=
               <[i := resolve a decision response t]> (pendingApprovals state);
             createdAt := createdAt state;
             lastUpdated := u |},
     (Date_now (Date_now h0).2).2).
Proof.
  intros Hfind. unfold createConversationEntity.
  destruct (loadState stored h) as [state h0] eqn:Eload. simpl in *.
  by rewrite Hfind.
Qed.

Lemma ledger_loadState_by_session stored h :
  pendingApprovals (loadState stored h).1 = default [] (pendingApprovals <$> stored).
Proof. by destruct stored. Qed.

Lemma handleApproval_by_session_missing stored h session decision response :
  list_find (awaitsDecision session) (pendingApprovals (loadState stored h).1)
  = None →
  createConversationEntity (handleApproval session decision response) stored h
  = (Failure "Approval request not found", stored, (loadState stored h).2).
Proof.
  intros Hfind. unfold createConversationEntity.
  destruct (loadState stored h) as [state h0] eqn:Eload. simpl in *.
  by rewrite Hfind.
Qed.

(** C10.  In the session-keyed ledger, [handleApproval] changes at most one
    request: the first one in the list whose [sessionId] is the given
    session and whose status is [pending].  Every other request and the
    chat history are left as they were; when no request qualifies, nothing
    is persisted at all. *)
Theorem handleApproval_changes_first_pending_only
    (stored : option ConversationState) (h : Host)
    (session : string) (decision : Decision) (response : option string) :
  let state := (loadState stored h).1 in
  let h0 := (loadState stored h).2 in
  let outcome :=
    createConversationEntity (handleApproval session decision response) stored h in
  (outcome.1.2 = stored
   ∧ outcome.1.1 = Failure "Approval request not found"
   ∧ ∀ a, a ∈ pendingApprovals state → ¬ awaitsDecision session a)
  ∨ (∃ i a state',
       outcome.1.2 = Some state'
       ∧ pendingApprovals state !! i = Some a
       ∧ awaitsDecision session a
       ∧ (∀ j b, pendingApprovals state !! j = Some b → (j < i)%nat →
                 ¬ awaitsDecision session b)
       ∧ chatHistory state' = chatHistory state
       ∧ length (pendingApprovals state') = length (pendingApprovals state)
       ∧ (∀ j, j ≠ i → pendingApprovals state' !! j = pendingApprovals state !! j)
       ∧ pendingApprovals state' !! i
         = Some (resolve a decision response (Date_now h0).1)).
Proof.
  intros state h0 outcome.
  destruct (list_find (awaitsDecision session) (pendingApprovals state))
    as [[i a]|] eqn:Hfind.
  - right. exists i, a. subst outcome.
    rewrite (handleApproval_by_session_found _ _ _ decision response _ _ Hfind).
    eexists. split; [reflexivity|]. simpl.
    apply list_find_Some in Hfind as (Hi & Ha & Hfirst).
    split_and!; try done.
    + by rewrite length_insert.
    + intros j Hj. by apply list_lookup_insert_ne.
    + apply list_lookup_insert_eq. by eapply lookup_lt_Some.
  - left. subst outcome. rewrite (handleApproval_by_session_missing _ _ _ _ _ Hfind).
    split_and!; try done.
    apply list_find_None in Hfind. intros a Ha.
    by apply (proj1 (Forall_forall _ _) Hfind).
Qed.

(** On [ledger3] a decision for session [s1] lands on the second request,
    the first pending one; the resolved first request and the pending
    third one are not touched. *)
Lemma handleApproval_ledger3 :
  (createConversationEntity (handleApproval "s1" decide_rejected (Some "no"))
     (Some OrchestratorSamples.ledger3) Samples.host0).1.2
  = Some {| chatHistory := chatHistory OrchestratorSamples.ledger3;
            pendingApprovals :=
              [OrchestratorSamples.request "makePayment" approved;
               resolve (OrchestratorSamples.request "deleteFile" pending)
                 decide_rejected (Some "no") 0;
               OrchestratorSamples.request "sendEmail" pending];
            createdAt := 3; lastUpdated := 1000 |}.
Proof. reflexivity. Qed.

(** In the session-keyed ledger a request that is no longer pending is
    never changed again, whatever operation the entity performs. *)
Lemma resolved_request_is_final stored h op i a state' :
  pendingApprovals (loadState stored h).1 !! i = Some a →
  status a ≠ pending →
  (createConversationEntity op stored h).1.2 = Some state' →
  pendingApprovals state' !! i = Some a.
Proof.
  intros Hi Hst. unfold createConversationEntity.
  destruct (loadState stored h) as [state h0] eqn:Eload. simpl in Hi.
  assert (Hstored : ∀ s, stored = Some s → pendingApprovals s !! i = Some a).
  { intros s ->. simpl in Eload. by injection Eload as -> _. }
  destruct op; simpl; try (intros Hs; by apply Hstored).
  - intros [= <-]. done.
  - intros [= <-]. simpl. by apply lookup_app_l_Some.
  - destruct (list_find _ _) as [[j b]|] eqn:Hfind; simpl.
    + intros [= <-]. simpl.
      apply list_find_Some in Hfind as (Hj & [_ Hb] & _).
      rewrite list_lookup_insert_ne; [done|]. intros ->.
      rewrite Hi in Hj. injection Hj as ->. done.
    + intros Hs. by apply Hstored.
Qed.

Lemma entity_keeps_resolved op stored h i a :
  default [] (pendingApprovals <$> stored) !! i = Some a →
  status a ≠ pending →
  default [] (pendingApprovals <$> (createConversationEntity op stored h).1.2) !! i = Some a.
Proof.
  intros Hi Hst. destruct stored as [state|]; [|done]. simpl in Hi.
  destruct ((createConversationEntity op (Some state) h).1.2) as [state'|] eqn:E.
  - simpl. by eapply (resolved_request_is_final
                        (Some state) h op).
  - exfalso. revert E. unfold createConversationEntity. simpl.
    destruct op; simpl; try discriminate.
    destruct (list_find _ _) as [[j b]|]; simpl; discriminate.
Qed.

End OrchestratorEntityFacts.

(* ================================================================== *)
(** * Deciding again on a resolved request *)
(* ================================================================== *)

Module ResolutionFacts.
Import Js.

(** C7 as the specification states it fails on the session-keyed ledger:
    when the only request of session [s1] is already approved, a further
    decision for [s1] fails with ["Approval request not found"] and
    overwrites nothing. *)
Lemma handleApproval_by_session_rejects_second_decision :
  HumanInLoopDurableAgentOrchestrator.createConversationEntity
    (HumanInLoopDurableAgentOrchestrator.handleApproval "s1"
       HumanInLoopDurableAgentOrchestrator.decide_rejected (Some "changed my mind"))
    (Some OrchestratorSamples.ledgerResolved) Samples.host0
  = (HumanInLoopDurableAgentOrchestrator.Failure "Approval request not found",
     Some OrchestratorSamples.ledgerResolved, Samples.host0).
Proof. reflexivity. Qed.

(** C7 (as amended).  In the ledger whose requests are addressed by id
    (the wrapper), [handleApproval] is not idempotent: on an id whose
    request is already [approved] or [rejected] it succeeds again and
    overwrites the stored status, human response and decision timestamp
    with those of the new call.  In the ledger whose requests are
    addressed by session (the orchestrator), [handleApproval] looks at
    pending requests only: a request that is already resolved is never
    changed again, and when no request of the session is pending the call
    fails with ["Approval request not found"] and persists nothing. *)
Theorem handleApproval_on_resolved_request :
  (∀ (stored : option HumanInLoopDurableAgentWrapper.ConversationState) (h : Host)
     (approvalId : string) (decision : HumanInLoopDurableAgentWrapper.Decision)
     (response : option string) (i : nat)
     (a : HumanInLoopDurableAgentWrapper.HumanApprovalRequest),
     let state := (HumanInLoopDurableAgentWrapper.loadState stored h).1 in
     let h0 := (HumanInLoopDurableAgentWrapper.loadState stored h).2 in
     list_find (fun a => HumanInLoopDurableAgentWrapper.id a = approvalId)
       (HumanInLoopDurableAgentWrapper.pendingApprovals state) = Some (i, a) →
     HumanInLoopDurableAgentWrapper.status a ≠ HumanInLoopDurableAgentWrapper.pending →
     ∃ a' state' h',
       HumanInLoopDurableAgentWrapper.createConversationEntity
         (HumanInLoopDurableAgentWrapper.handleApproval approvalId decision response)
         stored h
       = (HumanInLoopDurableAgentWrapper.ApprovalHandled a', Some state', h')
       ∧ HumanInLoopDurableAgentWrapper.pendingApprovals state' !! i = Some a'
       ∧ HumanInLoopDurableAgentWrapper.id a' = approvalId
       ∧ HumanInLoopDurableAgentWrapper.status a'
         = HumanInLoopDurableAgentWrapper.status_of decision
       ∧ HumanInLoopDurableAgentWrapper.humanResponse a' = response
       ∧ HumanInLoopDurableAgentWrapper.humanResponseTimestamp a'
         = Some (Date_now h0).1)
  ∧ (∀ (stored : option HumanInLoopDurableAgentOrchestrator.ConversationState)
       (h : Host) (session : string)
       (decision : HumanInLoopDurableAgentOrchestrator.Decision)
       (response : option string) (i : nat)
       (a : HumanInLoopDurableAgentOrchestrator.HumanApprovalRequest),
       let ledgerOf stored :=
         default [] (HumanInLoopDurableAgentOrchestrator.pendingApprovals <$> stored) in
       let outcome :=
         HumanInLoopDurableAgentOrchestrator.createConversationEntity
           (HumanInLoopDurableAgentOrchestrator.handleApproval session decision response)
           stored h in
       ledgerOf stored !! i = Some a →
       HumanInLoopDurableAgentOrchestrator.status a
       ≠ HumanInLoopDurableAgentOrchestrator.pending →
       ledgerOf outcome.1.2 !! i = Some a
       ∧ ((∀ b, b ∈ ledgerOf stored →
                ¬ HumanInLoopDurableAgentOrchestrator.awaitsDecision session b) →
          outcome.1.1
          = HumanInLoopDurableAgentOrchestrator.Failure "Approval request not found"
          ∧ outcome.1.2 = stored)).
Proof.
  split.
  - intros stored h approvalId decision response i a state h0 Hfind Hst.
    exact (WrapperEntityFacts.handleApproval_by_id_overwrites
             stored h approvalId decision response i a Hfind Hst).
  - intros stored h session decision response i a ledgerOf outcome Hi Hst.
    subst ledgerOf outcome. simpl. split.
    + by apply OrchestratorEntityFacts.entity_keeps_resolved.
    + intros Hnone.
      rewrite OrchestratorEntityFacts.handleApproval_by_session_missing; [done|].
      apply list_find_None, Forall_forall. intros b Hb. apply Hnone.
      by rewrite <- (OrchestratorEntityFacts.ledger_loadState_by_session stored h).
Qed.

Lemma handleApproval_on_resolved_request_witness :
  (∃ a' state' h',
     HumanInLoopDurableAgentWrapper.createConversationEntity
       (HumanInLoopDurableAgentWrapper.handleApproval "req-1"
          HumanInLoopDurableAgentWrapper.decide_rejected (Some "changed my mind"))
       (Some {| HumanInLoopDurableAgentWrapper.chatHistory := [];
                HumanInLoopDurableAgentWrapper.pendingApprovals :=
                  [HumanInLoopDurableAgentWrapper.resolve WrapperSamples.request1
                     HumanInLoopDurableAgentWrapper.decide_approved (Some "ok") 0];
                HumanInLoopDurableAgentWrapper.createdAt := 3;
                HumanInLoopDurableAgentWrapper.lastUpdated := 1000 |})
       Samples.host0
     = (HumanInLoopDurableAgentWrapper.ApprovalHandled a', Some state', h')
     ∧ HumanInLoopDurableAgentWrapper.pendingApprovals state' !! 0%nat = Some a'
     ∧ HumanInLoopDurableAgentWrapper.id a' = "req-1"
     ∧ HumanInLoopDurableAgentWrapper.status a' = HumanInLoopDurableAgentWrapper.rejected
     ∧ HumanInLoopDurableAgentWrapper.humanResponse a' = Some "changed my mind"
     ∧ HumanInLoopDurableAgentWrapper.humanResponseTimestamp a' = Some 0)
  ∧ (HumanInLoopDurableAgentOrchestrator.createConversationEntity
       (HumanInLoopDurableAgentOrchestrator.handleApproval "s1"
          HumanInLoopDurableAgentOrchestrator.decide_rejected (Some "changed my mind"))
       (Some OrchestratorSamples.ledgerResolved) Samples.host0).1.2
    = Some OrchestratorSamples.ledgerResolved.
Proof.
  destruct handleApproval_on_resolved_request as [Hid Hsession].
  split.
  - apply (Hid (Some {| HumanInLoopDurableAgentWrapper.chatHistory := [];
                        HumanInLoopDurableAgentWrapper.pendingApprovals :=
                          [HumanInLoopDurableAgentWrapper.resolve WrapperSamples.request1
                             HumanInLoopDurableAgentWrapper.decide_approved (Some "ok") 0];
                        HumanInLoopDurableAgentWrapper.createdAt := 3;
                        HumanInLoopDurableAgentWrapper.lastUpdated := 1000 |})
             Samples.host0 "req-1" HumanInLoopDurableAgentWrapper.decide_rejected
             (Some "changed my mind") 0%nat
             (HumanInLoopDurableAgentWrapper.resolve WrapperSamples.request1
                HumanInLoopDurableAgentWrapper.decide_approved (Some "ok") 0)).
    + reflexivity.
    + simpl. discriminate.
  - destruct (Hsession (Some OrchestratorSamples.ledgerResolved) Samples.host0 "s1"
                HumanInLoopDurableAgentOrchestrator.decide_rejected
                (Some "changed my mind") 0%nat
                (OrchestratorSamples.request "makePayment"
                   HumanInLoopDurableAgentOrchestrator.approved))
      as [_ Hfails].
    + reflexivity.
    + simpl. discriminate.
    + apply Hfails. intros b Hb. simpl in Hb.
      apply list_elem_of_singleton in Hb as ->. by intros [_ Hpending].
Defined.

End ResolutionFacts.

(* ================================================================== *)
(** * Turns of the durable agent orchestrator *)
(* ================================================================== *)

Module TurnFacts.
Import Js Tool OpenAI Http DurableOpenAiAgentOrchestrator.

Lemma quiet_ret {A} (a : A) : quiet (ret a).
Proof. done. Qed.

Lemma quiet_throw {A} e : quiet (@throw World A e).
Proof. done. Qed.

Lemma quiet_lift {A} (c : Completion A) : quiet (lift c).
Proof. done. Qed.

Lemma quiet_bind {A B} (m : M World A) (k : A → M World B) :
  quiet m → (∀ a, quiet (k a)) → quiet (mbind m k).
Proof.
  intros Hm Hk w. unfold mbind. destruct (Hm w) as [He Hh].
  destruct (m w) as [w' [a|e]]; simpl in *.
  - destruct (Hk a w') as [He' Hh']. split; congruence.
  - done.
Qed.

Lemma quiet_try_catch {A} (m : M World A) (k : Thrown → M World A) :
  quiet m → (∀ e, quiet (k e)) → quiet (try_catch m k).
Proof.
  intros Hm Hk w. unfold try_catch. destruct (Hm w) as [He Hh].
  destruct (m w) as [w' [a|e]]; simpl in *.
  - done.
  - destruct (Hk e w') as [He' Hh']. split; congruence.
Qed.

Lemma quiet_create this request : quiet (create this request).
Proof. done. Qed.

Lemma quiet_callTool this toolName toolArgs : quiet (callTool this toolName toolArgs).
Proof. intros w. unfold callTool. by destruct (executeTool _ _ _). Qed.

Lemma quiet_runToolCalls this calls acc : quiet (runToolCalls this calls acc).
Proof.
  revert acc. induction calls as [|toolCall rest IH]; intros acc; simpl.
  - apply quiet_ret.
  - apply quiet_bind; [apply quiet_lift|]. intros toolArgs.
    apply quiet_bind; [|intros text; apply IH].
    apply quiet_try_catch; [apply quiet_callTool|]. intros e. apply quiet_ret.
Qed.

Lemma quiet_executeOpenAIChat this message : quiet (executeOpenAIChat this message).
Proof.
  unfold executeOpenAIChat.
  apply quiet_try_catch; [|intros e; apply quiet_throw].
  apply quiet_bind; [apply quiet_create|]. intros completion.
  destruct (tool_calls completion) as [[|toolCall rest]|]; try apply quiet_ret.
  apply quiet_bind; [apply quiet_runToolCalls|]. intros toolResults.
  apply quiet_bind; [apply quiet_create|]. intros finalResponse. apply quiet_ret.
Qed.

Lemma quiet_activity this message : quiet (activity this message).
Proof.
  apply quiet_try_catch; [apply quiet_executeOpenAIChat|].
  intros e. apply quiet_throw.
Qed.

(** ** Appending through the entity *)

Lemma readHistory_historyOf w session :
  readHistory w session = historyOf (entities w !! session).
Proof.
  unfold readHistory, createConversationEntity. by destruct (entities w !! session).
Qed.

Lemma callEntity_addMessage session r c w :
  ∃ w' t,
    callEntity session (addMessage r c) w = (w', Returned Success)
    ∧ historyOf (entities w' !! session)
      = historyOf (entities w !! session)
          ++ [{| role := r; content := c; timestamp := t |}]
    ∧ ∀ s, s ≠ session → entities w' !! s = entities w !! s.
Proof.
  unfold callEntity, createConversationEntity.
  destruct (entities w !! session) as [state|] eqn:E; simpl.
  - eexists _, _. split; [reflexivity|]. simpl. split.
    + by rewrite lookup_insert_eq.
    + intros s Hs. by rewrite lookup_insert_ne.
  - eexists _, _. split; [reflexivity|]. simpl. split.
    + by rewrite lookup_insert_eq.
    + intros s Hs. by rewrite lookup_insert_ne.
Qed.

(** One completed turn appends the user message and then the assistant's
    response to the history of its session, and touches no other
    session. *)
Lemma chatOrchestrator_completed this input w w' out :
  createChatOrchestrator this input w = (w', Returned out) →
  (∃ t1 t2,
     readHistory w' (sessionId input)
     = readHistory w (sessionId input)
         ++ [{| role := user; content := message input; timestamp := t1 |};
             {| role := assistant; content := response out; timestamp := t2 |}])
  ∧ ∀ s, s ≠ sessionId input → readHistory w' s = readHistory w s.
Proof.
  unfold createChatOrchestrator, try_catch, mbind.
  destruct (callEntity_addMessage (sessionId input) user (message input) w)
    as (w1 & t1 & -> & Hh1 & Ho1).
  pose proof (quiet_activity this (message input) w1) as [He2 _].
  destruct (activity this (message input) w1) as [w2 [answer|e]]; simpl in *;
    [|discriminate].
  destruct (callEntity_addMessage (sessionId input) assistant answer w2)
    as (w3 & t2 & -> & Hh3 & Ho3).
  unfold ret. intros [= <- <-]. simpl.
  rewrite !readHistory_historyOf. split.
  - exists t1, t2. rewrite Hh3, He2, Hh1. by rewrite <- app_assoc.
  - intros s Hs. rewrite !readHistory_historyOf.
    by rewrite (Ho3 s Hs), He2, (Ho1 s Hs).
Qed.

Lemma transcript_cons session input out turns :
  transcript session ((input, out) :: turns)
  = (if decide (sessionId input = session)
     then [(user, message input); (assistant, response out)] else [])
    ++ transcript session turns.
Proof.
  unfold transcript. rewrite filter_cons. simpl.
  by destruct (decide (sessionId input = session)).
Qed.

(** C8.  When every turn of a sequence completes, the full history of a
    session afterwards is its history before followed, for each turn
    issued on that session and in the order of issue, by the user's
    message and then the assistant's response: two messages per turn,
    alternating user and assistant.  The earlier history is kept as a
    prefix, so nothing is reordered or dropped; on a fresh session the
    history has exactly 2N messages after N turns. *)
Theorem completed_turns_alternate
    (this : Agent) (inputs : list OrchestratorInput)
    (outs : list OrchestratorOutput) (w : World) (session : string) :
  (runTurns this inputs w).2 = Returned <$> outs →
  let w' := (runTurns this inputs w).1 in
  let turns := filter (fun t => sessionId t.1 = session) (zip inputs outs) in
  said <$> readHistory w' session
  = (said <$> readHistory w session) ++ transcript session (zip inputs outs)
  ∧ readHistory w session `prefix_of` readHistory w' session
  ∧ length (readHistory w' session)
    = (length (readHistory w session) + 2 * length turns)%nat
  ∧ (readHistory w session = [] →
     role <$> readHistory w' session
     = mjoin (replicate (length turns) [user; assistant])).
Proof.
  revert outs w. induction inputs as [|input rest IH]; intros outs w Hall; simpl.
  - rewrite app_nil_r. split_and!; [done|done|lia|].
    intros ->. done.
  - simpl in Hall.
    destruct (createChatOrchestrator this input w) as [w1 outcome] eqn:Hturn.
    destruct (runTurns this rest w1) as [w2 outcomes] eqn:Hrest.
    simpl in Hall. destruct outs as [|out outs']; [discriminate|].
    simpl in Hall. injection Hall as -> Hall.
    specialize (IH outs' w1). rewrite Hrest in IH. simpl in IH.
    destruct (IH Hall) as (Hsaid & Hprefix & Hlen & _).
    destruct (chatOrchestrator_completed _ _ _ _ _ Hturn) as [(t1 & t2 & Hmine) Hother].
    simpl. rewrite transcript_cons, filter_cons. simpl.
    assert (Hgoal :
      said <$> readHistory w2 session
      = (said <$> readHistory w session)
          ++ (if decide (sessionId input = session)
              then [(user, message input); (assistant, response out)] else [])
          ++ transcript session (zip rest outs')
      ∧ readHistory w session `prefix_of` readHistory w2 session
      ∧ length (readHistory w2 session)
        = (length (readHistory w session)
           + 2 * length (if decide (sessionId input = session)
                         then (input, out)
                              :: filter (fun t => sessionId t.1 = session) (zip rest outs')
                         else filter (fun t => sessionId t.1 = session) (zip rest outs')))%nat).
    { destruct (decide (sessionId input = session)) as [<-|Hne].
      - rewrite Hmine in Hsaid, Hprefix, Hlen. split_and!.
        + rewrite Hsaid, fmap_app. by rewrite <- app_assoc.
        + etrans; [|exact Hprefix]. by apply prefix_app_r.
        + rewrite Hlen, length_app. simpl. lia.
      - rewrite (Hother session) in Hsaid, Hprefix, Hlen by done. done. }
    destruct Hgoal as (G1 & G2 & G3). split_and!; try done.
    intros Hfresh. rewrite Hfresh in G1. simpl in G1.
    assert (Hroles : role <$> readHistory w2 session
                     = fst <$> (said <$> readHistory w2 session)).
    { rewrite <- list_fmap_compose. by apply list_fmap_ext. }
    rewrite Hroles, G1. clear.
    generalize (zip rest outs') as turns. intros turns.
    assert (Htr : ∀ l : list (OrchestratorInput * OrchestratorOutput),
              fst <$> transcript session l
              = mjoin (replicate
                         (length (filter (fun t => sessionId t.1 = session) l))
                         [user; assistant])).
    { induction l as [|[i o] l IHl]; [done|].
      rewrite transcript_cons, filter_cons, fmap_app. simpl.
      destruct (decide (sessionId i = session)); simpl; by rewrite IHl. }
    rewrite fmap_app, Htr.
    destruct (decide (sessionId input = session)); done.
Qed.

Lemma completed_turns_alternate_witness :
  said <$> readHistory (runTurns AgentSamples.mathAgent AgentSamples.threeTurns
                          AgentSamples.freshWorld).1 "s1"
  = [(user, "What is 9 squared?"); (assistant, "Result: The square of 9 is 81");
     (user, "thanks"); (assistant, "Hello! How can I help?")].
Proof.
  destruct (completed_turns_alternate AgentSamples.mathAgent AgentSamples.threeTurns
              AgentSamples.threeAnswers AgentSamples.freshWorld "s1")
    as (Hsaid & _).
  - vm_compute. reflexivity.
  - rewrite Hsaid. vm_compute. reflexivity.
Defined.

End TurnFacts.

(* ================================================================== *)
(** * The chat endpoints *)
(* ================================================================== *)

Module EndpointFacts.
Import Js Http.

Lemma messageOf_default body :
  truthy (getOptional body "message") = false →
  truthy (getOptional body "prompt") = false →
  messageOf body = JStr "Hello".
Proof.
  intros Hm Hp. unfold messageOf, or_else. by rewrite Hm, Hp.
Qed.

(** C9.  When the JSON body of a chat request has no truthy [message] and
    no truthy [prompt], both chat handlers (the durable agent
    orchestrator's and the human-in-the-loop wrapper's) still ask the
    durable client to start the orchestration, once, with the user message
    ['Hello']; when the client accepts, the answer is a success (200 or
    202), not a rejection. *)
Theorem chat_message_defaults_to_Hello
    (request : HttpRequest) (body : JsValue) (h : Host) :
  json request = Returned body →
  truthy (getOptional body "message") = false →
  truthy (getOptional body "prompt") = false →
  (∀ this client,
     let outcome :=
       DurableOpenAiAgentOrchestrator.createChatEndpoint this client request h in
     ∃ session,
       outcome.1.2
       = [{| start_orchestrator := DurableOpenAiAgentOrchestrator.orchestratorName this;
             start_message := JStr "Hello";
             start_sessionId := session |}]
       ∧ ((∀ e, DurableOpenAiAgentOrchestrator.startNew client
                  {| start_orchestrator := DurableOpenAiAgentOrchestrator.orchestratorName this;
                     start_message := JStr "Hello";
                     start_sessionId := session |} ≠ Threw e) →
          body_success outcome.1.1 = true
          ∧ (http_status outcome.1.1 = 200 ∨ http_status outcome.1.1 = 202)))
  ∧ (∀ this startNew,
       let outcome :=
         HumanInLoopDurableAgentWrapper.createChatEndpoint this startNew request h in
       ∃ session,
         outcome.1.2
         = [{| start_orchestrator := HumanInLoopDurableAgentWrapper.orchestratorName this;
               start_message := JStr "Hello";
               start_sessionId := session |}]
         ∧ ((∀ e, startNew
                    {| start_orchestrator := HumanInLoopDurableAgentWrapper.orchestratorName this;
                       start_message := JStr "Hello";
                       start_sessionId := session |} ≠ Threw e) →
            body_success outcome.1.1 = true ∧ http_status outcome.1.1 = 202)).
Proof.
  intros Hjson Hm Hp. split.
  - intros this client outcome. subst outcome.
    unfold DurableOpenAiAgentOrchestrator.createChatEndpoint.
    rewrite Hjson, (messageOf_default body Hm Hp).
    destruct (sessionOf body (params_sessionId request) h) as [session h1].
    exists session. simpl.
    destruct (DurableOpenAiAgentOrchestrator.startNew client _) as [inst|e] eqn:Hs.
    + destruct (DurableOpenAiAgentOrchestrator.getStatus client inst) as [[out|]|e'];
        simpl; split; try done; intros _; split; auto.
    + simpl. split; [done|]. intros Hok. by destruct (Hok e).
  - intros this startNew outcome. subst outcome.
    unfold HumanInLoopDurableAgentWrapper.createChatEndpoint.
    rewrite Hjson, (messageOf_default body Hm Hp).
    destruct (sessionOf body (params_sessionId request) h) as [session h1].
    exists session. simpl.
    destruct (startNew _) as [inst|e] eqn:Hs.
    + simpl. split; [done|]. intros _. done.
    + simpl. split; [done|]. intros Hok. by destruct (Hok e).
Qed.

Lemma chat_message_defaults_to_Hello_witness :
  (DurableOpenAiAgentOrchestrator.createChatEndpoint AgentSamples.mathAgent
     AgentSamples.acceptingClient AgentSamples.bareRequest Samples.host0).1.2
  = [{| start_orchestrator := "MathAgentChatOrchestrator";
        start_message := JStr "Hello";
        start_sessionId := JStr "abc" |}].
Proof.
  destruct (chat_message_defaults_to_Hello AgentSamples.bareRequest
              (JObj [("sessionId", JStr "abc")]) Samples.host0
              eq_refl eq_refl eq_refl) as [Hsimple _].
  destruct (Hsimple AgentSamples.mathAgent AgentSamples.acceptingClient)
    as (session & Hstarted & _).
  rewrite Hstarted. vm_compute in Hstarted.
  injection Hstarted as <-. reflexivity.
Defined.

End EndpointFacts.

(* ================================================================== *)
(** * The approval gate of the human-in-the-loop orchestrator *)
(* ================================================================== *)

Module GateFacts.
Import Js Tool OpenAI HumanInLoopDurableAgentOrchestrator.

(** ** Resolved requests stay *)

Lemma deliver_keeps_resolved ops stored h i a :
  default [] (pendingApprovals <$> stored) !! i = Some a →
  status a ≠ pending →
  default [] (pendingApprovals <$> (deliver ops stored h).1) !! i = Some a.
Proof.
  unfold deliver. revert stored h.
  induction ops as [|op ops IH]; intros stored h Hi Hst; simpl; [done|].
  pose proof (OrchestratorEntityFacts.entity_keeps_resolved op stored h i a Hi Hst) as Hstep.
  destruct (createConversationEntity op stored h) as [[result stored'] h']. simpl in *.
  by apply IH.
Qed.

Lemma persists_refl w : persists w w.
Proof. by intros i a. Qed.

Lemma persists_trans w1 w2 w3 : persists w1 w2 → persists w2 w3 → persists w1 w3.
Proof. intros H12 H23 i a Hi Hst. apply H23; [by apply H12 | done]. Qed.

Lemma extends_refl w : extends w w [].
Proof. split; [by rewrite app_nil_r | apply persists_refl]. Qed.

Lemma extends_trans w1 w2 w3 e1 e2 :
  extends w1 w2 e1 → extends w2 w3 e2 → extends w1 w3 (e1 ++ e2).
Proof.
  intros [Ht1 Hp1] [Ht2 Hp2]. split.
  - by rewrite Ht2, Ht1, app_assoc.
  - by eapply persists_trans.
Qed.

(** ** The tasks one by one *)

(** A suspension: the operations of the coming tick are executed on the
    entity, and the tick is used up. *)
Lemma suspend_spec task wake w :
  ∃ w', suspend task wake w = (w', Returned tt)
        ∧ (store w', host w')
          = deliver (arrivals (default quietTick (head (environment w))))
              (store w) (host w)
        ∧ environment w' = tail (environment w)
        ∧ trace w' = trace w ++ [task]
        ∧ persists w w'
        ∧ Z.max (now w) wake ≤ now w'
        ∧ api_calls w' = api_calls w
        ∧ invoked w' = invoked w.
Proof.
  unfold suspend.
  pose proof (deliver_keeps_resolved
                (arrivals (default quietTick (head (environment w))))
                (store w) (host w)) as Hkeep.
  destruct (deliver _ (store w) (host w)) as [stored h].
  eexists. split; [reflexivity|]. simpl. split_and!; try done. lia.
Qed.

Lemma gateEvents_snoc tasks task :
  gateEvents (tasks ++ [task]) = gateEvents tasks ++ option_list (gateEvent task).
Proof.
  unfold gateEvents. rewrite omap_app. simpl. by destruct (gateEvent task).
Qed.

(** A call of the entity: after the suspension the entity executes the
    operation; nothing is delivered back. *)
Lemma callEntity_spec op w :
  ∃ w' reached,
    callEntity op w = (w', Returned None)
    ∧ reached = deliver (arrivals (default quietTick (head (environment w))))
                  (store w) (host w)
    ∧ store w' = (createConversationEntity op reached.1 reached.2).1.2
    ∧ environment w' = tail (environment w)
    ∧ trace w' = trace w ++ [CallEntity op]
    ∧ persists w w'
    ∧ now w ≤ now w'
    ∧ api_calls w' = api_calls w
    ∧ invoked w' = invoked w.
Proof.
  unfold callEntity, mbind, currentUtcDateTime.
  destruct (suspend_spec (CallEntity op) (now w) w)
    as (w1 & -> & Hreached & Henv & Htrace & Hp & Hnow & Hapi & Hinv).
  rewrite <- Hreached. simpl.
  pose proof (OrchestratorEntityFacts.entity_keeps_resolved op (store w1) (host w1)) as Hkeep.
  destruct (createConversationEntity op (store w1) (host w1)) as [[result stored] h] eqn:E.
  eexists _, _. split; [reflexivity|]. simpl. split_and!; try done.
  - rewrite <- Hreached. simpl. by rewrite E.
  - eapply persists_trans; [exact Hp|]. intros i a Hi Hst.
    unfold ledger in *. simpl in *. by apply Hkeep.
  - lia.
Qed.



Lemma executeTool_registered reg tool toolArgs :
  hasTool reg tool = true →
  ∃ text, (executeTool reg tool toolArgs).2 = Returned text.
Proof.
  unfold hasTool, Map_has, executeTool.
  destruct (Map_get tool reg) as [def|]; [|discriminate]. intros _.
  destruct (argArray def toolArgs) as [argv|e]; [|by eexists].
  destruct (handler def argv); by eexists.
Qed.

(** ** The polling loop *)

Lemma pollBudget_enough timeoutMs : timeoutMs ≤ 5000 * Z.of_nat (pollBudget timeoutMs).
Proof.
  unfold pollBudget. rewrite Nat2Z.inj_succ.
  destruct (decide (0 ≤ timeoutMs)) as [Hpos|Hneg].
  - rewrite Z2Nat.id by (apply Z.div_pos; lia).
    pose proof (Z.mul_succ_div_gt timeoutMs 5000). lia.
  - lia.
Qed.

(** The loop always comes to an end, and never on a decision: what
    [getState] delivers is [undefined], so the search for a decided
    request is never entered.  Within the iteration bound the loop ends on
    the deadline.  It yields only timers and reads. *)
Lemma pollLoop_spec fuel session tool timeoutDate w :
  ∃ w' outcome,
    pollLoop fuel session tool timeoutDate w = (w', Returned outcome)
    ∧ extends w w' []
    ∧ invoked w' = invoked w
    ∧ (∀ humanDecision, outcome ≠ Decided humanDecision)
    ∧ ((∀ limit, timeoutDate = Some limit → limit - now w ≤ 5000 * Z.of_nat fuel) →
       outcome = Expired).
Proof.
  revert w. induction fuel as [|fuel IH]; intros w; simpl.
  - destruct (decide (earlier (now w) timeoutDate)) as [Hlive|Hdone].
    + eexists _, _. split; [reflexivity|]. split_and!; try done.
      * apply extends_refl.
      * intros Hbound. destruct timeoutDate as [limit|]; [|done].
        simpl in Hlive. specialize (Hbound limit eq_refl). lia.
    + eexists _, _. split; [reflexivity|]. split_and!; try done.
      apply extends_refl.
  - destruct (decide (earlier (now w) timeoutDate)) as [Hlive|Hdone].
    2:{ eexists _, _. split; [reflexivity|]. split_and!; try done.
        apply extends_refl. }
    unfold mbind at 1, createTimer.
    destruct (suspend_spec (CreateTimer (now w + 5000)) (now w + 5000) w)
      as (w1 & -> & _ & _ & Htrace1 & Hp1 & Hnow1 & _ & Hinv1).
    unfold mbind at 1.
    destruct (callEntity_spec getState w1)
      as (w2 & reached & -> & _ & _ & _ & Htrace2 & Hp2 & Hnow2 & _ & Hinv2).
    assert (Hext : extends w w2 []).
    { split.
      - rewrite Htrace2, Htrace1, !gateEvents_snoc. simpl.
        by rewrite !app_nil_r.
      - by eapply persists_trans. }
    destruct (IH w2) as (w3 & outcome & -> & Hext3 & Hinv3 & Hnever & Hfuel).
    eexists _, _. split; [reflexivity|]. split_and!.
    + apply (extends_trans _ _ _ [] [] Hext Hext3).
    + congruence.
    + done.
    + intros Hbound. apply Hfuel. intros limit ->.
      specialize (Hbound limit eq_refl). lia.
Qed.

(** ** One gated call *)

(** The gate files the request, polls until the deadline and then submits
    the rejection for the timeout: the poll never sees a decision, so the
    gate always answers with the timeout and never invokes the executor. *)
Lemma gate_spec this input tool toolArgs w :
  ∃ w',
    gate this input tool toolArgs w
    = (w', Returned
             {| success := true;
                response := "[TIMEOUT] Request timed out after "
                            +:+ pretty (minutesOf input) +:+ " minutes";
                requiresApproval := true;
                out_sessionId := Some (input_sessionId input);
                out_toolName := Some tool; out_toolArgs := Some toolArgs |})
    ∧ extends w w' [RequestCreated tool]
    ∧ invoked w' = invoked w
    ∧ last (trace w')
      = Some (CallEntity
                (handleApproval (input_sessionId input) decide_rejected
                   (Some ("Timeout after " +:+ pretty (minutesOf input)
                          +:+ " minutes")))).
Proof.
  unfold gate, mbind at 1.
  destruct (callEntity_spec
              (addApprovalRequest (input_sessionId input) tool toolArgs
                 ("AI wants to execute " +:+ tool +:+ " with: "
                  +:+ JSON_stringify (JSON_ this) toolArgs)) w)
    as (w1 & reached1 & -> & _ & _ & _ & Htrace1 & Hp1 & _ & _ & Hinv1).
  assert (Hext1 : extends w w1 [RequestCreated tool]).
  { split; [|done]. by rewrite Htrace1, gateEvents_snoc. }
  unfold mbind at 1, currentUtcDateTime. unfold mbind at 1.
  destruct (pollLoop_spec (pollBudget (minutesOf input * 60 * 1000))
              (input_sessionId input) tool
              (new_Date (now w1 + minutesOf input * 60 * 1000)) w1)
    as (w2 & outcome & -> & Hext2 & Hinv2 & _ & Hfuel).
  assert (outcome = Expired) as ->.
  { apply Hfuel. intros limit. unfold new_Date.
    destruct (decide _); [|done]. intros [= <-].
    pose proof (pollBudget_enough (minutesOf input * 60 * 1000)). lia. }
  pose proof (extends_trans _ _ _ _ _ Hext1 Hext2) as Hext12. simpl in Hext12.
  unfold mbind at 1. unfold mbind at 1.
  destruct (callEntity_spec
              (handleApproval (input_sessionId input) decide_rejected
                 (Some ("Timeout after " +:+ pretty (minutesOf input)
                        +:+ " minutes"))) w2)
    as (w3 & reached3 & -> & _ & _ & _ & Htrace3 & Hp3 & _ & _ & Hinv3).
  eexists. split; [reflexivity|]. split_and!.
  - destruct Hext12 as [Hev Hp12]. split.
    + rewrite Htrace3, gateEvents_snoc, Hev. simpl. by rewrite app_nil_r.
    + by eapply persists_trans.
  - congruence.
  - rewrite Htrace3. by rewrite last_snoc.
Qed.

(** ** The loop over the tool calls *)




(** ** A gated call that nobody decides *)

Lemma entity_leaves_requests op stored h :
  leavesRequests op →
  default [] (pendingApprovals <$> (createConversationEntity op stored h).1.2)
  = default [] (pendingApprovals <$> stored).
Proof.
  intros Hop. unfold createConversationEntity.
  destruct stored as [state|]; by destruct op.
Qed.

Lemma deliver_leaves_requests ops stored h :
  Forall leavesRequests ops →
  default [] (pendingApprovals <$> (deliver ops stored h).1)
  = default [] (pendingApprovals <$> stored).
Proof.
  unfold deliver. intros Hall. revert stored h.
  induction Hall as [|op ops Hop Hall IH]; intros stored h; simpl; [done|].
  pose proof (entity_leaves_requests op stored h Hop) as Hstep.
  destruct (createConversationEntity op stored h) as [[result stored'] h'].
  simpl in *. by rewrite IH.
Qed.

Lemma undecided_head w :
  undecided w →
  Forall leavesRequests (arrivals (default quietTick (head (environment w))))
  ∧ Forall (fun tick => Forall leavesRequests (arrivals tick)) (tail (environment w)).
Proof.
  unfold undecided. destruct (environment w) as [|tick ticks]; simpl.
  - by split.
  - intros H. by apply Forall_cons in H.
Qed.

(** The request that [addApprovalRequest] appends. *)
Lemma entity_files_request stored h session tool args why :
  ∃ created,
    default []
      (pendingApprovals
         <$> (createConversationEntity (addApprovalRequest session tool args why)
                stored h).1.2)
    = default [] (pendingApprovals <$> stored)
      ++ [{| sessionId := session; toolName := tool; toolArgs := args;
             reasoning := why; requestTimestamp := created; status := pending;
             humanResponse := None; humanResponseTimestamp := None |}].
Proof.
  unfold createConversationEntity.
  rewrite <- (OrchestratorEntityFacts.ledger_loadState_by_session stored h).
  destruct (loadState stored h) as [state h0]. simpl. by eexists.
Qed.

(** What [handleApproval] does to the requests. *)
Lemma entity_decides stored h session decision response :
  match list_find (awaitsDecision session) (default [] (pendingApprovals <$> stored)) with
  | Some (i, a) =>
      ∃ decided,
        default []
          (pendingApprovals
             <$> (createConversationEntity (handleApproval session decision response)
                    stored h).1.2)
        = <[i := resolve a decision response decided]>
            (default [] (pendingApprovals <$> stored))
  | None =>
      (createConversationEntity (handleApproval session decision response)
         stored h).1.2
      = stored
  end.
Proof.
  rewrite <- (OrchestratorEntityFacts.ledger_loadState_by_session stored h).
  destruct (list_find _ _) as [[i a]|] eqn:Hfind.
  - rewrite (OrchestratorEntityFacts.handleApproval_by_session_found
               _ _ _ _ _ _ _ Hfind). simpl. by eexists.
  - by rewrite (OrchestratorEntityFacts.handleApproval_by_session_missing
                  _ _ _ _ _ Hfind).
Qed.

(** A call of the entity in surroundings that leave the requests alone. *)
Lemma callEntity_undecided op w :
  undecided w →
  ∃ w' stored h,
    callEntity op w = (w', Returned None)
    ∧ default [] (pendingApprovals <$> stored) = ledger w
    ∧ store w' = (createConversationEntity op stored h).1.2
    ∧ undecided w'
    ∧ invoked w' = invoked w.
Proof.
  intros Hquiet. destruct (undecided_head w Hquiet) as [Hhead Htail].
  destruct (callEntity_spec op w)
    as (w' & reached & Hrun & -> & Hstore & Henv & _ & _ & _ & _ & Hinv).
  exists w', (deliver (arrivals (default quietTick (head (environment w))))
                (store w) (host w)).1,
    (deliver (arrivals (default quietTick (head (environment w))))
       (store w) (host w)).2.
  split; [exact Hrun|]. split_and!; try done.
  - by apply deliver_leaves_requests.
  - unfold undecided. by rewrite Henv.
Qed.

Lemma pollLoop_undecided fuel session tool timeoutDate w :
  undecided w →
  ∃ w' outcome,
    pollLoop fuel session tool timeoutDate w = (w', Returned outcome)
    ∧ ledger w' = ledger w
    ∧ undecided w'.
Proof.
  revert w. induction fuel as [|fuel IH]; intros w Hquiet; simpl.
  - destruct (decide (earlier (now w) timeoutDate)); eexists _, _; by split.
  - destruct (decide (earlier (now w) timeoutDate)); [|eexists _, _; by split].
    unfold mbind at 1, createTimer.
    destruct (undecided_head w Hquiet) as [Hhead Htail].
    destruct (suspend_spec (CreateTimer (now w + 5000)) (now w + 5000) w)
      as (w1 & -> & Hreached & Henv & _).
    assert (Hledger1 : ledger w1 = ledger w).
    { unfold ledger. apply (f_equal fst) in Hreached. simpl in Hreached.
      rewrite Hreached. by apply deliver_leaves_requests. }
    assert (Hquiet1 : undecided w1) by (unfold undecided; by rewrite Henv).
    unfold mbind at 1.
    destruct (callEntity_undecided getState w1 Hquiet1)
      as (w2 & stored & h & -> & Hbefore & Hstore2 & Hquiet2 & _).
    assert (Hledger2 : ledger w2 = ledger w).
    { unfold ledger at 1. rewrite Hstore2, entity_leaves_requests by done.
      by rewrite Hbefore. }
    destruct (IH w2 Hquiet2) as (w3 & outcome & -> & Hledger3 & Hquiet3).
    eexists _, _. split; [reflexivity|]. split; [congruence|done].
Qed.

Lemma list_find_fresh_last {A} (P : A → Prop) `{∀ x, base.Decision (P x)}
    (l : list A) (x : A) :
  Forall (fun a => ¬ P a) l → P x →
  list_find P (l ++ [x]) = Some (length l, x).
Proof.
  intros Hl Hx. rewrite list_find_app_r by by apply list_find_None.
  simpl. rewrite decide_True by done. simpl. do 2 f_equal; lia.
Qed.




End GateFacts.

(* ================================================================== *)
(** * The approval gate of the human-in-the-loop wrapper *)
(* ================================================================== *)

Module WrapperGateFacts.
Import Js Tool OpenAI HumanInLoopDurableAgentWrapper.






End WrapperGateFacts.

(* ================================================================== *)
(** * Routing of tool calls through the approval gate *)
(* ================================================================== *)

Module RoutingFacts.
Import Js Tool OpenAI HumanInLoopDurableAgentOrchestrator.




End RoutingFacts.

(* ================================================================== *)
(** * Further properties of the tool registry *)
(* ================================================================== *)

Module RegistryFacts.
Import Js Tool ToolSpec ToolHelpers MapFacts.

Lemma Map_set_length {V} k (v : V) m :
  length (Map_set k v m)
  = if Map_has k m then length m else S (length m).
Proof.
  unfold Map_has. induction m as [|[k' v'] m IH]; simpl; [done|].
  destruct (String.eqb_spec k k') as [->|Hne]; simpl; [done|].
  rewrite IH. by destruct (Map_get k m).
Qed.

Lemma Map_has_elem {V} k (m : list (string * V)) :
  Map_has k m = true ↔ k ∈ Map_keys m.
Proof.
  unfold Map_has. destruct (Map_get k m) as [v|] eqn:E.
  - split; [|done]. intros _.
    destruct (decide (k ∈ Map_keys m)) as [|Hout]; [done|].
    apply Map_get_None in Hout. congruence.
  - apply Map_get_None in E. split; [discriminate | done].
Qed.

(** X1.  Registering a definition makes its name known and leaves every
    other name as it was: [hasTool] answers true for the new name and as
    before for the others; [executeTool] on the new name runs the new
    definition (as a registry holding only that definition would) and on
    any other name does what it did before; the count and the list of
    names grow by the new name exactly when it was not registered yet. *)
Theorem registerTool_then_lookup (toolDef : ToolDefinition) (this : ToolRegistry) :
  let this' := registerTool toolDef this in
  (∀ n, hasTool this' n = (String.eqb n (name toolDef) || hasTool this n))
  ∧ (∀ args,
       executeTool this' (name toolDef) args
       = executeTool (registerTool toolDef new_ToolRegistry) (name toolDef) args)
  ∧ (∀ n args, n ≠ name toolDef → executeTool this' n args = executeTool this n args)
  ∧ getToolCount this'
    = (if hasTool this (name toolDef) then getToolCount this
       else S (getToolCount this))
  ∧ getToolNames this'
    = (if hasTool this (name toolDef) then getToolNames this
       else getToolNames this ++ [name toolDef]).
Proof.
  intros this'. subst this'. unfold registerTool, hasTool, getToolCount, getToolNames.
  split_and!.
  - intros n. unfold Map_has.
    destruct (String.eqb_spec n (name toolDef)) as [->|Hne]; simpl.
    + by rewrite Map_get_set_eq.
    + by rewrite Map_get_set_ne.
  - intros args. unfold executeTool, new_ToolRegistry.
    by rewrite !Map_get_set_eq.
  - intros n args Hne. unfold executeTool. by rewrite Map_get_set_ne.
  - apply Map_set_length.
  - rewrite Map_keys_set.
    destruct (decide (name toolDef ∈ Map_keys this)) as [Hin|Hout].
    + apply Map_has_elem in Hin. by rewrite Hin.
    + destruct (Map_has (name toolDef) this) eqn:E; [|done].
      apply Map_has_elem in E. done.
Qed.

Lemma registerAll_entry defs k d :
  (k, d) ∈ registerAll defs → name d = k ∧ d ∈ defs.
Proof.
  intros Hin.
  pose proof (ToolFacts.registerAll_NoDup defs new_ToolRegistry (NoDup_nil_2)) as Hnd.
  pose proof (Map_get_NoDup k d _ Hnd Hin) as Hk.
  unfold registerAll in Hk. rewrite ToolFacts.registerAll_get in Hk.
  destruct (lastDefinition k defs) as [d'|] eqn:El; [|done].
  injection Hk as ->. unfold lastDefinition in El.
  apply last_Some in El as [l' El].
  assert (Hin' : d ∈ filter (fun d0 => name d0 = k) defs).
  { rewrite El. apply elem_of_app. right. left. }
  by apply list_elem_of_filter in Hin' as [? ?].
Qed.

(** X2.  After any sequence of [registerTool] calls the registry's views
    agree with each other: [getToolNames] lists every registered name
    once, [getToolCount] is the length of that list, [hasTool] is true
    exactly for the listed names, the listed names are exactly the names
    of the definitions that were registered, [getOpenAISchema] has one
    entry per listed name in the same order, and the health endpoint's
    [toolCount] is the length of its [availableTools]. *)
Theorem getToolNames_lists_each_tool_once (defs : list ToolDefinition) :
  let this := registerAll defs in
  NoDup (getToolNames this)
  ∧ getToolCount this = length (getToolNames this)
  ∧ (∀ n, hasTool this n = true ↔ n ∈ getToolNames this)
  ∧ (∀ n, n ∈ getToolNames this ↔ ∃ d, d ∈ defs ∧ name d = n)
  ∧ schemaNames (getOpenAISchema this) = getToolNames this
  ∧ toolCount (healthTools this) = length (availableTools (healthTools this)).
Proof.
  intros this. subst this. unfold getToolNames, getToolCount, hasTool. split_and!.
  - apply ToolFacts.registerAll_NoDup. apply NoDup_nil_2.
  - unfold Map_keys. by rewrite length_fmap.
  - intros n. apply Map_has_elem.
  - intros n. unfold registerAll. rewrite ToolFacts.registerAll_keys.
    rewrite ToolFacts.firstOccurrences_elem_acc. split.
    + intros [H|H]; [by apply elem_of_nil in H|].
      apply list_elem_of_fmap in H as (d & -> & Hd). by exists d.
    + intros (d & Hd & <-). right. apply list_elem_of_fmap. by exists d.
  - unfold schemaNames, getOpenAISchema, Map_values, Map_keys.
    rewrite <- !list_fmap_compose. apply list_fmap_ext.
    intros i [k d] Hi. simpl. apply list_elem_of_lookup_2 in Hi.
    by destruct (registerAll_entry defs k d Hi).
  - simpl. unfold getToolCount, getToolNames, Map_keys. by rewrite length_fmap.
Qed.

(** X3.  When the argument value is [null] or [undefined] (the model sent
    the text [null] as arguments), a tool that declares parameters is not
    run at all: reading the first declared parameter off the argument
    value throws inside the [try], and [executeTool] returns the error
    text for that [TypeError].  A tool that declares no parameters reads
    nothing and is run as with an empty argument object. *)
Theorem executeTool_without_argument_object
    (reg : ToolRegistry) (toolName : string) (tool : ToolDefinition)
    (args : JsValue) (what : string) :
  Map_get toolName reg = Some tool →
  (args = JNull ∧ what = "null") ∨ (args = JUndefined ∧ what = "undefined") →
  match parameters tool with
  | [] =>
      executeTool reg toolName args = executeTool reg toolName (JObj [])
      ∧ (executeTool reg toolName args).1
        = [{| inv_tool := toolName; inv_args := [] |}]
  | (p, _) :: _ =>
      executeTool reg toolName args
      = ([], Returned ("Error executing " +:+ toolName
                       +:+ ": TypeError: Cannot read properties of " +:+ what
                       +:+ " (reading '" +:+ p +:+ "')"))
  end.
Proof.
  intros Hget Hargs. unfold executeTool, argArray. rewrite Hget.
  destruct (parameters tool) as [|[p param] rest]; simpl.
  - split; [done|]. by destruct (handler tool []).
  - destruct Hargs as [[-> ->]|[-> ->]]; reflexivity.
Qed.

Lemma executeTool_without_argument_object_witness :
  executeTool sample_registry "pair" JNull
  = ([], Returned
           "Error executing pair: TypeError: Cannot read properties of null (reading 'a')").
Proof.
  apply (executeTool_without_argument_object sample_registry "pair" pair_tool
           JNull "null"); [reflexivity | by left].
Defined.

Lemma mapM_getProperty_length args names argv :
  mapM (getProperty args) names = Returned argv → length argv = length names.
Proof.
  revert argv. induction names as [|p names IH]; intros argv; simpl.
  - by intros [= <-].
  - destruct (getProperty args p); simpl; [|discriminate].
    destruct (mapM (getProperty args) names) as [ys|]; simpl; [|discriminate].
    intros [= <-]. simpl. f_equal. by apply IH.
Qed.

(** X4.  Only the declared parameters are read off the argument object:
    two argument objects that agree on the declared parameter names make
    [executeTool] behave the same, whatever else they hold, and the
    handler is called with exactly as many positional arguments as the
    tool declares parameters. *)
Theorem executeTool_reads_declared_parameters_only
    (reg : ToolRegistry) (toolName : string) (tool : ToolDefinition)
    (props props' : list (string * JsValue)) :
  Map_get toolName reg = Some tool →
  (∀ p, p ∈ Object_keys (parameters tool) → Map_get p props = Map_get p props') →
  executeTool reg toolName (JObj props) = executeTool reg toolName (JObj props')
  ∧ ∃ argv,
      (executeTool reg toolName (JObj props)).1
      = [{| inv_tool := toolName; inv_args := argv |}]
      ∧ length argv = length (parameters tool).
Proof.
  intros Hget Hsame. split.
  - unfold executeTool, argArray. rewrite Hget, !ToolFacts.mapM_getProperty_obj.
    assert (Heq : (fun p => default JUndefined (Map_get p props))
                    <$> Object_keys (parameters tool)
                  = (fun p => default JUndefined (Map_get p props'))
                      <$> Object_keys (parameters tool)).
    { apply list_fmap_ext. intros i p Hi.
      by rewrite (Hsame p (list_elem_of_lookup_2 _ _ _ Hi)). }
    by rewrite Heq.
  - rewrite (ToolFacts.executeTool_calls_obj _ _ _ _ Hget).
    eexists. split; [reflexivity|].
    unfold Object_keys. by rewrite !length_fmap.
Qed.

Lemma executeTool_reads_declared_parameters_only_witness :
  executeTool sample_registry "pair" (JObj [("a", JNum 1); ("b", JNum 2)])
  = executeTool sample_registry "pair"
      (JObj [("zzz", JStr "extra"); ("b", JNum 2); ("a", JNum 1)]).
Proof.
  apply (executeTool_reads_declared_parameters_only sample_registry "pair" pair_tool
           [("a", JNum 1); ("b", JNum 2)]
           [("zzz", JStr "extra"); ("b", JNum 2); ("a", JNum 1)]).
  - reflexivity.
  - intros p Hp. simpl in Hp.
    apply elem_of_cons in Hp as [->|Hp]; [reflexivity|].
    apply list_elem_of_singleton in Hp as ->. reflexivity.
Defined.

(** X5.  [createParameter] makes a parameter required unless it is told
    [false]: in the schema of a tool built with [createTool] from
    parameters made by [createParameter], [required] lists, in declaration
    order, the parameters whose third argument was omitted or [true], and
    [properties] lists every parameter with its type and description;
    when the third argument is omitted everywhere, every parameter is
    required. *)
Theorem createParameter_required_by_default
    (toolName toolDescription : string)
    (declared : list (string * (ParamType * string * option bool)))
    (run : list JsValue → Completion string) :
  NoDup declared.*1 →
  let tool :=
    createTool
      {| name := toolName; tool_description := toolDescription;
         parameters :=
           (fun e => (e.1, createParameter e.2.1.1 e.2.1.2 e.2.2)) <$> declared;
         handler := run |} in
  let schema := fn_parameters (function (schemaOf tool)) in
  schema_required schema
  = (filter (fun e => e.2.2 ≠ Some false) declared).*1
  ∧ properties schema
    = (fun e => (e.1, {| ps_type := e.2.1.1; ps_description := e.2.1.2 |}))
        <$> declared
  ∧ (Forall (fun e => e.2.2 = None) declared →
     schema_required schema = declared.*1).
Proof.
  intros Hnd tool schema. subst tool schema. unfold createTool. simpl.
  assert (Hreq : requiredOf ((fun e : string * (ParamType * string * option bool) =>
                                (e.1, createParameter e.2.1.1 e.2.1.2 e.2.2)) <$> declared)
                 = (filter (fun e => e.2.2 ≠ Some false) declared).*1).
  { unfold requiredOf, Object_entries. clear Hnd.
    induction declared as [|[n [[t d] r]] l IH]; [done|].
    rewrite fmap_cons, !filter_cons. simpl.
    destruct r as [[|]|]; simpl; [f_equal; exact IH | exact IH | f_equal; exact IH]. }
  split_and!.
  - exact Hreq.
  - rewrite ToolFacts.propertiesOf_map.
    + rewrite <- list_fmap_compose. by apply list_fmap_ext.
    + unfold Object_keys. rewrite <- list_fmap_compose.
      assert (Hfst : (fst ∘ (fun e : string * (ParamType * string * option bool) =>
                               (e.1, createParameter e.2.1.1 e.2.1.2 e.2.2))) <$> declared
                     = declared.*1) by by apply list_fmap_ext.
      by rewrite Hfst.
  - intros Hall. rewrite Hreq. f_equal. clear Hnd Hreq.
    induction Hall as [|e l He Hall IH]; [done|].
    rewrite filter_cons. destruct (decide (e.2.2 ≠ Some false)) as [_|Hno].
    + simpl. by rewrite IH.
    + exfalso. apply Hno. by rewrite He.
Qed.

Lemma createParameter_required_by_default_witness :
  schema_required
    (fn_parameters
       (function
          (schemaOf
             (createTool
                {| name := "makePayment"; tool_description := "Transfer money";
                   parameters :=
                     [("fromAccount", createParameter TString "Source account" None);
                      ("memo", createParameter TString "Optional memo" (Some false));
                      ("amount", createParameter TNumber "Amount" None)];
                   handler := echo |}))))
  = ["fromAccount"; "amount"].
Proof.
  apply (createParameter_required_by_default "makePayment" "Transfer money"
           [("fromAccount", (TString, "Source account", None));
            ("memo", (TString, "Optional memo", Some false));
            ("amount", (TNumber, "Amount", None))] echo).
  apply (bool_decide_unpack _). vm_compute. reflexivity.
Defined.

End RegistryFacts.

(* ================================================================== *)
(** * The shape of generated identifiers *)
(* ================================================================== *)

Module GuidFacts.
Import Stdlib.Strings.Ascii Guid.

Ltac nibble r H :=
  let Hcases := fresh "Hcases" in
  assert (r = 0 ∨ r = 1 ∨ r = 2 ∨ r = 3 ∨ r = 4 ∨ r = 5 ∨ r = 6 ∨ r = 7
          ∨ r = 8 ∨ r = 9 ∨ r = 10 ∨ r = 11 ∨ r = 12 ∨ r = 13 ∨ r = 14
          ∨ r = 15) as Hcases by lia;
  clear H;
  repeat (destruct Hcases as [->|Hcases]); [..|subst r].

Lemma toString16_digit v :
  0 ≤ v < 16 → toString16 v = String (hexDigit v) EmptyString.
Proof.
  intros Hv. unfold toString16. simpl.
  rewrite Z.mod_small by lia. rewrite Z.div_small by lia. done.
Qed.

Lemma hexDigit_hex v : 0 ≤ v < 16 → isHexDigit (hexDigit v) = true.
Proof. intros Hv. nibble v Hv; reflexivity. Qed.

Lemma variant_bits r :
  0 ≤ r < 16 →
  0 ≤ Z.lor (Z.land r 3) 8 < 16
  ∧ hexDigit (Z.lor (Z.land r 3) 8) ∈ ["8"; "9"; "a"; "b"]%char.
Proof.
  intros Hr.
  nibble r Hr; (split; [split; vm_compute; congruence|]); vm_compute;
    repeat constructor.
Qed.

(** X6.  [generateGuid] draws thirty-one random digits and returns a
    string of 36 characters in the layout of a version-4 UUID: hyphens at
    positions 8, 13, 18 and 23, the digit [4] at position 14, one of [8],
    [9], [a], [b] at position 19 (the draw masked with [r & 0x3 | 0x8]),
    and lower-case hexadecimal digits everywhere else. *)
Theorem generateGuid_is_version4 (random16 : nat → Z) (pos : nat) :
  (∀ n, 0 ≤ random16 n < 16) →
  let guid := (generateGuid random16 pos).1 in
  (generateGuid random16 pos).2 = (pos + 31)%nat
  ∧ String.length guid = 36%nat
  ∧ String.get 8 guid = Some "-"%char
  ∧ String.get 13 guid = Some "-"%char
  ∧ String.get 18 guid = Some "-"%char
  ∧ String.get 23 guid = Some "-"%char
  ∧ String.get 14 guid = Some "4"%char
  ∧ (∃ c, String.get 19 guid = Some c ∧ c ∈ ["8"; "9"; "a"; "b"]%char)
  ∧ (∀ i c, String.get i guid = Some c →
            i ≠ 8%nat → i ≠ 13%nat → i ≠ 18%nat → i ≠ 23%nat →
            isHexDigit c = true).
Proof.
  intros Hrange guid. subst guid. unfold generateGuid, template. simpl.
  rewrite !toString16_digit by (first [apply Hrange | apply variant_bits, Hrange]).
  simpl. split_and!; try reflexivity.
  - f_equal. lia.
  - eexists. split; [reflexivity|]. apply variant_bits, Hrange.
  - intros i c.
    do 36 (destruct i as [|i];
           [simpl; intros [= <-] ? ? ? ?; try done;
            first [apply hexDigit_hex; first [apply Hrange | apply variant_bits, Hrange]
                  | reflexivity]|]).
    simpl. discriminate.
Qed.

Lemma generateGuid_is_version4_witness :
  (generateGuid (fun n => Z.of_nat n mod 16) 0).2 = 31%nat
  ∧ String.length (generateGuid (fun n => Z.of_nat n mod 16) 0).1 = 36%nat.
Proof.
  destruct (generateGuid_is_version4 (fun n => Z.of_nat n mod 16) 0%nat)
    as (Hdraws & Hlength & _).
  - intros n. apply Z.mod_pos_bound. lia.
  - by split.
Defined.

End GuidFacts.

(* ================================================================== *)
(** * Names of durable functions and routes *)
(* ================================================================== *)

Module AgentNameFacts.
Import Js Http AgentNames.

Lemma chars_app s t :
  String.list_ascii_of_string (s +:+ t)
  = String.list_ascii_of_string s ++ String.list_ascii_of_string t.
Proof. induction s as [|c s IH]; simpl; [done|]. by rewrite IH. Qed.

Lemma chars_inj s t :
  String.list_ascii_of_string s = String.list_ascii_of_string t → s = t.
Proof.
  intros H. rewrite <- (String.string_of_list_ascii_of_string s),
              <- (String.string_of_list_ascii_of_string t). by rewrite H.
Qed.

Lemma append_inv_suffix s1 s2 t : s1 +:+ t = s2 +:+ t → s1 = s2.
Proof.
  intros H. apply chars_inj.
  apply (f_equal String.list_ascii_of_string) in H.
  rewrite !chars_app in H. by apply app_inv_tail in H.
Qed.

Lemma append_suffix_iff s1 s2 t : s1 +:+ t = s2 +:+ t ↔ s1 = s2.
Proof. split; [apply append_inv_suffix | by intros ->]. Qed.

(** Two strings whose last [n] characters differ are different. *)
Lemma append_last_differs (n : nat) s1 s2 t1 t2 :
  take n (reverse (String.list_ascii_of_string t1))
  ≠ take n (reverse (String.list_ascii_of_string t2)) →
  (n ≤ String.length t1)%nat → (n ≤ String.length t2)%nat →
  s1 +:+ t1 ≠ s2 +:+ t2.
Proof.
  intros Hlast H1 H2 Heq. apply Hlast.
  assert (Hlen : ∀ t, length (reverse (String.list_ascii_of_string t)) = String.length t).
  { intros t. rewrite length_reverse. induction t as [|c t IH]; simpl; [done|].
    by rewrite IH. }
  apply (f_equal (fun s => take n (reverse (String.list_ascii_of_string s)))) in Heq.
  rewrite !chars_app, !reverse_app in Heq.
  rewrite !take_app_le in Heq by (rewrite Hlen; lia).
  exact Heq.
Qed.

Lemma stripNonAlnum_idemp s : stripNonAlnum (stripNonAlnum s) = stripNonAlnum s.
Proof.
  induction s as [|c s IH]; simpl; [done|].
  destruct (isAlnum c) eqn:E; simpl; [|done]. by rewrite E, IH.
Qed.

(** X7.  The names under which an agent registers its durable functions
    are its name without the characters that are not letters or digits,
    followed by a fixed suffix.  So two agents get the same entity, the
    same orchestrator or the same activity name exactly when their names
    agree after that stripping (as [Math Agent] and [MathAgent] do), an
    entity name is never an orchestrator or activity name, and an
    orchestrator name is never an activity name.  The chat and state
    routes of two agents coincide exactly when the stripped names agree
    up to the case of letters; stripping a stripped name changes
    nothing. *)
Theorem agent_function_names_clash_iff (a b : string) :
  (entityName a = entityName b ↔ agentId a = agentId b)
  ∧ (orchestratorName a = orchestratorName b ↔ agentId a = agentId b)
  ∧ (activityName a = activityName b ↔ agentId a = agentId b)
  ∧ entityName a ≠ orchestratorName b
  ∧ entityName a ≠ activityName b
  ∧ orchestratorName a ≠ activityName b
  ∧ (chatRoute a = chatRoute b ↔ routeId a = routeId b)
  ∧ (stateRoute a = stateRoute b ↔ routeId a = routeId b)
  ∧ (agentId a = agentId b → routeId a = routeId b)
  ∧ agentId (agentId a) = agentId a
  ∧ (∀ this, DurableOpenAiAgentOrchestrator.orchestratorName this
             = orchestratorName
                 (DurableOpenAiAgentOrchestrator.agentName
                    (DurableOpenAiAgentOrchestrator.config this)))
  ∧ (∀ this, HumanInLoopDurableAgentWrapper.orchestratorName this
             = orchestratorName
                 (HumanInLoopDurableAgentWrapper.agentName
                    (HumanInLoopDurableAgentWrapper.config this))).
Proof.
  unfold entityName, orchestratorName, activityName, chatRoute, stateRoute, routeId.
  split_and!; try apply append_suffix_iff.
  - apply (append_last_differs 1); [vm_compute; congruence|simpl; lia|simpl; lia].
  - apply (append_last_differs 5); [vm_compute; congruence|simpl; lia|simpl; lia].
  - apply (append_last_differs 1); [vm_compute; congruence|simpl; lia|simpl; lia].
  - by intros ->.
  - apply stripNonAlnum_idemp.
  - done.
  - done.
Qed.

End AgentNameFacts.

(* ================================================================== *)
(** * The conversation entity and the turns of the durable agent
      orchestrator *)
(* ================================================================== *)

Module ConversationFacts.
Import Js Tool OpenAI Http DurableOpenAiAgentOrchestrator.
Import DurableOpenAiAgentOrchestratorHttp.

Lemma entity_appends op stored h :
  let stored' := (createConversationEntity op stored h).1.2 in
  said <$> historyOf stored' = (said <$> historyOf stored) ++ appended [op]
  ∧ historyOf stored `prefix_of` historyOf stored'
  ∧ (appended [op] = [] → stored' = stored)
  ∧ (appended [op] ≠ [] → is_Some stored')
  ∧ (∀ state, stored = Some state →
       ∃ state', stored' = Some state' ∧ createdAt state' = createdAt state).
Proof.
  unfold createConversationEntity, appended.
  destruct stored as [state|]; destruct op; simpl;
    rewrite ?app_nil_r; split_and!; try done;
    try (by eexists); try (intros ? [= <-]; by eexists);
    try (by apply prefix_app_r); try (by apply prefix_nil).
  unfold historyOf. simpl. by rewrite fmap_app.
Qed.

Lemma deliver_cons op ops stored h :
  deliver (op :: ops) stored h
  = deliver ops (createConversationEntity op stored h).1.2
      (createConversationEntity op stored h).2.
Proof.
  unfold deliver. simpl.
  by destruct (createConversationEntity op stored h) as [[result stored'] h'].
Qed.

(** X8.  Whatever operations the conversation entity of a session
    executes, and in whatever order, its history only grows at the end:
    afterwards it is the history before followed by the messages of the
    [addMessage] operations, in their order.  Operations that add nothing
    ([getState], [getFullHistory], unknown names) persist nothing, so a
    session that was only read still does not exist; [createdAt] never
    changes once the state exists. *)
Theorem conversation_history_is_append_only
    (ops : list Operation) (stored : option ConversationState) (h : Host) :
  let stored' := (deliver ops stored h).1 in
  said <$> historyOf stored' = (said <$> historyOf stored) ++ appended ops
  ∧ historyOf stored `prefix_of` historyOf stored'
  ∧ (appended ops = [] → stored' = stored)
  ∧ (appended ops ≠ [] → is_Some stored')
  ∧ (∀ state, stored = Some state →
       ∃ state', stored' = Some state' ∧ createdAt state' = createdAt state).
Proof.
  revert stored h. induction ops as [|op ops IH]; intros stored h.
  - simpl. rewrite app_nil_r. split_and!; try done. intros state ->. by eexists.
  - rewrite deliver_cons.
    destruct (entity_appends op stored h) as (Hsaid & Hprefix & Hread & Hwrite & Hcreated).
    destruct (IH (createConversationEntity op stored h).1.2
                 (createConversationEntity op stored h).2)
      as (Hsaid' & Hprefix' & Hread' & Hwrite' & Hcreated').
    assert (Happ : appended (op :: ops) = appended [op] ++ appended ops).
    { unfold appended. simpl. by destruct op. }
    cbv zeta. split_and!.
    + rewrite Hsaid', Hsaid, Happ. by rewrite app_assoc.
    + by etrans.
    + rewrite Happ. intros Hnone. apply app_eq_nil in Hnone as [H1 H2].
      rewrite (Hread' H2). by apply Hread.
    + rewrite Happ. intros Hsome.
      destruct (appended ops) as [|x l] eqn:E.
      * rewrite (Hread' eq_refl). apply Hwrite. by rewrite app_nil_r in Hsome.
      * by apply Hwrite'.
    + intros state Hstate. destruct (Hcreated state Hstate) as (state1 & H1 & Hc1).
      destruct (Hcreated' state1 H1) as (state2 & H2 & Hc2).
      exists state2. split; [done|]. congruence.
Qed.

(** ** The loop over the tool calls *)

Lemma runToolCalls_results this calls argvs acc w :
  Forall2 (fun c a => JSON_parse (JSON_ this) (call_arguments c) = Returned a)
    calls argvs →
  ∃ w',
    runToolCalls this calls acc w
    = (w', Returned (acc ++ zip_with (toolMessage this) calls argvs))
    ∧ api_calls w' = api_calls w
    ∧ entities w' = entities w
    ∧ host w' = host w
    ∧ invoked w' = invoked w ++ mjoin (zip_with (invocations this) calls argvs).
Proof.
  intros Hall. revert acc w.
  induction Hall as [|c a calls argvs Hparse Hall IH]; intros acc w; simpl.
  - rewrite !app_nil_r. eexists. by split.
  - unfold mbind at 1, lift. rewrite Hparse.
    unfold mbind at 1, try_catch, callTool, toolMessage, invocations.
    destruct (executeTool (toolRegistry this) (call_name c) a) as [made outcome] eqn:E.
    simpl.
    destruct outcome as [text|error]; simpl.
    + destruct (IH (acc ++ [ToolMessage (call_id c) text])
                  {| entities := entities w; host := host w;
                     api_calls := api_calls w; invoked := invoked w ++ made |})
        as (w' & -> & Hapi & Hent & Hhost & Hinv).
      eexists. split; [by rewrite <- app_assoc|]. simpl in *.
      split_and!; try done. by rewrite Hinv, <- app_assoc.
    + unfold ret.
      destruct (IH (acc ++ [ToolMessage (call_id c) (errorText (call_name c) error)])
                  {| entities := entities w; host := host w;
                     api_calls := api_calls w; invoked := invoked w ++ made |})
        as (w' & -> & Hapi & Hent & Hhost & Hinv).
      eexists. split; [by rewrite <- app_assoc|]. simpl in *.
      split_and!; try done. by rewrite Hinv, <- app_assoc.
Qed.

Lemma runToolCalls_malformed this parsed bad rest argvs acc w e :
  Forall2 (fun c a => JSON_parse (JSON_ this) (call_arguments c) = Returned a)
    parsed argvs →
  JSON_parse (JSON_ this) (call_arguments bad) = Threw e →
  ∃ w',
    runToolCalls this (parsed ++ bad :: rest) acc w = (w', Threw e)
    ∧ api_calls w' = api_calls w
    ∧ entities w' = entities w
    ∧ host w' = host w
    ∧ invoked w' = invoked w ++ mjoin (zip_with (invocations this) parsed argvs).
Proof.
  intros Hall Hbad. revert acc w.
  induction Hall as [|c a calls argvs Hparse Hall IH]; intros acc w; simpl.
  - unfold mbind at 1, lift. rewrite Hbad.
    eexists. split; [reflexivity|]. by rewrite app_nil_r.
  - unfold mbind at 1, lift. rewrite Hparse.
    unfold mbind at 1, try_catch, callTool, invocations.
    destruct (executeTool (toolRegistry this) (call_name c) a) as [made outcome] eqn:E.
    simpl.
    destruct outcome as [text|error]; simpl.
    + destruct (IH (acc ++ [ToolMessage (call_id c) text])
                  {| entities := entities w; host := host w;
                     api_calls := api_calls w; invoked := invoked w ++ made |})
        as (w' & -> & Hapi & Hent & Hhost & Hinv).
      eexists. split; [reflexivity|]. simpl in *.
      split_and!; try done. by rewrite Hinv, <- app_assoc.
    + unfold ret.
      destruct (IH (acc ++ [ToolMessage (call_id c) (errorText (call_name c) error)])
                  {| entities := entities w; host := host w;
                     api_calls := api_calls w; invoked := invoked w ++ made |})
        as (w' & -> & Hapi & Hent & Hhost & Hinv).
      eexists. split; [reflexivity|]. simpl in *.
      split_and!; try done. by rewrite Hinv, <- app_assoc.
Qed.

(** X9.  When the model asks for tool calls whose arguments all parse,
    [executeOpenAIChat] runs every call, in order, and asks the model a
    second time, without tools, with the system prompt, the user message,
    the model's own message and one tool message per call in the order of
    the calls, each carrying the id of its call and the tool's result (or
    the error text when the tool is not registered).  The answer to that
    second request is the result; exactly two requests are made and the
    entities are not touched. *)
Theorem executeOpenAIChat_answers_from_tool_results
    (this : Agent) (message : string) (w : World)
    (completion final : AssistantMessage)
    (calls : list ToolCall) (argvs : list JsValue) :
  openai this (api_calls w) (firstRequest this message) = Returned completion →
  tool_calls completion = Some calls →
  calls ≠ [] →
  Forall2 (fun c a => JSON_parse (JSON_ this) (call_arguments c) = Returned a)
    calls argvs →
  openai this (S (api_calls w))
    (secondRequest this message completion (zip_with (toolMessage this) calls argvs))
  = Returned final →
  ∃ w',
    executeOpenAIChat this message w
    = (w', Returned (string_or (message_content final) "No response generated"))
    ∧ api_calls w' = (api_calls w + 2)%nat
    ∧ invoked w' = invoked w ++ mjoin (zip_with (invocations this) calls argvs)
    ∧ entities w' = entities w.
Proof.
  intros Hfirst Hcalls Hsome Hparse Hsecond.
  unfold executeOpenAIChat, try_catch, mbind at 1, create at 1.
  unfold firstRequest in Hfirst. rewrite Hfirst, Hcalls.
  destruct calls as [|toolCall rest]; [done|].
  unfold mbind at 1.
  destruct (runToolCalls_results this (toolCall :: rest) argvs []
              {| entities := entities w; host := host w;
                 api_calls := S (api_calls w); invoked := invoked w |} Hparse)
    as (w1 & -> & Hapi & Hent & Hhost & Hinv).
  unfold mbind at 1, create. rewrite Hapi. simpl api_calls.
  unfold secondRequest in Hsecond. simpl app in Hsecond. simpl app.
  rewrite Hsecond. unfold ret.
  eexists. split; [reflexivity|]. simpl. split_and!; [lia|done|done].
Qed.

(** X10.  Arguments that are not valid JSON abort the whole request:
    [JSON.parse] is outside the per-tool [try], so [executeOpenAIChat]
    throws ["OpenAI processing failed: ..."] with the parse error.  The
    handlers of the calls in front of the malformed one have already run
    by then; the calls behind it are not run and the model is not asked a
    second time. *)
Theorem executeOpenAIChat_stops_at_malformed_arguments
    (this : Agent) (message : string) (w : World) (completion : AssistantMessage)
    (parsed : list ToolCall) (argvs : list JsValue)
    (bad : ToolCall) (rest : list ToolCall) (e : Thrown) :
  openai this (api_calls w) (firstRequest this message) = Returned completion →
  tool_calls completion = Some (parsed ++ bad :: rest) →
  Forall2 (fun c a => JSON_parse (JSON_ this) (call_arguments c) = Returned a)
    parsed argvs →
  JSON_parse (JSON_ this) (call_arguments bad) = Threw e →
  ∃ w',
    executeOpenAIChat this message w
    = (w', Threw (new_Error ("OpenAI processing failed: " +:+ String_of_thrown e)))
    ∧ api_calls w' = S (api_calls w)
    ∧ invoked w' = invoked w ++ mjoin (zip_with (invocations this) parsed argvs)
    ∧ entities w' = entities w.
Proof.
  intros Hfirst Hcalls Hparse Hbad.
  unfold executeOpenAIChat, try_catch, mbind at 1, create at 1.
  unfold firstRequest in Hfirst. rewrite Hfirst, Hcalls.
  assert (Hshape : ∃ c l, parsed ++ bad :: rest = c :: l).
  { destruct parsed; by eexists _, _. }
  destruct Hshape as (c & l & Hshape). rewrite Hshape, <- Hshape.
  unfold mbind at 1.
  destruct (runToolCalls_malformed this parsed bad rest argvs []
              {| entities := entities w; host := host w;
                 api_calls := S (api_calls w); invoked := invoked w |} e Hparse Hbad)
    as (w1 & -> & Hapi & Hent & Hhost & Hinv).
  eexists. split; [reflexivity|]. by split_and!.
Qed.

(** X11.  A turn that fails has still stored the user's message: the
    history of its session is the history before followed by that one
    message, with no assistant message, other sessions are untouched, and
    the error that the orchestrator rethrows is always of the form
    ["OpenAI processing failed: ..."]. *)
Theorem failed_turn_keeps_user_message
    (this : Agent) (input : OrchestratorInput) (w w' : World) (e : Thrown) :
  createChatOrchestrator this input w = (w', Threw e) →
  (∃ t, readHistory w' (sessionId input)
        = readHistory w (sessionId input)
            ++ [{| role := user; content := message input; timestamp := t |}])
  ∧ (∀ s, s ≠ sessionId input → readHistory w' s = readHistory w s)
  ∧ ∃ cause, e = new_Error ("OpenAI processing failed: " +:+ String_of_thrown cause).
Proof.
  unfold createChatOrchestrator, try_catch, mbind.
  destruct (TurnFacts.callEntity_addMessage (sessionId input) user (message input) w)
    as (w1 & t1 & -> & Hh1 & Ho1).
  pose proof (TurnFacts.quiet_activity this (message input) w1) as [He2 _].
  destruct (activity this (message input) w1) as [w2 [answer|cause]] eqn:Hact;
    simpl in *.
  - destruct (TurnFacts.callEntity_addMessage (sessionId input) assistant answer w2)
      as (w3 & t2 & -> & Hh3 & Ho3).
    discriminate.
  - unfold throw. intros [= <- <-]. split_and!.
    + exists t1. rewrite !TurnFacts.readHistory_historyOf. by rewrite He2, Hh1.
    + intros s Hs. rewrite !TurnFacts.readHistory_historyOf. by rewrite He2, Ho1.
    + revert Hact. unfold activity, executeOpenAIChat, try_catch, throw, processingFailed.
      destruct (mbind _ _ w1) as [w3 [x|err]]; [discriminate|].
      intros [= _ <-]. by eexists.
Qed.

Lemma executeOpenAIChat_answers_from_tool_results_witness :
  (executeOpenAIChat AgentSamples.mathAgent "What is 9 squared?"
     AgentSamples.freshWorld).2
  = Returned "Result: The square of 9 is 81".
Proof.
  destruct (executeOpenAIChat_answers_from_tool_results AgentSamples.mathAgent
              "What is 9 squared?" AgentSamples.freshWorld
              TurnSamples.squareAnswer TurnSamples.squareReport
              [TurnSamples.squareCall] [JObj [("number", JNum 9)]])
    as (w' & Hrun & _).
  - reflexivity.
  - reflexivity.
  - discriminate.
  - constructor; [reflexivity | constructor].
  - reflexivity.
  - by rewrite Hrun.
Defined.

Lemma executeOpenAIChat_stops_at_malformed_arguments_witness :
  ∃ w',
    executeOpenAIChat TurnSamples.garbledAgent "What is 9 squared?"
      AgentSamples.freshWorld
    = (w', Threw (new_Error
                    "OpenAI processing failed: SyntaxError: Unexpected token"))
    ∧ invoked w' = [{| inv_tool := "calculateSquare"; inv_args := [JNum 9] |}].
Proof.
  destruct (executeOpenAIChat_stops_at_malformed_arguments TurnSamples.garbledAgent
              "What is 9 squared?" AgentSamples.freshWorld
              TurnSamples.garbledAnswer
              [TurnSamples.squareCall] [JObj [("number", JNum 9)]]
              TurnSamples.garbledCall [TurnSamples.squareCall]
              (ThrowError "SyntaxError" "Unexpected token"))
    as (w' & Hrun & _ & Hinv & _).
  - reflexivity.
  - reflexivity.
  - constructor; [reflexivity | constructor].
  - reflexivity.
  - exists w'. split; [exact Hrun | exact Hinv].
Defined.

Lemma failed_turn_keeps_user_message_witness :
  said <$> readHistory
             (createChatOrchestrator TurnSamples.offlineAgent TurnSamples.squareTurn
                AgentSamples.freshWorld).1 "s1"
  = [(user, "What is 9 squared?")].
Proof.
  destruct (failed_turn_keeps_user_message TurnSamples.offlineAgent
              TurnSamples.squareTurn AgentSamples.freshWorld
              (createChatOrchestrator TurnSamples.offlineAgent TurnSamples.squareTurn
                 AgentSamples.freshWorld).1
              (new_Error "OpenAI processing failed: Error: 401 Incorrect API key provided"))
    as ([t Hhistory] & _).
  - reflexivity.
  - simpl sessionId in Hhistory. rewrite Hhistory. reflexivity.
Defined.

(** ** The state endpoint after completed turns *)

Lemma turn_frame this input w :
  ∀ s, s ≠ sessionId input →
       entities (createChatOrchestrator this input w).1 !! s = entities w !! s.
Proof.
  intros s Hs. unfold createChatOrchestrator, try_catch, mbind.
  destruct (TurnFacts.callEntity_addMessage (sessionId input) user (message input) w)
    as (w1 & t1 & -> & Hh1 & Ho1).
  pose proof (TurnFacts.quiet_activity this (message input) w1) as [He2 _].
  destruct (activity this (message input) w1) as [w2 [answer|cause]]; simpl in *.
  - destruct (TurnFacts.callEntity_addMessage (sessionId input) assistant answer w2)
      as (w3 & t2 & -> & Hh3 & Ho3).
    simpl. by rewrite (Ho3 s Hs), He2, (Ho1 s Hs).
  - by rewrite He2, (Ho1 s Hs).
Qed.

Lemma turn_creates_entity this input w w' out :
  createChatOrchestrator this input w = (w', Returned out) →
  is_Some (entities w' !! sessionId input).
Proof.
  intros Hturn.
  destruct (TurnFacts.chatOrchestrator_completed _ _ _ _ _ Hturn) as [(t1 & t2 & Hmine) _].
  rewrite !TurnFacts.readHistory_historyOf in Hmine.
  destruct (entities w' !! sessionId input) as [state|]; [by eexists|].
  simpl in Hmine. by destruct (historyOf (entities w !! sessionId input)).
Qed.

Lemma runTurns_entities this inputs outs w session :
  (runTurns this inputs w).2 = Returned <$> outs →
  let w' := (runTurns this inputs w).1 in
  said <$> historyOf (entities w' !! session)
  = (said <$> historyOf (entities w !! session)) ++ transcript session (zip inputs outs)
  ∧ (is_Some (entities w !! session) → is_Some (entities w' !! session))
  ∧ (transcript session (zip inputs outs) ≠ [] → is_Some (entities w' !! session))
  ∧ (transcript session (zip inputs outs) = [] →
     entities w' !! session = entities w !! session).
Proof.
  revert outs w. induction inputs as [|input rest IH]; intros outs w Hall; simpl.
  - rewrite app_nil_r. by split_and!.
  - simpl in Hall.
    pose proof (turn_frame this input w) as Hframe.
    destruct (createChatOrchestrator this input w) as [w1 outcome] eqn:Hturn.
    destruct (runTurns this rest w1) as [w2 outcomes] eqn:Hrest.
    simpl in Hall. destruct outs as [|out outs']; [discriminate|].
    simpl in Hall. injection Hall as -> Hall.
    specialize (IH outs' w1). rewrite Hrest in IH. simpl in IH.
    destruct (IH Hall) as (Hsaid & Hkeep & Hnew & Hsame).
    destruct (TurnFacts.chatOrchestrator_completed _ _ _ _ _ Hturn)
      as [(t1 & t2 & Hmine) Hother].
    pose proof (turn_creates_entity _ _ _ _ _ Hturn) as Hexists.
    simpl in *. rewrite TurnFacts.transcript_cons.
    destruct (decide (sessionId input = session)) as [<-|Hne].
    + rewrite !TurnFacts.readHistory_historyOf in Hmine.
      split_and!.
      * rewrite Hsaid, Hmine, fmap_app. by rewrite <- app_assoc.
      * intros _. by apply Hkeep.
      * intros _. by apply Hkeep.
      * discriminate.
    + rewrite (Hframe session) in * by done. simpl. by split_and!.
Qed.

Lemma slice_last_fmap {A B} (f : A → B) n (l : list A) :
  f <$> slice_last n l = slice_last n (f <$> l).
Proof. unfold slice_last. by rewrite fmap_drop, length_fmap. Qed.

(** X12.  After a sequence of turns that all completed, the state
    endpoint asked for a session answers 404 [Session not found] when the
    session had no entity before and none of the turns was on it;
    otherwise it answers 200, its [messageCount] is the earlier count plus
    two per turn on the session, and its [recentMessages] are the last
    five (or fewer, when there are fewer) of the earlier messages followed
    by the user message and the response of each turn on the session, in
    order. *)
Theorem state_endpoint_after_turns
    (this : Agent) (inputs : list OrchestratorInput)
    (outs : list OrchestratorOutput) (w : World) (session : string) :
  (runTurns this inputs w).2 = Returned <$> outs →
  session ≠ EmptyString →
  let w' := (runTurns this inputs w).1 in
  let turns := filter (fun t => sessionId t.1 = session) (zip inputs outs) in
  let answer := createStateEndpoint (readEntityState w') (Some session) in
  (entities w !! session = None → turns = [] →
   state_status answer = 404 ∧ state_error answer = Some "Session not found")
  ∧ (is_Some (entities w !! session) ∨ turns ≠ [] →
     state_status answer = 200
     ∧ state_messageCount answer
       = Some (length (readHistory w session) + 2 * length turns)%nat
     ∧ ∃ recent,
         state_recentMessages answer = Some recent
         ∧ said <$> recent
           = slice_last 5 ((said <$> readHistory w session)
                           ++ transcript session (zip inputs outs))
         ∧ length recent
           = Nat.min (length (readHistory w session) + 2 * length turns) 5).
Proof.
  intros Hall Hsession w' turns answer.
  destruct (runTurns_entities this inputs outs w session Hall)
    as (Hsaid & Hkeep & Hnew & Hsame).
  fold w' in Hsaid, Hkeep, Hnew, Hsame.
  assert (Htr : ∀ l : list (OrchestratorInput * OrchestratorOutput),
            length (transcript session l)
            = (2 * length (filter (fun t => sessionId t.1 = session) l))%nat).
  { induction l as [|[i o] l IHl]; [done|].
    rewrite TurnFacts.transcript_cons, filter_cons, length_app. simpl.
    destruct (decide (sessionId i = session)); simpl; lia. }
  assert (Hempty : transcript session (zip inputs outs) = [] ↔ turns = []).
  { specialize (Htr (zip inputs outs)). fold turns in Htr.
    split; intros H.
    - rewrite H in Htr. simpl in Htr. destruct turns; [done|simpl in Htr; lia].
    - rewrite H in Htr. simpl in Htr.
      by destruct (transcript session (zip inputs outs)). }
  subst answer. unfold createStateEndpoint, readEntityState. simpl.
  destruct session as [|c session']; [done|]. simpl.
  set (session := String c session') in *.
  split.
  - intros Hnone Hturns. apply Hempty in Hturns. rewrite (Hsame Hturns), Hnone. done.
  - intros Hexists.
    assert (Hsome : is_Some (entities w' !! session)).
    { destruct Hexists as [H|H]; [by apply Hkeep|]. apply Hnew.
      intros E. by apply Hempty in E. }
    destruct Hsome as [state Hstate]. rewrite Hstate. simpl.
    rewrite Hstate in Hsaid.
    change (historyOf (Some state)) with (chatHistory state) in Hsaid.
    rewrite TurnFacts.readHistory_historyOf.
    assert (Hlen : length (chatHistory state)
                   = (length (historyOf (entities w !! session)) + 2 * length turns)%nat).
    { apply (f_equal length) in Hsaid.
      rewrite length_app, !length_fmap, Htr in Hsaid. exact Hsaid. }
    split_and!; [done|by rewrite Hlen|].
    exists (slice_last 5 (chatHistory state)). split_and!.
    + done.
    + by rewrite slice_last_fmap, Hsaid.
    + unfold slice_last. rewrite length_drop, Hlen. lia.
Qed.

Lemma state_endpoint_after_turns_witness :
  state_messageCount
    (createStateEndpoint
       (readEntityState
          (runTurns AgentSamples.mathAgent AgentSamples.threeTurns
             AgentSamples.freshWorld).1)
       (Some "s1"))
  = Some 4%nat.
Proof.
  destruct (state_endpoint_after_turns AgentSamples.mathAgent AgentSamples.threeTurns
              AgentSamples.threeAnswers AgentSamples.freshWorld "s1")
    as (_ & Hfound).
  - vm_compute. reflexivity.
  - discriminate.
  - destruct Hfound as (_ & Hcount & _).
    + right. vm_compute. discriminate.
    + rewrite Hcount. reflexivity.
Defined.

End ConversationFacts.

(* ================================================================== *)
(** * The chat endpoint of the durable agent orchestrator *)
(* ================================================================== *)

Module ChatEndpointFacts.
Import Js Http DurableOpenAiAgentOrchestrator.

Lemma substring_check_cases v :
  (∃ m, v = JStr m ∧ substring_check v = Returned tt)
  ∨ ((∀ m, v ≠ JStr m)
     ∧ substring_check v
       = Threw (ThrowError "TypeError" "message.substring is not a function")).
Proof. destruct v; try (by right); left; by eexists. Qed.

(** X13.  The chat endpoint of the durable agent orchestrator starts at
    most one orchestration per request and answers 200, 202 or 500.  It
    starts none exactly when the body cannot be read or the chosen message
    is not a string; it answers 500 exactly when it started none or
    [startNew] failed; it answers 200 exactly when the orchestration was
    started and its status carries an output, and 202 otherwise (a failing
    [getStatus] is caught and also gives 202).  The orchestration it
    starts is this agent's, with the message of the body and with the
    session id of the body, else of the route, else a fresh one. *)
Theorem chat_endpoint_outcomes
    (this : Agent) (client : DurableClient) (request : HttpRequest) (h : Host) :
  let outcome := createChatEndpoint this client request h in
  let answer := outcome.1.1 in
  let started := outcome.1.2 in
  (length started ≤ 1)%nat
  ∧ (http_status answer = 200 ∨ http_status answer = 202 ∨ http_status answer = 500)
  ∧ (started = []
     ↔ (∃ e, json request = Threw e)
       ∨ (∃ body, json request = Returned body ∧ ∀ m, messageOf body ≠ JStr m))
  ∧ (http_status answer = 500
     ↔ started = []
       ∨ (∃ input e, started = [input] ∧ startNew client input = Threw e))
  ∧ (http_status answer = 200
     ↔ ∃ input instanceId result,
         started = [input]
         ∧ startNew client input = Returned instanceId
         ∧ getStatus client instanceId = Returned (Some result))
  ∧ (∀ input, started = [input] →
       start_orchestrator input = orchestratorName this
       ∧ ∃ body,
           json request = Returned body
           ∧ start_message input = messageOf body
           ∧ start_sessionId input
             = if truthy (getOptional body "sessionId")
               then getOptional body "sessionId"
               else if isEmpty (default EmptyString (params_sessionId request))
                    then JStr ("session-" +:+ (generateGuid h).1)
                    else JStr (default EmptyString (params_sessionId request))).
Proof.
  unfold createChatEndpoint.
  destruct (json request) as [body|e0] eqn:Hjson; simpl.
  2:{ split_and!.
      - lia.
      - auto.
      - split; [|done]. intros _. left. by exists e0.
      - split; [|done]. intros _. by left.
      - split; [done|]. by intros (? & ? & ? & ? & _).
      - done. }
  assert (Hsession : (sessionOf body (params_sessionId request) h).1
                     = if truthy (getOptional body "sessionId")
                       then getOptional body "sessionId"
                       else if isEmpty (default EmptyString (params_sessionId request))
                            then JStr ("session-" +:+ (generateGuid h).1)
                            else JStr (default EmptyString (params_sessionId request))).
  { unfold sessionOf. destruct (truthy (getOptional body "sessionId")); [done|].
    destruct (isEmpty (default EmptyString (params_sessionId request))); simpl; [|done].
    by destruct (generateGuid h). }
  destruct (sessionOf body (params_sessionId request) h) as [session h1].
  simpl in Hsession.
  destruct (substring_check_cases (messageOf body)) as [(m & Hmessage & ->)|[Hno ->]];
    simpl.
  2:{ split_and!.
      - lia.
      - auto.
      - split; [|done]. intros _. right. by exists body.
      - split; [|done]. intros _. by left.
      - split; [done|]. by intros (? & ? & ? & ? & _).
      - done. }
  rewrite Hmessage.
  set (input := {| start_orchestrator := orchestratorName this;
                   start_message := JStr m; start_sessionId := session |}).
  assert (Hnot : ¬ ((∃ e, Returned body = Threw e)
                    ∨ (∃ body0, Returned body = Returned body0
                                ∧ ∀ m0, messageOf body0 ≠ JStr m0))).
  { intros [[e He]|(body0 & [= <-] & Hno)]; [done|]. by apply (Hno m). }
  assert (Hinput : ∀ i, [input] = [i] →
            start_orchestrator i = orchestratorName this
            ∧ ∃ body0, Returned body = Returned body0
                ∧ start_message i = messageOf body0
                ∧ start_sessionId i
                  = if truthy (getOptional body0 "sessionId")
                    then getOptional body0 "sessionId"
                    else if isEmpty (default EmptyString (params_sessionId request))
                         then JStr ("session-" +:+ (generateGuid h).1)
                         else JStr (default EmptyString (params_sessionId request))).
  { intros i [= <-]. split; [done|]. exists body. by rewrite Hmessage. }
  destruct (startNew client input) as [instanceId|e1] eqn:Hstart; simpl.
  - destruct (getStatus client instanceId) as [[result|]|e2] eqn:Hstatus; simpl.
    + split_and!.
      * lia.
      * auto.
      * split; [done|]. intros H. by destruct (Hnot H).
      * split; [done|]. intros [H|(i & e & [= <-] & He)]; [done|congruence].
      * split; [|done]. intros _. by exists input, instanceId, result.
      * exact Hinput.
    + split_and!.
      * lia.
      * auto.
      * split; [done|]. intros H. by destruct (Hnot H).
      * split; [done|]. intros [H|(i & e & [= <-] & He)]; [done|congruence].
      * split; [done|]. intros (i & inst & res & [= <-] & Hs & Hr). congruence.
      * exact Hinput.
    + split_and!.
      * lia.
      * auto.
      * split; [done|]. intros H. by destruct (Hnot H).
      * split; [done|]. intros [H|(i & e & [= <-] & He)]; [done|congruence].
      * split; [done|]. intros (i & inst & res & [= <-] & Hs & Hr). congruence.
      * exact Hinput.
  - split_and!.
    + lia.
    + auto.
    + split; [done|]. intros H. by destruct (Hnot H).
    + split; [|done]. intros _. right. by exists input, e1.
    + split; [done|]. intros (i & inst & res & [= <-] & Hs & Hr). congruence.
    + exact Hinput.
Qed.

End ChatEndpointFacts.

(* ================================================================== *)
(** * The in-memory approvals of the human-in-the-loop wrapper *)
(* ================================================================== *)

Module WrapperApprovalFacts.
Import Js Tool OpenAI Http HumanInLoopDurableAgentWrapper.
Import HumanInLoopDurableAgentWrapperHttp MapFacts.

Lemma Map_get_Some_key {V} k (v : V) m : Map_get k m = Some v → k ∈ Map_keys m.
Proof.
  intros Hget. destruct (decide (k ∈ Map_keys m)) as [|Hout]; [done|].
  apply Map_get_None in Hout. congruence.
Qed.

Lemma Map_keys_set_known {V} k (v v0 : V) m :
  Map_get k m = Some v0 → Map_keys (Map_set k v m) = Map_keys m.
Proof.
  intros Hget. rewrite Map_keys_set.
  rewrite decide_True; [done|]. by eapply Map_get_Some_key.
Qed.

(** X14.  [processApprovalDecision] on an id that the in-memory map does
    not hold answers [false] and changes nothing.  On an id that the map
    holds it always answers [true], whatever the status of the record (it
    does not ask whether the approval is still pending): the record gets
    the new status, feedback and decision time and keeps its tool, its
    arguments, its session and its place in the map; no other record is
    touched.  The tool is run exactly when the decision is an approval,
    once, with the recorded name and arguments; its result is recorded as
    [executionResult], and when running it throws (the tool is not
    registered) the error text is recorded as [executionError] and
    nothing is thrown. *)
Theorem processApprovalDecision_outcome
    (this : Agent) (approvalId : string) (isApproved : bool)
    (feedback : option string) (w : World) :
  match getPendingApproval approvalId w with
  | None =>
      processApprovalDecision this approvalId isApproved feedback w = (w, Returned false)
  | Some approval =>
      let ran :=
        executeTool (toolRegistry this) (sa_toolName approval) (sa_toolArgs approval) in
      ∃ w' decided,
        processApprovalDecision this approvalId isApproved feedback w
        = (w', Returned true)
        ∧ getPendingApproval approvalId w' = Some decided
        ∧ (∀ other, other ≠ approvalId →
             getPendingApproval other w' = getPendingApproval other w)
        ∧ Map_keys (approvalMap w') = Map_keys (approvalMap w)
        ∧ sa_status decided = (if isApproved then approved else rejected)
        ∧ sa_feedback decided = feedback
        ∧ sa_decidedAt decided = Some (Date_now (host w)).1
        ∧ sa_toolName decided = sa_toolName approval
        ∧ sa_toolArgs decided = sa_toolArgs approval
        ∧ sa_sessionId decided = sa_sessionId approval
        ∧ events w'
          = events w
            ++ (if isApproved
                then [ToolExecuted (sa_toolName approval) (sa_toolArgs approval)]
                else [])
        ∧ invoked w' = invoked w ++ (if isApproved then ran.1 else [])
        ∧ (sa_executionResult decided, sa_executionError decided)
          = (if isApproved then
               match ran.2 with
               | Returned result => (Some result, sa_executionError approval)
               | Threw error =>
                   (sa_executionResult approval, Some (String_of_thrown error))
               end
             else (sa_executionResult approval, sa_executionError approval))
  end.
Proof.
  unfold getPendingApproval, processApprovalDecision.
  destruct (Map_get approvalId (approvalMap w)) as [approval|] eqn:Hget; [|done].
  cbv zeta.
  unfold mbind at 1, readClock.
  destruct (Date_now (host w)) as [decidedAt h1] eqn:Hclock. simpl.
  destruct isApproved.
  - unfold mbind at 1, try_catch, mbind at 1, callTool. simpl.
    destruct (executeTool (toolRegistry this) (sa_toolName approval)
                (sa_toolArgs approval)) as [made [result|error]] eqn:Hrun; simpl.
    + unfold mbind, readClock, ret, setApproval. simpl.
      destruct (Date_now h1) as [executedAt h2] eqn:Hclock2. simpl.
      eexists _, _. split; [reflexivity|]. simpl.
      rewrite Map_get_set_eq. split_and!; try done;
        try (intros other Hother; by apply Map_get_set_ne);
        try (by eapply Map_keys_set_known); try (by rewrite app_nil_r).
    + unfold mbind, ret, setApproval. simpl.
      eexists _, _. split; [reflexivity|]. simpl.
      rewrite Map_get_set_eq. split_and!; try done;
        try (intros other Hother; by apply Map_get_set_ne);
        try (by eapply Map_keys_set_known); try (by rewrite app_nil_r).
  - unfold mbind, ret, setApproval. simpl.
    eexists _, _. split; [reflexivity|]. simpl.
    rewrite Map_get_set_eq. split_and!; try done;
      try (intros other Hother; by apply Map_get_set_ne);
      try (by eapply Map_keys_set_known); try (by rewrite app_nil_r).
Qed.

Lemma requestHumanApproval_stores session tool args why w :
  ∃ w' approvalResult data,
    requestHumanApproval session tool args why w = (w', Returned approvalResult)
    ∧ decision approvalResult = decide_approved
    ∧ events w' = events w ++ [ApprovalStored tool]
    ∧ approvalMap w'
      = Map_set (approvalIdOf session tool (Date_now (host w)).1) data (approvalMap w)
    ∧ sa_toolName data = tool
    ∧ sa_toolArgs data = args
    ∧ sa_sessionId data = session
    ∧ sa_status data = pending.
Proof.
  unfold requestHumanApproval, mbind, readClock, storePendingApproval, ret, approvalIdOf.
  destruct (Date_now (host w)) as [stamp h1] eqn:E1. simpl.
  destruct (Date_now h1) as [t h2] eqn:E2. simpl.
  eexists _, _, _. split; [reflexivity|]. simpl. by split_and!.
Qed.

(** Deciding an approval that the map holds. *)
Lemma processApprovalDecision_held this approvalId ok fb w approval :
  getPendingApproval approvalId w = Some approval →
  ∃ w' decided,
    processApprovalDecision this approvalId ok fb w = (w', Returned true)
    ∧ approvalMap w' = Map_set approvalId decided (approvalMap w)
    ∧ sa_status decided = (if ok then approved else rejected)
    ∧ sa_feedback decided = fb
    ∧ sa_toolName decided = sa_toolName approval
    ∧ sa_toolArgs decided = sa_toolArgs approval
    ∧ invoked w'
      = invoked w
        ++ (if ok
            then (executeTool (toolRegistry this) (sa_toolName approval)
                    (sa_toolArgs approval)).1
            else [])
    ∧ events w'
      = events w
        ++ (if ok
            then [ToolExecuted (sa_toolName approval) (sa_toolArgs approval)]
            else []).
Proof.
  unfold getPendingApproval. intros Hget.
  unfold processApprovalDecision. rewrite Hget.
  unfold mbind at 1, readClock.
  destruct (Date_now (host w)) as [decidedAt h1]. simpl.
  destruct ok.
  - unfold mbind at 1, try_catch, mbind at 1, callTool. simpl.
    destruct (executeTool _ _ _) as [made [result|error]]; simpl.
    + unfold mbind, readClock, ret, setApproval. simpl.
      destruct (Date_now h1) as [executedAt h2]. simpl.
      eexists _, _. split; [reflexivity|]. simpl. by split_and!.
    + unfold mbind, ret, setApproval. simpl.
      eexists _, _. split; [reflexivity|]. simpl. by split_and!.
  - unfold mbind, ret, setApproval. simpl.
    eexists _, _. split; [reflexivity|]. simpl. rewrite !app_nil_r. by split_and!.
Qed.

Lemma processApprovalDecision_missing this approvalId ok fb w :
  getPendingApproval approvalId w = None →
  processApprovalDecision this approvalId ok fb w = (w, Returned false).
Proof.
  unfold getPendingApproval, processApprovalDecision. by intros ->.
Qed.

(** X15.  In the wrapper a tool that requires approval is executed while
    its approval is still pending: processing the call stores one pending
    approval under the id made of session, tool and timestamp, runs the
    tool and answers with [HUMAN APPROVED] and the tool's result.  The
    stored approval is then listed as pending, and deciding it succeeds;
    when the decision is an approval the tool is executed a second time
    with the same arguments, and when it is a rejection the first
    execution stands. *)
Theorem approved_gated_tool_runs_twice
    (this : Agent) (session : string) (completion : AssistantMessage)
    (toolCall : ToolCall) (toolArgs : JsValue)
    (isApproved : bool) (feedback : option string) (w : World) :
  call_name toolCall ∈ humanApprovalTools this →
  argumentsOf this toolCall = Returned toolArgs →
  hasTool (toolRegistry this) (call_name toolCall) = true →
  let tool := call_name toolCall in
  let approvalId := approvalIdOf session tool (Date_now (host w)).1 in
  let w1 := (gatedToolCall this session completion toolCall w).1 in
  let w2 := (processApprovalDecision this approvalId isApproved feedback w1).1 in
  (∃ text, (gatedToolCall this session completion toolCall w).2
           = Returned ("[HUMAN APPROVED] " +:+ text))
  ∧ events w1 = events w ++ [ApprovalStored tool; ToolExecuted tool toolArgs]
  ∧ (∃ data, (approvalId, data) ∈ getPendingApprovals w1
             ∧ sa_toolName data = tool ∧ sa_toolArgs data = toolArgs)
  ∧ (processApprovalDecision this approvalId isApproved feedback w1).2 = Returned true
  ∧ events w2
    = events w
      ++ [ApprovalStored tool; ToolExecuted tool toolArgs]
      ++ (if isApproved then [ToolExecuted tool toolArgs] else []).
Proof.
  intros Hgated Hparse Hreg tool approvalId w1 w2. subst tool.
  assert (Hfirst :
    ∃ w' text data,
      gatedToolCall this session completion toolCall w
      = (w', Returned ("[HUMAN APPROVED] " +:+ text))
      ∧ events w' = events w ++ [ApprovalStored (call_name toolCall);
                          ToolExecuted (call_name toolCall) toolArgs]
      ∧ approvalMap w' = Map_set approvalId data (approvalMap w)
      ∧ sa_toolName data = call_name toolCall ∧ sa_toolArgs data = toolArgs
      ∧ sa_status data = pending).
  { unfold gatedToolCall, mbind at 1, lift.
    unfold argumentsOf in Hparse. rewrite Hparse.
    rewrite decide_True by done. unfold mbind at 1.
    destruct (requestHumanApproval_stores session (call_name toolCall) toolArgs
                (string_or (message_content completion)
                   ("The AI wants to execute " +:+ call_name toolCall
                    +:+ " with the provided arguments.")) w)
      as (wa & approvalResult & data & -> & -> & Hev & Hmap & Hn & Ha & _ & Hst).
    unfold mbind at 1, callTool.
    destruct (GateFacts.executeTool_registered _ _ toolArgs Hreg) as [text Hrun].
    destruct (executeTool (toolRegistry this) (call_name toolCall) toolArgs)
      as [made outcome]. simpl in Hrun. subst outcome. unfold ret.
    eexists _, _, data. split; [reflexivity|]. simpl.
    split_and!; try done. by rewrite Hev, <- app_assoc. }
  destruct Hfirst as (wa & text & data & Hrun & Hev & Hmap & Hn & Ha & Hst).
  subst w2 w1. rewrite Hrun. simpl.
  destruct (processApprovalDecision_held this approvalId isApproved feedback wa data)
    as (wb & decided & -> & _ & _ & _ & _ & _ & _ & Hev2).
  { unfold getPendingApproval. by rewrite Hmap, Map_get_set_eq. }
  rewrite Hn, Ha in Hev2.
  simpl. split_and!.
  - by exists text.
  - done.
  - exists data. split_and!; [|done|done].
    unfold getPendingApprovals. apply list_elem_of_filter. split; [done|].
    rewrite Hmap. apply Map_get_Some_elem, Map_get_set_eq.
  - done.
  - rewrite Hev2, Hev. by rewrite <- app_assoc.
Qed.

Lemma approved_gated_tool_runs_twice_witness :
  invoked
    (processApprovalDecision WrapperGateSamples.wrapperAgent
       "approval-s1-makePayment-0" true (Some "go ahead")
       WrapperGateSamples.afterPayment).1
  = [{| inv_tool := "makePayment"; inv_args := [JNum 100] |};
     {| inv_tool := "makePayment"; inv_args := [JNum 100] |}]
  ∧ events
      (processApprovalDecision WrapperGateSamples.wrapperAgent
         "approval-s1-makePayment-0" true (Some "go ahead")
         WrapperGateSamples.afterPayment).1
    = [ApprovalStored "makePayment";
       ToolExecuted "makePayment" (JObj [("amount", JNum 100)]);
       ToolExecuted "makePayment" (JObj [("amount", JNum 100)])].
Proof.
  split; [reflexivity|].
  destruct (approved_gated_tool_runs_twice WrapperGateSamples.wrapperAgent "s1"
              WrapperGateSamples.paymentAnswer GateSamples.paymentCall
              (JObj [("amount", JNum 100)]) true (Some "go ahead")
              WrapperGateSamples.emptyWorld)
    as (_ & _ & _ & _ & Hevents).
  - simpl. apply elem_of_union. left. by apply elem_of_singleton.
  - reflexivity.
  - reflexivity.
  - exact Hevents.
Defined.

Lemma filter_other_keys {V} (Q : string * V → Prop) `{∀ e, base.Decision (Q e)}
    (k : string) (m : list (string * V)) :
  k ∉ m.*1 → filter (fun e => e.1 ≠ k) (filter Q m) = filter Q m.
Proof.
  induction m as [|[k' v'] m IH]; simpl; [done|].
  rewrite not_elem_of_cons. intros [Hne Hout].
  rewrite (filter_cons Q). destruct (decide (Q (k', v'))).
  - rewrite filter_cons_True by (simpl; congruence). f_equal. by apply IH.
  - by apply IH.
Qed.

Lemma filter_Map_set_decided {V} (Q : string * V → Prop) `{∀ e, base.Decision (Q e)}
    k (v v0 : V) (m : list (string * V)) :
  NoDup (Map_keys m) → Map_get k m = Some v0 → ¬ Q (k, v) →
  filter Q (Map_set k v m) = filter (fun e => e.1 ≠ k) (filter Q m).
Proof.
  unfold Map_keys. induction m as [|[k' v'] m IH]; simpl; [done|].
  rewrite NoDup_cons. intros [Hfresh Hnd] Hget Hv.
  destruct (String.eqb_spec k k') as [->|Hne].
  - injection Hget as ->.
    rewrite (filter_cons_False _ (k', v)) by done.
    rewrite (filter_cons _ (k', v0)). destruct (decide (Q (k', v0))).
    + rewrite filter_cons_False by (simpl; by intros Hk; apply Hk).
      by rewrite filter_other_keys.
    + by rewrite filter_other_keys.
  - rewrite !(filter_cons _ (k', v')).
    destruct (decide (Q (k', v'))); [|by apply IH].
    rewrite filter_cons_True by (simpl; congruence).
    f_equal. by apply IH.
Qed.

(** X16.  Deciding an approval that the in-memory map holds, whether it is
    approved or rejected, removes exactly that approval from the list that
    [getPendingApprovals] returns: the other pending approvals stay, in
    their order, and the ids of the map stay distinct. *)
Theorem decided_approval_leaves_pending_list
    (this : Agent) (approvalId : string) (isApproved : bool)
    (feedback : option string) (w : World) :
  NoDup (Map_keys (approvalMap w)) →
  is_Some (getPendingApproval approvalId w) →
  let w' := (processApprovalDecision this approvalId isApproved feedback w).1 in
  getPendingApprovals w'
  = filter (fun entry => entry.1 ≠ approvalId) (getPendingApprovals w)
  ∧ NoDup (Map_keys (approvalMap w')).
Proof.
  intros Hnd [approval Hget] w'. subst w'.
  unfold getPendingApproval in Hget.
  assert (Hshape :
    ∃ decided,
      approvalMap (processApprovalDecision this approvalId isApproved feedback w).1
      = Map_set approvalId decided (approvalMap w)
      ∧ sa_status decided ≠ pending).
  { unfold processApprovalDecision. rewrite Hget.
    unfold mbind at 1, readClock.
    destruct (Date_now (host w)) as [decidedAt h1]. simpl.
    destruct isApproved.
    - unfold mbind at 1, try_catch, mbind at 1, callTool. simpl.
      destruct (executeTool _ _ _) as [made [result|error]]; simpl.
      + unfold mbind, readClock, ret, setApproval. simpl.
        destruct (Date_now h1) as [executedAt h2]. simpl.
        eexists. split; [reflexivity|]. done.
      + unfold mbind, ret, setApproval. simpl.
        eexists. split; [reflexivity|]. done.
    - unfold mbind, ret, setApproval. simpl.
      eexists. split; [reflexivity|]. done. }
  destruct Hshape as (decided & Hmap & Hst).
  unfold getPendingApprovals. rewrite Hmap. split.
  - by apply (filter_Map_set_decided _ approvalId decided approval).
  - by apply Map_set_NoDup.
Qed.

Lemma decided_approval_leaves_pending_list_witness :
  getPendingApprovals
    (processApprovalDecision WrapperGateSamples.wrapperAgent
       "approval-s1-makePayment-0" false (Some "not authorized")
       WrapperGateSamples.afterPayment).1
  = [].
Proof.
  destruct (decided_approval_leaves_pending_list WrapperGateSamples.wrapperAgent
              "approval-s1-makePayment-0" false (Some "not authorized")
              WrapperGateSamples.afterPayment)
    as [Hlist _].
  - apply (bool_decide_unpack _). vm_compute. reflexivity.
  - vm_compute. by eexists.
  - rewrite Hlist. vm_compute. reflexivity.
Defined.

End WrapperApprovalFacts.

(* ================================================================== *)
(** * The approval endpoint of the human-in-the-loop wrapper *)
(* ================================================================== *)

Module ApprovalEndpointFacts.
Import Js Tool OpenAI Http HumanInLoopDurableAgentWrapper.
Import HumanInLoopDurableAgentWrapperHttp.

Lemma decisionOf_truthy v d : decisionOf v = Some d → truthy v = true.
Proof.
  destruct v as [| |b|n|s|items|props]; simpl; try discriminate.
  destruct s; [discriminate|done].
Qed.

Lemma getOptional_obj props k :
  getOptional (JObj props) k = default JUndefined (Map_get k props).
Proof. done. Qed.

(** X17.  A POST to the approval endpoint of the wrapper with a session
    and a JSON object as body never reads the entity.  When [decision] is
    not the text [approved] or [rejected], or [approvalId] is missing or
    falsy, it answers 400 and signals nothing.  Otherwise it sends exactly
    one [handleApproval] signal carrying the session, the [approvalId],
    the decision and the [humanResponse] of the body as they are, and
    answers 200 with [Approval approved] or [Approval rejected], or 500
    when sending the signal fails; it answers 200 whether or not an
    approval with that id exists. *)
Theorem approval_endpoint_decision
    (readEntityState : string → Completion (option ConversationState))
    (signalEntity : Signal → Completion unit)
    (request : HttpRequest) (session : string) (props : list (string * JsValue)) :
  params_sessionId request = Some session →
  session ≠ EmptyString →
  json request = Returned (JObj props) →
  let outcome := createApprovalEndpoint readEntityState signalEntity POST request in
  let approvalId := default JUndefined (Map_get "approvalId" props) in
  let decision := default JUndefined (Map_get "decision" props) in
  let humanResponse := default JUndefined (Map_get "humanResponse" props) in
  (∀ otherState,
     createApprovalEndpoint otherState signalEntity POST request = outcome)
  ∧ match decisionOf decision with
    | Some d =>
        if truthy approvalId then
          let signal :=
            {| signal_sessionId := session; signal_approvalId := approvalId;
               signal_decision := d; signal_humanResponse := humanResponse |} in
          outcome.2 = [signal]
          ∧ (∀ e, signalEntity signal = Threw e → approval_status outcome.1 = 500)
          ∧ (signalEntity signal = Returned tt →
             approval_status outcome.1 = 200
             ∧ approval_success outcome.1 = true
             ∧ approval_message outcome.1 = Some ("Approval " +:+ decisionText d)
             ∧ approval_approvalId outcome.1 = Some approvalId)
        else
          outcome
          = (refused 400 "approvalId and decision (approved/rejected) are required", [])
    | None =>
        outcome
        = (refused 400 "approvalId and decision (approved/rejected) are required", [])
    end.
Proof.
  intros Hsession Hnonempty Hjson outcome approvalId decision humanResponse.
  subst outcome approvalId decision humanResponse.
  unfold createApprovalEndpoint. rewrite Hsession, Hjson. simpl.
  destruct session as [|c session']; [done|]. simpl.
  split; [done|]. rewrite !getOptional_obj.
  destruct (decisionOf (default JUndefined (Map_get "decision" props))) as [d|] eqn:Hd.
  - rewrite (decisionOf_truthy _ _ Hd), andb_true_r.
    destruct (truthy (default JUndefined (Map_get "approvalId" props))); [|done].
    destruct (signalEntity _) as [[]|e] eqn:Hsignal; simpl.
    + split_and!; [done|discriminate|done].
    + split_and!; [done|done|discriminate].
  - by destruct (truthy (default JUndefined (Map_get "approvalId" props))
                 && truthy (default JUndefined (Map_get "decision" props))).
Qed.

Lemma approval_endpoint_decision_witness :
  (createApprovalEndpoint (fun _ => Returned None) (fun _ => Returned tt) POST
     {| json := Returned (JObj [("approvalId", JStr "no-such-request");
                                ("decision", JStr "approved")]);
        params_sessionId := Some "s1" |}).1
  = {| approval_status := 200; approval_success := true; approval_error := None;
       approval_message := Some "Approval approved";
       approval_sessionId := Some "s1"; approval_approvals := None;
       approval_approvalId := Some (JStr "no-such-request");
       approval_decision := Some decide_approved |}.
Proof.
  destruct (approval_endpoint_decision (fun _ => Returned None) (fun _ => Returned tt)
              {| json := Returned (JObj [("approvalId", JStr "no-such-request");
                                         ("decision", JStr "approved")]);
                 params_sessionId := Some "s1" |}
              "s1" [("approvalId", JStr "no-such-request"); ("decision", JStr "approved")])
    as [_ Hsignalled].
  - reflexivity.
  - discriminate.
  - reflexivity.
  - reflexivity.
Defined.

Lemma filter_all {A} (P : A → Prop) `{∀ x, base.Decision (P x)} (l : list A) :
  Forall P l → filter P l = l.
Proof.
  induction 1 as [|x l Hx Hl IH]; [done|].
  by rewrite filter_cons_True, IH.
Qed.

Lemma filter_insert_resolved (l : list HumanApprovalRequest) i a a' :
  l !! i = Some a → ¬ isPending a' → id a' = id a →
  NoDup (id <$> l) →
  filter isPending (<[i := a']> l)
  = filter (fun b => id b ≠ id a) (filter isPending l).
Proof.
  revert i. induction l as [|x l IH]; intros i Hi Hres Hid Hnd; [done|].
  rewrite fmap_cons, NoDup_cons in Hnd. destruct Hnd as [Hfresh Hnd].
  assert (Hrest : ∀ k, k ∉ id <$> l →
            filter (fun b => id b ≠ k) (filter isPending l) = filter isPending l).
  { clear. intros k. induction l as [|y l IHl]; simpl; [done|].
    rewrite not_elem_of_cons. intros [Hne Hout].
    rewrite (filter_cons isPending). destruct (decide (isPending y)).
    - rewrite filter_cons_True by (simpl; congruence). f_equal. by apply IHl.
    - by apply IHl. }
  destruct i as [|i]; simpl in *.
  - injection Hi as ->. rewrite filter_cons_False by done.
    rewrite (filter_cons isPending a). destruct (decide (isPending a)).
    + rewrite filter_cons_False by (by intros Hk; apply Hk).
      by rewrite Hrest.
    + by rewrite Hrest.
  - rewrite !(filter_cons isPending x). destruct (decide (isPending x)).
    + rewrite filter_cons_True.
      * f_equal. by apply IH.
      * intros Heq. apply Hfresh. rewrite Heq.
        apply list_elem_of_fmap. exists a. split; [done|].
        by eapply list_elem_of_lookup_2.
    + by apply IH.
Qed.

(** X18.  What a GET of the approval endpoint lists follows what a POST
    signalled: before the signal is handled the GET lists the pending
    approvals of the session's entity, and once the entity has handled the
    signal it lists the same approvals without the one whose id was
    signalled (ids being distinct).  When no approval of the entity has
    that id, handling the signal leaves the stored state as it was. *)
Theorem approval_decision_roundtrip
    (signalEntity : Signal → Completion unit) (request : HttpRequest)
    (session : string) (stored : option ConversationState) (h : Host)
    (signal : Signal) (approvalId : string) (op : Operation) :
  params_sessionId request = Some session →
  session ≠ EmptyString →
  signal_approvalId signal = JStr approvalId →
  operationOf signal = Some op →
  NoDup (id <$> default [] (pendingApprovals <$> stored)) →
  let get stored :=
    approval_approvals
      (createApprovalEndpoint (fun _ => Returned stored) signalEntity GET request).1 in
  let stored' := (createConversationEntity op stored h).1.2 in
  get stored = Some (listed stored)
  ∧ get stored' = Some (filter (fun a => id a ≠ approvalId) (listed stored))
  ∧ ((∀ a, a ∈ default [] (pendingApprovals <$> stored) → id a ≠ approvalId) →
     stored' = stored).
Proof.
  intros Hsession Hnonempty Hid Hop Hnd get stored'. subst get stored'.
  unfold createApprovalEndpoint. rewrite Hsession. simpl.
  destruct session as [|c session']; [done|]. simpl.
  assert (Hshape : ∃ response, op = handleApproval approvalId (signal_decision signal) response).
  { unfold operationOf in Hop. rewrite Hid in Hop.
    destruct (signal_humanResponse signal); try discriminate;
      injection Hop as <-; by eexists. }
  destruct Hshape as [response ->].
  unfold createConversationEntity.
  destruct stored as [state|]; simpl in *.
  - destruct (list_find (fun a => id a = approvalId) (pendingApprovals state))
      as [[i a]|] eqn:Hfind; simpl.
    + apply list_find_Some in Hfind as (Hi & Ha & _). subst approvalId.
      split_and!; [done| |].
      * f_equal. apply filter_insert_resolved; try done.
        destruct (signal_decision signal); discriminate.
      * intros Hnone. exfalso. apply (Hnone a); [|done].
        by eapply list_elem_of_lookup_2.
    + apply list_find_None in Hfind.
      split_and!; [done| |done].
      f_equal. symmetry. apply filter_all.
      apply Forall_forall. intros a Ha. apply list_elem_of_filter in Ha as [_ Ha].
      by apply (proj1 (Forall_forall _ _) Hfind).
  - split_and!; done.
Qed.

Lemma approval_decision_roundtrip_witness :
  approval_approvals
    (createApprovalEndpoint
       (fun _ => Returned
                   (createConversationEntity
                      (handleApproval "req-1" decide_approved (Some "ok"))
                      (Some WrapperSamples.ledger1) Samples.host0).1.2)
       (fun _ => Returned tt) GET
       {| json := Threw (ThrowError "SyntaxError" "Unexpected end of JSON input");
          params_sessionId := Some "s1" |}).1
  = Some [].
Proof.
  destruct (approval_decision_roundtrip (fun _ => Returned tt)
              {| json := Threw (ThrowError "SyntaxError" "Unexpected end of JSON input");
                 params_sessionId := Some "s1" |}
              "s1" (Some WrapperSamples.ledger1) Samples.host0
              {| signal_sessionId := "s1"; signal_approvalId := JStr "req-1";
                 signal_decision := decide_approved;
                 signal_humanResponse := JStr "ok" |}
              "req-1" (handleApproval "req-1" decide_approved (Some "ok")))
    as (_ & Hafter & _).
  - reflexivity.
  - discriminate.
  - reflexivity.
  - reflexivity.
  - apply (bool_decide_unpack _). vm_compute. reflexivity.
  - exact Hafter.
Defined.

End ApprovalEndpointFacts.

(* ================================================================== *)
(** * Turns of the human-in-the-loop orchestrator *)
(* ================================================================== *)

Module OrchestratorTurnFacts.
Import Js Tool OpenAI Http HumanInLoopDurableAgentOrchestrator.
Import HumanInLoopDurableAgentOrchestratorHttp.

(** ** What the entity does to the history *)

Lemma entity_history op stored h :
  let stored' := (createConversationEntity op stored h).1.2 in
  said <$> default [] (chatHistory <$> stored')
  = (said <$> default [] (chatHistory <$> stored))
    ++ match op with addMessage r c => [(r, c)] | _ => [] end
  ∧ (is_Some stored → is_Some stored')
  ∧ ((∃ r c, op = addMessage r c) → is_Some stored').
Proof.
  unfold createConversationEntity.
  destruct stored as [state|]; destruct op; simpl;
    try destruct (list_find _ _) as [[i a]|]; simpl;
    rewrite ?app_nil_r, ?fmap_app; split_and!; try done;
    try (intros; by eexists); try (by intros (? & ? & ?)).
Qed.

Lemma deliver_decisions ops stored h :
  Forall isDecision ops →
  said <$> default [] (chatHistory <$> (deliver ops stored h).1)
  = said <$> default [] (chatHistory <$> stored)
  ∧ (is_Some stored → is_Some (deliver ops stored h).1).
Proof.
  unfold deliver. intros Hall. revert stored h.
  induction Hall as [|op ops Hop Hall IH]; intros stored h; simpl; [done|].
  destruct (entity_history op stored h) as (Hsaid & Hkeep & _).
  destruct (createConversationEntity op stored h) as [[result stored'] h'].
  simpl in *. destruct (IH stored' h') as [Hsaid' Hkeep'].
  split.
  - rewrite Hsaid', Hsaid. destruct op; try done. by rewrite app_nil_r.
  - intros Hsome. by apply Hkeep', Hkeep.
Qed.

Lemma steady_refl w : decisionsOnly w → steady w w.
Proof. by intros H; split_and!. Qed.

Lemma steady_trans w1 w2 w3 : steady w1 w2 → steady w2 w3 → steady w1 w3.
Proof.
  intros (_ & Hs1 & Hk1 & Ha1) (Hd & Hs2 & Hk2 & Ha2). split_and!; try done.
  - congruence.
  - intros H. by apply Hk2, Hk1.
  - congruence.
Qed.

Lemma suspend_steady task wake w :
  decisionsOnly w →
  ∃ w', suspend task wake w = (w', Returned tt)
        ∧ steady w w'
        ∧ invoked w' = invoked w
        ∧ trace w' = trace w ++ [task].
Proof.
  intros Hd. unfold suspend, decisionsOnly in *.
  assert (Hhead : Forall isDecision
                    (arrivals (default quietTick (head (environment w))))).
  { destruct (environment w) as [|tick ticks]; simpl; [done|].
    by apply Forall_cons in Hd as [? _]. }
  assert (Htail : Forall (fun tick => Forall isDecision (arrivals tick))
                    (tail (environment w))).
  { destruct (environment w) as [|tick ticks]; simpl; [done|].
    by apply Forall_cons in Hd as [_ ?]. }
  destruct (deliver_decisions _ (store w) (host w) Hhead) as [Hsaid Hkeep].
  destruct (deliver _ (store w) (host w)) as [stored h].
  eexists. split; [reflexivity|]. unfold steady, history, decisionsOnly. simpl.
  by split_and!.
Qed.

Lemma callEntity_steady op w :
  decisionsOnly w →
  ∃ w' result,
    callEntity op w = (w', Returned result)
    ∧ decisionsOnly w'
    ∧ said <$> history w'
      = (said <$> history w) ++ match op with addMessage r c => [(r, c)] | _ => [] end
    ∧ (is_Some (store w) ∨ (∃ r c, op = addMessage r c) → is_Some (store w'))
    ∧ api_calls w' = api_calls w
    ∧ invoked w' = invoked w.
Proof.
  intros Hd. unfold callEntity, mbind, currentUtcDateTime.
  destruct (suspend_steady (CallEntity op) (now w) w Hd)
    as (w1 & -> & (Hd1 & Hs1 & Hk1 & Ha1) & Hi1 & _).
  destruct (entity_history op (store w1) (host w1)) as (Hsaid & Hkeep & Hnew).
  destruct (createConversationEntity op (store w1) (host w1)) as [[result stored] h].
  eexists _, _. split; [reflexivity|]. unfold history in *. simpl in *.
  split_and!; try done.
  - by rewrite Hsaid, Hs1.
  - intros [Hsome|Hadd]; [by apply Hkeep, Hk1 | by apply Hnew].
Qed.

Lemma callEntity_steady_read op w :
  decisionsOnly w → (∀ r c, op ≠ addMessage r c) →
  ∃ w' result, callEntity op w = (w', Returned result)
               ∧ steady w w' ∧ invoked w' = invoked w.
Proof.
  intros Hd Hop.
  destruct (callEntity_steady op w Hd) as (w' & result & Hrun & Hd' & Hs & Hk & Ha & Hi).
  exists w', result. split; [done|]. split; [|done]. split_and!; try done.
  - rewrite Hs. destruct op; rewrite ?app_nil_r; try done. by destruct (Hop r c).
  - intros H. apply Hk. by left.
Qed.

Lemma callExecuteTool_steady this tool toolArgs w :
  decisionsOnly w →
  ∃ w', callExecuteTool this tool toolArgs w
        = (w', (executeTool (toolRegistry this) tool toolArgs).2)
        ∧ steady w w'
        ∧ invoked w' = invoked w ++ (executeTool (toolRegistry this) tool toolArgs).1.
Proof.
  intros Hd. unfold callExecuteTool, mbind, currentUtcDateTime.
  destruct (suspend_steady (ExecuteTool tool toolArgs) (now w) w Hd)
    as (w1 & -> & (Hd1 & Hs1 & Hk1 & Ha1) & Hi1 & _).
  destruct (executeTool (toolRegistry this) tool toolArgs) as [calls outcome].
  eexists. split; [reflexivity|]. unfold steady, history, decisionsOnly in *. simpl.
  split_and!; try done. by rewrite Hi1.
Qed.

Lemma pollLoop_steady fuel session tool timeoutDate w :
  decisionsOnly w →
  ∃ w' outcome,
    pollLoop fuel session tool timeoutDate w = (w', Returned outcome)
    ∧ steady w w' ∧ invoked w' = invoked w.
Proof.
  revert w. induction fuel as [|fuel IH]; intros w Hd; simpl.
  - destruct (decide (earlier (now w) timeoutDate)); eexists _, _;
      (split; [reflexivity|]); split; try done; by apply steady_refl.
  - destruct (decide (earlier (now w) timeoutDate)).
    2:{ eexists _, _. split; [reflexivity|]. split; [by apply steady_refl|done]. }
    unfold mbind at 1, createTimer.
    destruct (suspend_steady (CreateTimer (now w + 5000)) (now w + 5000) w Hd)
      as (w1 & -> & Hst1 & Hi1 & _).
    unfold mbind at 1.
    destruct (callEntity_steady_read getState w1 (proj1 Hst1)) as
      (w2 & result & -> & Hst2 & Hi2); [done|].
    pose proof (steady_trans _ _ _ Hst1 Hst2) as Hst12.
    assert (Hrec : ∃ w' outcome,
              pollLoop fuel session tool timeoutDate w2 = (w', Returned outcome)
              ∧ steady w w' ∧ invoked w' = invoked w).
    { destruct (IH w2 (proj1 Hst2)) as (w3 & outcome & -> & Hst3 & Hi3).
      eexists _, _. split; [reflexivity|]. split.
      - by eapply steady_trans.
      - congruence. }
    destruct result as [[]|]; try exact Hrec.
    destruct (list_find (decisionFor session tool) allApprovals) as [[i a]|];
      [|exact Hrec].
    eexists _, _. split; [reflexivity|]. split; [done|congruence].
Qed.

Lemma gate_steady this input tool toolArgs w :
  decisionsOnly w →
  ∃ w' outcome,
    gate this input tool toolArgs w = (w', outcome)
    ∧ steady w w'
    ∧ (∀ output, outcome = Returned output → requiresApproval output = true).
Proof.
  intros Hd. unfold gate, mbind at 1.
  destruct (callEntity_steady_read
              (addApprovalRequest (input_sessionId input) tool toolArgs
                 ("AI wants to execute " +:+ tool +:+ " with: "
                  +:+ JSON_stringify (JSON_ this) toolArgs)) w Hd)
    as (w1 & result & -> & Hst1 & _); [done|].
  unfold mbind at 1, currentUtcDateTime. unfold mbind at 1.
  destruct (pollLoop_steady (pollBudget (minutesOf input * 60 * 1000))
              (input_sessionId input) tool
              (new_Date (now w1 + minutesOf input * 60 * 1000)) w1 (proj1 Hst1))
    as (w2 & outcome & -> & Hst2 & _).
  pose proof (steady_trans _ _ _ Hst1 Hst2) as Hst12.
  destruct outcome as [humanDecision| |].
  - destruct (isApproved humanDecision).
    + unfold mbind at 1. unfold mbind at 1.
      destruct (callExecuteTool_steady this tool toolArgs w2 (proj1 Hst2))
        as (w3 & -> & Hst3 & _).
      pose proof (steady_trans _ _ _ Hst12 Hst3) as Hst.
      destruct ((executeTool (toolRegistry this) tool toolArgs).2) as [text|e];
        eexists _, _; (split; [reflexivity|]); split; try done.
      by intros output [= <-].
    + eexists _, _. split; [reflexivity|]. split; [done|]. by intros output [= <-].
  - unfold mbind at 1. unfold mbind at 1.
    destruct (callEntity_steady_read
                (handleApproval (input_sessionId input) decide_rejected
                   (Some ("Timeout after " +:+ pretty (minutesOf input) +:+ " minutes")))
                w2 (proj1 Hst2))
      as (w3 & result3 & -> & Hst3 & _); [done|].
    eexists _, _. split; [reflexivity|]. split; [by eapply steady_trans|].
    by intros output [= <-].
  - eexists _, _. split; [reflexivity|]. split; [done|]. done.
Qed.

Lemma toolLoop_steady this input calls finalResponse w :
  decisionsOnly w →
  ∃ w' outcome,
    toolLoop this input calls finalResponse w = (w', outcome)
    ∧ steady w w'
    ∧ (∀ output, outcome = Returned (inr output) → requiresApproval output = true).
Proof.
  revert finalResponse w.
  induction calls as [|c calls IH]; intros finalResponse w Hd; simpl.
  - eexists _, _. split; [reflexivity|]. split; [by apply steady_refl|done].
  - unfold mbind at 1, lift.
    destruct (JSON_parse (JSON_ this) (call_arguments c)) as [toolArgs|e].
    2:{ eexists _, _. split; [reflexivity|]. split; [by apply steady_refl|done]. }
    destruct (decide (call_name c ∈ humanApprovalTools this)) as [Hgated|Hfree].
    + unfold mbind at 1.
      destruct (gate_steady this input (call_name c) toolArgs w Hd)
        as (w1 & outcome & -> & Hst1 & Hreq).
      destruct outcome as [output|e]; eexists _, _; (split; [reflexivity|]);
        (split; [done|]); [|done].
      intros out [= <-]. by apply Hreq.
    + unfold mbind at 1.
      destruct (callExecuteTool_steady this (call_name c) toolArgs w Hd)
        as (w1 & -> & Hst1 & _).
      destruct ((executeTool (toolRegistry this) (call_name c) toolArgs).2)
        as [text|e].
      * destruct (IH text w1 (proj1 Hst1)) as (w2 & outcome & -> & Hst2 & Hreq).
        eexists _, _. split; [reflexivity|]. split; [by eapply steady_trans|done].
      * eexists _, _. split; [reflexivity|]. split; [done|done].
Qed.

(** ** What the entity does to the ledger of approval requests *)

Lemma entity_ledger_step op stored h :
  let before := default [] (pendingApprovals <$> stored) in
  let after :=
    default [] (pendingApprovals <$> (createConversationEntity op stored h).1.2) in
  asked <$> after = (asked <$> before) ++ filed [op]
  ∧ (∀ i a, before !! i = Some a →
       ∃ a', after !! i = Some a'
             ∧ requestTimestamp a' = requestTimestamp a
             ∧ (status a ≠ pending → a' = a)
             ∧ (status a' = pending → a' = a)).
Proof.
  intros before after. subst before after.
  rewrite <- (OrchestratorEntityFacts.ledger_loadState_by_session stored h).
  unfold createConversationEntity.
  assert (Hread : default [] (pendingApprovals <$> stored)
                  = pendingApprovals (loadState stored h).1).
  { by rewrite OrchestratorEntityFacts.ledger_loadState_by_session. }
  destruct (loadState stored h) as [state h0]. simpl in Hread. simpl.
  assert (Hsame : ∀ l : list HumanApprovalRequest,
            l = pendingApprovals state →
            asked <$> l = (asked <$> pendingApprovals state) ++ []
            ∧ (∀ i a, pendingApprovals state !! i = Some a →
                 ∃ a', l !! i = Some a'
                       ∧ requestTimestamp a' = requestTimestamp a
                       ∧ (status a ≠ pending → a' = a)
                       ∧ (status a' = pending → a' = a))).
  { intros l ->. rewrite app_nil_r. split; [done|]. intros i a Hi. by exists a. }
  destruct op; simpl; try (by apply Hsame).
  - rewrite fmap_app. split; [done|]. intros i a Hi. exists a.
    split; [by apply lookup_app_l_Some|done].
  - destruct (list_find _ _) as [[j b]|] eqn:Hfind; simpl; [|by apply Hsame].
    apply list_find_Some in Hfind as (Hj & [_ Hb] & _).
    rewrite app_nil_r. split.
    + rewrite list_fmap_insert. apply list_insert_id.
      rewrite list_lookup_fmap, Hj. done.
    + intros i a Hi. destruct (decide (i = j)) as [->|Hne].
      * assert (a = b) as -> by congruence.
        eexists. split; [apply list_lookup_insert_eq; by eapply lookup_lt_Some|].
        simpl. split_and!; [done|done|]. by destruct decision.
      * exists a. by rewrite list_lookup_insert_ne.
Qed.

(** X28.  The ledger of approval requests of a session is permanent:
    whatever operations the entity executes, and in whatever order, the
    requests afterwards are the requests before, at their places, followed
    by the requests that the [addApprovalRequest] operations filed, in
    their order.  No request is removed or moved, none changes its session,
    tool, arguments, reasoning or request time, a request that was decided
    stays exactly as it was, and a request that is still pending
    afterwards was not touched. *)
Theorem approval_ledger_is_permanent
    (ops : list Operation) (stored : option ConversationState) (h : Host) :
  let before := default [] (pendingApprovals <$> stored) in
  let after := default [] (pendingApprovals <$> (deliver ops stored h).1) in
  asked <$> after = (asked <$> before) ++ filed ops
  ∧ (∀ i a, before !! i = Some a →
       ∃ a', after !! i = Some a'
             ∧ requestTimestamp a' = requestTimestamp a
             ∧ (status a ≠ pending → a' = a)
             ∧ (status a' = pending → a' = a)).
Proof.
  unfold deliver. revert stored h.
  induction ops as [|op ops IH]; intros stored h; simpl.
  - rewrite app_nil_r. split; [done|]. intros i a Hi. by exists a.
  - destruct (entity_ledger_step op stored h) as [Hasked Hkept].
    destruct (createConversationEntity op stored h) as [[result stored'] h'].
    simpl in *. destruct (IH stored' h') as [Hasked' Hkept'].
    split.
    + rewrite Hasked', Hasked, <- app_assoc. f_equal.
      unfold filed. simpl. by destruct op.
    + intros i a Hi.
      destruct (Hkept i a Hi) as (a1 & Hi1 & Htime1 & Hdone1 & Hopen1).
      destruct (Hkept' i a1 Hi1) as (a2 & Hi2 & Htime2 & Hdone2 & Hopen2).
      exists a2. split_and!; [done|congruence| |].
      * intros Hst. pose proof (Hdone1 Hst) as ->. by apply Hdone2.
      * intros Hst. pose proof (Hopen2 Hst) as ->. by apply Hopen1.
Qed.

Lemma turn_history this input w w' outcome :
  decisionsOnly w →
  createChatOrchestrator this input w = (w', outcome) →
  said <$> history w'
  = (said <$> history w)
    ++ (user, input_message input)
       :: match outcome with
          | Returned output =>
              if requiresApproval output then []
              else [(assistant, response output)]
          | Threw _ => []
          end
  ∧ is_Some (store w').
Proof.
  intros Hd. unfold createChatOrchestrator, try_catch, mbind at 1.
  destruct (callEntity_steady (addMessage user (input_message input)) w Hd)
    as (w1 & result1 & -> & Hd1 & Hs1 & Hk1 & Ha1 & _).
  assert (Hsome1 : is_Some (store w1)) by (apply Hk1; right; by eexists _, _).
  unfold mbind at 1, callProcessMessage, mbind at 1, currentUtcDateTime.
  unfold mbind at 1.
  destruct (suspend_steady (ProcessMessage (input_message input)) (now w1) w1 Hd1)
    as (w2 & -> & (Hd2 & Hs2 & Hk2 & Ha2) & _ & _).
  set (w2' := {| store := store w2; host := host w2; now := now w2;
                 environment := environment w2; api_calls := S (api_calls w2);
                 invoked := invoked w2; trace := trace w2 |}).
  assert (Hst2 : decisionsOnly w2' ∧ said <$> history w2' = said <$> history w1
                 ∧ is_Some (store w2')).
  { unfold decisionsOnly, history in *. simpl. split_and!; try done. by apply Hk2. }
  destruct Hst2 as (Hd2' & Hs2' & Hsome2).
  destruct (openai this (api_calls w2) _) as [modelAnswer|e].
  2:{ simpl. unfold throw. intros [= <- <-]. split; [|done].
      by rewrite Hs2', Hs1. }
  cbv beta iota.
  set (finalResponse :=
         string_or (message_content modelAnswer) "No response generated").
  assert (Hloop :
    ∃ w3 exit,
      match tool_calls modelAnswer with
      | Some (toolCall :: rest) =>
          toolLoop this input (toolCall :: rest) finalResponse
      | _ => ret (inl finalResponse)
      end w2' = (w3, exit)
      ∧ steady w2' w3
      ∧ (∀ output, exit = Returned (inr output) → requiresApproval output = true)).
  { destruct (tool_calls modelAnswer) as [[|toolCall rest]|];
      try (eexists _, _; split; [reflexivity|]; split;
           [by apply steady_refl|done]).
    apply (toolLoop_steady this input (toolCall :: rest) finalResponse w2' Hd2'). }
  destruct Hloop as (w3 & exit & Hrun & (Hd3 & Hs3 & Hk3 & _) & Hreq).
  unfold mbind at 1. rewrite Hrun.
  destruct exit as [[finalResponse'|output]|e]; simpl.
  - unfold mbind at 1.
    destruct (callEntity_steady (addMessage assistant finalResponse') w3 Hd3)
      as (w4 & result4 & -> & Hd4 & Hs4 & Hk4 & _ & _).
    unfold ret. intros [= <- <-]. simpl. split.
    + rewrite Hs4, Hs3, Hs2', Hs1. by rewrite <- app_assoc.
    + apply Hk4. left. by apply Hk3.
  - unfold ret. intros [= <- <-]. rewrite (Hreq output eq_refl).
    split; [|by apply Hk3]. by rewrite Hs3, Hs2', Hs1.
  - unfold throw. intros [= <- <-]. split; [|by apply Hk3].
    by rewrite Hs3, Hs2', Hs1.
Qed.

(** X19.  Whatever happens in a turn of the human-in-the-loop
    orchestrator, as long as the only operations that others run on the
    session's entity meanwhile are approval decisions: the chat history
    gains the user's message, and after it the response exactly when the
    turn completed without going through an approval gate.  A turn that
    went through a gate (approved, rejected or timed out) or that failed
    leaves only the user's message; its response is not stored.  After
    any turn the entity exists, so the session status endpoint answers 200
    with the stored state. *)
Theorem turn_records_response_unless_gated
    (this : Agent) (input : OrchestratorInput) (w : World) :
  decisionsOnly w →
  let outcome := createChatOrchestrator this input w in
  said <$> history outcome.1
  = (said <$> history w)
    ++ (user, input_message input)
       :: match outcome.2 with
          | Returned output =>
              if requiresApproval output then []
              else [(assistant, response output)]
          | Threw _ => []
          end
  ∧ is_Some (store outcome.1)
  ∧ (∀ session, session ≠ EmptyString →
       let answer :=
         createSessionStatusEndpoint (fun _ => Returned (store outcome.1))
           (Some session) in
       status_status answer = 200
       ∧ status_entityState answer = store outcome.1).
Proof.
  intros Hd outcome.
  destruct (turn_history this input w outcome.1 outcome.2 Hd) as [Hsaid Hsome].
  { subst outcome. by destruct (createChatOrchestrator this input w). }
  split_and!; try done.
  intros session Hsession answer. subst answer.
  unfold createSessionStatusEndpoint. simpl.
  destruct session as [|c session']; [done|]. simpl.
  destruct Hsome as [state ->]. done.
Qed.

Lemma turn_records_response_unless_gated_witness :
  said <$> history
             (createChatOrchestrator GateSamples.bankAgent (GateSamples.turn "pay")
                (GateSamples.worldWith None GateSamples.approveDuringFirstWait)).1
  = [(user, "pay")].
Proof.
  destruct (turn_records_response_unless_gated GateSamples.bankAgent
              (GateSamples.turn "pay")
              (GateSamples.worldWith None GateSamples.approveDuringFirstWait))
    as (Hsaid & _).
  - vm_compute. repeat constructor.
  - rewrite Hsaid. vm_compute. reflexivity.
Defined.

End OrchestratorTurnFacts.

(* ================================================================== *)
(** * The approval gate and the clock *)
(* ================================================================== *)

Module GateTimingFacts.
Import Js Tool OpenAI Http HumanInLoopDurableAgentOrchestrator.
Import HumanInLoopDurableAgentOrchestratorHttp.

Lemma callEntity_frame op w :
  ∃ w' result,
    callEntity op w = (w', Returned result)
    ∧ trace w' = trace w ++ [CallEntity op]
    ∧ invoked w' = invoked w
    ∧ api_calls w' = api_calls w
    ∧ now w ≤ now w'.
Proof.
  unfold callEntity, mbind, currentUtcDateTime, suspend.
  destruct (deliver _ (store w) (host w)) as [stored h]. simpl.
  destruct (createConversationEntity op stored h) as [[result stored'] h'].
  eexists _, _. split; [reflexivity|]. simpl. split_and!; try done. lia.
Qed.

Lemma pollLoop_expired fuel session tool timeoutDate w :
  ¬ earlier (now w) timeoutDate →
  pollLoop fuel session tool timeoutDate w = (w, Returned Expired).
Proof.
  intros Hlate. destruct fuel; simpl; by rewrite decide_False.
Qed.

(** X20.  With an approval timeout of zero or fewer minutes the gate does
    not wait at all: it files the approval request, never starts a timer
    and never reads the decision, marks the request rejected with the
    reason [Timeout after N minutes], and answers [TIMEOUT] without
    running the tool, whatever the surroundings do. *)
Theorem gate_with_nonpositive_timeout
    (this : Agent) (input : OrchestratorInput) (tool : string)
    (toolArgs : JsValue) (w : World) :
  minutesOf input ≤ 0 →
  let session := input_sessionId input in
  let minutes := pretty (minutesOf input) in
  let run := gate this input tool toolArgs w in
  run.2 = Returned
            {| success := true;
               response := "[TIMEOUT] Request timed out after " +:+ minutes +:+ " minutes";
               requiresApproval := true; out_sessionId := Some session;
               out_toolName := Some tool; out_toolArgs := Some toolArgs |}
  ∧ trace run.1
    = trace w
      ++ [CallEntity
            (addApprovalRequest session tool toolArgs
               ("AI wants to execute " +:+ tool +:+ " with: "
                +:+ JSON_stringify (JSON_ this) toolArgs));
          CallEntity
            (handleApproval session decide_rejected
               (Some ("Timeout after " +:+ minutes +:+ " minutes")))]
  ∧ invoked run.1 = invoked w.
Proof.
  intros Hminutes session minutes run. subst session minutes run.
  cut (∃ w',
         gate this input tool toolArgs w
         = (w', Returned
                  {| success := true;
                     response := "[TIMEOUT] Request timed out after "
                                 +:+ pretty (minutesOf input) +:+ " minutes";
                     requiresApproval := true;
                     out_sessionId := Some (input_sessionId input);
                     out_toolName := Some tool; out_toolArgs := Some toolArgs |})
         ∧ trace w'
           = trace w
             ++ [CallEntity
                   (addApprovalRequest (input_sessionId input) tool toolArgs
                      ("AI wants to execute " +:+ tool +:+ " with: "
                       +:+ JSON_stringify (JSON_ this) toolArgs));
                 CallEntity
                   (handleApproval (input_sessionId input) decide_rejected
                      (Some ("Timeout after " +:+ pretty (minutesOf input)
                             +:+ " minutes")))]
         ∧ invoked w' = invoked w).
  { intros (w' & -> & Htrace & Hinvoked). done. }
  unfold gate, mbind at 1.
  destruct (callEntity_frame
              (addApprovalRequest (input_sessionId input) tool toolArgs
                 ("AI wants to execute " +:+ tool +:+ " with: "
                  +:+ JSON_stringify (JSON_ this) toolArgs)) w)
    as (w1 & result1 & -> & Ht1 & Hi1 & _ & _).
  unfold mbind at 1, currentUtcDateTime. unfold mbind at 1.
  rewrite pollLoop_expired
    by (unfold new_Date; destruct (decide _); simpl; [lia|tauto]).
  unfold mbind at 1. unfold mbind at 1.
  destruct (callEntity_frame
              (handleApproval (input_sessionId input) decide_rejected
                 (Some ("Timeout after " +:+ pretty (minutesOf input) +:+ " minutes")))
              w1)
    as (w2 & result2 & -> & Ht2 & Hi2 & _ & _).
  eexists. split; [reflexivity|]. split; [|congruence].
  rewrite Ht2, Ht1. by rewrite <- app_assoc.
Qed.

Lemma gate_with_nonpositive_timeout_witness :
  response
    (default {| success := false; response := EmptyString; requiresApproval := false;
                out_sessionId := None; out_toolName := None; out_toolArgs := None |}
       (match (gate GateSamples.bankAgent
                 {| input_message := "pay"; input_sessionId := "s1";
                    approvalTimeoutMinutes := Some (-1) |}
                 "makePayment" (JObj [("amount", JNum 100)])
                 (GateSamples.worldWith None GateSamples.approveDuringFirstWait)).2
        with Returned output => Some output | Threw _ => None end))
  = "[TIMEOUT] Request timed out after -1 minutes".
Proof.
  destruct (gate_with_nonpositive_timeout GateSamples.bankAgent
              {| input_message := "pay"; input_sessionId := "s1";
                 approvalTimeoutMinutes := Some (-1) |}
              "makePayment" (JObj [("amount", JNum 100)])
              (GateSamples.worldWith None GateSamples.approveDuringFirstWait))
    as (Hout & _ & _).
  - vm_compute. discriminate.
  - rewrite Hout. reflexivity.
Defined.

(** One run of the polling loop in surroundings whose next tick is [tick]
    and which leave the requests alone afterwards: either the deadline has
    passed and nothing happens, or the first timer lets [tick] happen and
    the requests stay as [tick] left them. *)
Lemma pollLoop_after_tick fuel session tool timeoutDate w tick rest :
  environment w = tick :: rest →
  Forall (fun t => Forall leavesRequests (arrivals t)) rest →
  ∃ w' outcome,
    pollLoop (S fuel) session tool timeoutDate w = (w', Returned outcome)
    ∧ (w' = w
       ∨ (ledger w'
          = default [] (pendingApprovals
                          <$> (deliver (arrivals tick) (store w) (host w)).1)
          ∧ undecided w')).
Proof.
  intros Henv Hrest. simpl.
  destruct (decide (earlier (now w) timeoutDate));
    [|eexists _, _; split; [reflexivity|by left]].
  unfold mbind at 1, createTimer.
  destruct (GateFacts.suspend_spec (CreateTimer (now w + 5000)) (now w + 5000) w)
    as (w1 & -> & Hreached & Henv1 & _).
  rewrite Henv in Hreached, Henv1. simpl in Hreached, Henv1.
  assert (Hquiet1 : undecided w1) by (unfold undecided; by rewrite Henv1).
  unfold mbind at 1.
  destruct (GateFacts.callEntity_undecided getState w1 Hquiet1)
    as (w2 & stored & h & -> & Hbefore & Hstore2 & Hquiet2 & _).
  assert (Hledger2 : ledger w2 = ledger w1).
  { unfold ledger at 1. rewrite Hstore2, GateFacts.entity_leaves_requests by done.
    by rewrite Hbefore. }
  destruct (GateFacts.pollLoop_undecided fuel session tool timeoutDate w2 Hquiet2)
    as (w3 & outcome & -> & Hledger3 & Hquiet3).
  eexists _, _. split; [reflexivity|]. right. split; [|done].
  rewrite Hledger3, Hledger2. unfold ledger. by rewrite <- Hreached.
Qed.

(** The ledger after a gate during which the human decides: the request
    of the gate is added, the human's decision resolves it, and the
    rejection for the timeout finds no pending request. *)
Lemma gate_ledger_after_decision this input tool toolArgs w t1 t2 rest ok fb :
  Forall (fun a => ¬ awaitsDecision (input_sessionId input) a) (ledger w) →
  environment w = t1 :: t2 :: rest →
  Forall leavesRequests (arrivals t1) →
  arrivals t2 = [approvalSignal (input_sessionId input) ok fb] →
  Forall (fun t => Forall leavesRequests (arrivals t)) rest →
  ∃ created decided,
    ledger (gate this input tool toolArgs w).1
    = ledger w
      ++ [{| sessionId := input_sessionId input; toolName := tool;
             toolArgs := toolArgs;
             reasoning := "AI wants to execute " +:+ tool +:+ " with: "
                          +:+ JSON_stringify (JSON_ this) toolArgs;
             requestTimestamp := created;
             status := if ok then approved else rejected;
             humanResponse := Some (string_or fb EmptyString);
             humanResponseTimestamp := Some decided |}].
Proof.
  intros Hclean Henv Ht1 Ht2 Hrest.
  set (why := "AI wants to execute " +:+ tool +:+ " with: "
              +:+ JSON_stringify (JSON_ this) toolArgs).
  set (timeoutReason := Some ("Timeout after " +:+ pretty (minutesOf input)
                              +:+ " minutes")).
  unfold gate, mbind at 1. fold why.
  (* the request is filed *)
  destruct (GateFacts.callEntity_spec
              (addApprovalRequest (input_sessionId input) tool toolArgs why) w)
    as (w1 & reached1 & -> & -> & Hstore1 & Henv1 & _).
  rewrite Henv in Hstore1, Henv1. simpl in Hstore1, Henv1.
  destruct (GateFacts.entity_files_request
              (deliver (arrivals t1) (store w) (host w)).1
              (deliver (arrivals t1) (store w) (host w)).2
              (input_sessionId input) tool toolArgs why) as [created Hfiled].
  rewrite <- Hstore1, GateFacts.deliver_leaves_requests in Hfiled by done.
  fold (ledger w1) in Hfiled. fold (ledger w) in Hfiled.
  set (request := {| sessionId := input_sessionId input; toolName := tool;
                     toolArgs := toolArgs; reasoning := why;
                     requestTimestamp := created; status := pending;
                     humanResponse := None; humanResponseTimestamp := None |})
    in Hfiled.
  (* the human's decision resolves it *)
  assert (Hdecided : ∃ decided,
            default [] (pendingApprovals
                          <$> (deliver (arrivals t2) (store w1) (host w1)).1)
            = ledger w
              ++ [resolve request
                    (if ok then decide_approved else decide_rejected)
                    (Some (string_or fb EmptyString)) decided]).
  { rewrite Ht2. unfold deliver, approvalSignal. simpl.
    pose proof (GateFacts.entity_decides (store w1) (host w1) (input_sessionId input)
                  (if ok then decide_approved else decide_rejected)
                  (Some (string_or fb EmptyString))) as Hdecides.
    fold (ledger w1) in Hdecides. rewrite Hfiled in Hdecides.
    rewrite GateFacts.list_find_fresh_last in Hdecides by (done || by split).
    destruct Hdecides as [decided Hdecides]. exists decided.
    destruct (createConversationEntity _ (store w1) (host w1)) as [[result stored] h].
    simpl in *. rewrite Hdecides, insert_app_r_alt by done.
    by rewrite Nat.sub_diag. }
  destruct Hdecided as [decided Hdecided].
  assert (Hsettled :
            Forall (fun a => ¬ awaitsDecision (input_sessionId input) a)
              (ledger w
               ++ [resolve request
                     (if ok then decide_approved else decide_rejected)
                     (Some (string_or fb EmptyString)) decided])).
  { apply Forall_app. split; [done|]. apply Forall_singleton.
    intros [_ Hpending]. by destruct ok. }
  (* the rejection for the timeout finds nothing pending *)
  assert (Hlate : ∀ stored h,
            default [] (pendingApprovals <$> stored)
            = ledger w
              ++ [resolve request
                    (if ok then decide_approved else decide_rejected)
                    (Some (string_or fb EmptyString)) decided] →
            (createConversationEntity
               (handleApproval (input_sessionId input) decide_rejected timeoutReason)
               stored h).1.2
            = stored).
  { intros stored h Hstored.
    pose proof (GateFacts.entity_decides stored h (input_sessionId input)
                  decide_rejected timeoutReason) as Hdecides.
    rewrite Hstored in Hdecides.
    by rewrite (proj2 (list_find_None _ _) Hsettled) in Hdecides. }
  unfold mbind at 1, currentUtcDateTime. unfold mbind at 1.
  destruct (GateFacts.pollLoop_spec (pollBudget (minutesOf input * 60 * 1000))
              (input_sessionId input) tool
              (new_Date (now w1 + minutesOf input * 60 * 1000)) w1)
    as (w2 & outcome & Hpoll & _ & _ & _ & Hfuel).
  assert (outcome = Expired) as ->.
  { apply Hfuel. intros limit. unfold new_Date.
    destruct (decide _); [|done]. intros [= <-].
    pose proof (GateFacts.pollBudget_enough (minutesOf input * 60 * 1000)). lia. }
  destruct (pollLoop_after_tick (Z.to_nat (minutesOf input * 60 * 1000 / 5000))
              (input_sessionId input) tool
              (new_Date (now w1 + minutesOf input * 60 * 1000)) w1 t2 rest
              Henv1 Hrest)
    as (w2' & outcome' & Hpoll' & Hcases).
  change (S (Z.to_nat (minutesOf input * 60 * 1000 / 5000)))
    with (pollBudget (minutesOf input * 60 * 1000)) in Hpoll'.
  rewrite Hpoll in Hpoll'. injection Hpoll' as <- <-. rewrite Hpoll.
  unfold mbind at 1. unfold mbind at 1. fold timeoutReason.
  assert (Hend : ∃ w3 result stored h,
            callEntity
              (handleApproval (input_sessionId input) decide_rejected timeoutReason) w2
            = (w3, Returned result)
            ∧ store w3
              = (createConversationEntity
                   (handleApproval (input_sessionId input) decide_rejected
                      timeoutReason) stored h).1.2
            ∧ default [] (pendingApprovals <$> stored)
              = ledger w
                ++ [resolve request
                      (if ok then decide_approved else decide_rejected)
                      (Some (string_or fb EmptyString)) decided]).
  { destruct Hcases as [->|[Hledger2 Hquiet2]].
    - destruct (GateFacts.callEntity_spec
                  (handleApproval (input_sessionId input) decide_rejected
                     timeoutReason) w1)
        as (w3 & reached3 & Hrun & -> & Hstore3 & _).
      rewrite Henv1 in Hstore3. simpl in Hstore3.
      eexists w3, _, _, _. split; [exact Hrun|]. split; [exact Hstore3|].
      exact Hdecided.
    - destruct (GateFacts.callEntity_undecided
                  (handleApproval (input_sessionId input) decide_rejected
                     timeoutReason) w2 Hquiet2)
        as (w3 & stored & h & Hrun & Hbefore & Hstore3 & _).
      eexists w3, _, stored, h. split; [exact Hrun|]. split; [exact Hstore3|].
      by rewrite Hbefore, Hledger2. }
  destruct Hend as (w3 & result & stored & h & -> & Hstore3 & Hstored).
  simpl. exists created, decided.
  unfold ledger at 1. rewrite Hstore3, (Hlate stored h Hstored), Hstored.
  by destruct ok.
Qed.

(** X21.  A decision of the approval endpoint that reaches the entity
    while the gate is busy with its request does not reach the gate.  When
    no request of the session is pending at the start, and the decision
    arrives right after the gate filed its request: the request is on
    record as the human decided it, approved or rejected, with the
    feedback; the gate all the same answers [TIMEOUT] and does not run the
    tool, also when the human approved; and its closing rejection for the
    timeout, which finds no pending request, leaves the record as it
    is. *)
Theorem decision_never_reaches_the_gate
    (this : Agent) (input : OrchestratorInput) (tool : string)
    (toolArgs : JsValue) (w : World) (t1 t2 : Tick) (rest : list Tick)
    (ok : bool) (fb : option string) :
  Forall (fun a => ¬ awaitsDecision (input_sessionId input) a) (ledger w) →
  environment w = t1 :: t2 :: rest →
  Forall leavesRequests (arrivals t1) →
  arrivals t2 = [approvalSignal (input_sessionId input) ok fb] →
  Forall (fun t => Forall leavesRequests (arrivals t)) rest →
  ∃ w' created decided,
    gate this input tool toolArgs w
    = (w', Returned
             {| success := true;
                response := "[TIMEOUT] Request timed out after "
                            +:+ pretty (minutesOf input) +:+ " minutes";
                requiresApproval := true;
                out_sessionId := Some (input_sessionId input);
                out_toolName := Some tool; out_toolArgs := Some toolArgs |})
    ∧ ledger w'
      = ledger w
        ++ [{| sessionId := input_sessionId input; toolName := tool;
               toolArgs := toolArgs;
               reasoning := "AI wants to execute " +:+ tool +:+ " with: "
                            +:+ JSON_stringify (JSON_ this) toolArgs;
               requestTimestamp := created;
               status := if ok then approved else rejected;
               humanResponse := Some (string_or fb EmptyString);
               humanResponseTimestamp := Some decided |}]
    ∧ invoked w' = invoked w
    ∧ gateEvents (trace w') = gateEvents (trace w) ++ [RequestCreated tool].
Proof.
  intros Hclean Henv Ht1 Ht2 Hrest.
  destruct (gate_ledger_after_decision this input tool toolArgs w t1 t2 rest ok fb
              Hclean Henv Ht1 Ht2 Hrest) as (created & decided & Hledger).
  destruct (GateFacts.gate_spec this input tool toolArgs w)
    as (w' & Hrun & [Hevents _] & Hinvoked & _).
  rewrite Hrun in Hledger. simpl in Hledger.
  by exists w', created, decided.
Qed.

Lemma decision_never_reaches_the_gate_witness :
  ∃ w',
    gate GateSamples.bankAgent (GateSamples.turn "pay") "makePayment"
      (JObj [("amount", JNum 100)])
      (GateSamples.worldWith None
         [quietTick;
          {| arrivals := [approvalSignal "s1" true (Some "ok")]; lag := 2%N |};
          {| arrivals := [getState]; lag := 0%N |}])
    = (w', Returned
             {| success := true;
                response := "[TIMEOUT] Request timed out after 1 minutes";
                requiresApproval := true; out_sessionId := Some "s1";
                out_toolName := Some "makePayment";
                out_toolArgs := Some (JObj [("amount", JNum 100)]) |})
    ∧ (fun a => (toolName a, status a, humanResponse a)) <$> ledger w'
      = [("makePayment", approved, Some "ok")]
    ∧ invoked w' = [].
Proof.
  destruct (decision_never_reaches_the_gate GateSamples.bankAgent
              (GateSamples.turn "pay") "makePayment" (JObj [("amount", JNum 100)])
              (GateSamples.worldWith None
                 [quietTick;
                  {| arrivals := [approvalSignal "s1" true (Some "ok")];
                     lag := 2%N |};
                  {| arrivals := [getState]; lag := 0%N |}])
              quietTick
              {| arrivals := [approvalSignal "s1" true (Some "ok")]; lag := 2%N |}
              [{| arrivals := [getState]; lag := 0%N |}] true (Some "ok"))
    as (w' & created & decided & Hrun & Hledger & Hinvoked & _).
  - apply Forall_nil_2.
  - reflexivity.
  - apply Forall_nil_2.
  - reflexivity.
  - repeat constructor.
  - exists w'. split; [exact Hrun|]. split; [|exact Hinvoked].
    rewrite Hledger. reflexivity.
Defined.

End GateTimingFacts.

(* ================================================================== *)
(** * Turns whose tool calls need no approval *)
(* ================================================================== *)

Module UngatedTurnFacts.
Import Js Tool OpenAI Http HumanInLoopDurableAgentOrchestrator.
Import HumanInLoopDurableAgentOrchestratorHttp.

Lemma callProcessMessage_frame this message w :
  ∃ w',
    callProcessMessage this message w
    = (w', openai this (api_calls w)
             {| messages := [SystemMessage (systemPrompt (config this));
                             UserMessage message];
                tools := Some (getOpenAISchema (toolRegistry this)) |})
    ∧ invoked w' = invoked w
    ∧ api_calls w' = S (api_calls w).
Proof.
  unfold callProcessMessage, mbind, currentUtcDateTime, suspend.
  destruct (deliver _ (store w) (host w)) as [stored h]. simpl.
  eexists. split; [reflexivity|]. done.
Qed.

Lemma callExecuteTool_frame this tool toolArgs w :
  ∃ w',
    callExecuteTool this tool toolArgs w
    = (w', (executeTool (toolRegistry this) tool toolArgs).2)
    ∧ invoked w' = invoked w ++ (executeTool (toolRegistry this) tool toolArgs).1
    ∧ api_calls w' = api_calls w.
Proof.
  unfold callExecuteTool, mbind, currentUtcDateTime, suspend.
  destruct (deliver _ (store w) (host w)) as [stored h]. simpl.
  destruct (executeTool (toolRegistry this) tool toolArgs) as [calls outcome].
  eexists. split; [reflexivity|]. done.
Qed.

Lemma toolText_Some this c text :
  toolText this c = Some text →
  ∃ toolArgs,
    JSON_parse (JSON_ this) (call_arguments c) = Returned toolArgs
    ∧ (executeTool (toolRegistry this) (call_name c) toolArgs).2 = Returned text
    ∧ toolInvocations this c
      = (executeTool (toolRegistry this) (call_name c) toolArgs).1.
Proof.
  unfold toolText, toolInvocations, argumentsOf.
  destruct (JSON_parse (JSON_ this) (call_arguments c)) as [toolArgs|e];
    [|discriminate].
  destruct ((executeTool (toolRegistry this) (call_name c) toolArgs).2)
    as [text'|e] eqn:Hran; [|discriminate].
  intros [= <-]. by exists toolArgs.
Qed.

Lemma toolText_None this c :
  toolText this c = None →
  ∃ e,
    (argumentsOf this c = Threw e
     ∨ ∃ toolArgs, argumentsOf this c = Returned toolArgs
                   ∧ Map_get (call_name c) (toolRegistry this) = None
                   ∧ e = notFound (call_name c))
    ∧ toolInvocations this c = [].
Proof.
  unfold toolText, toolInvocations.
  destruct (argumentsOf this c) as [toolArgs|e]; [|intros _; exists e; by split; [left|]].
  unfold executeTool.
  destruct (Map_get (call_name c) (toolRegistry this)) as [tool|].
  - destruct (argArray tool toolArgs) as [argv|e]; [|discriminate].
    destruct (handler tool argv); discriminate.
  - intros _. exists (notFound (call_name c)). split; [|done].
    right. by exists toolArgs.
Qed.

Lemma last_cons_default {A} (x : A) (l : list A) d :
  default d (last (x :: l)) = default x (last l).
Proof.
  revert x d. induction l as [|y l IH]; intros x d; [done|].
  change (last (x :: y :: l)) with (last (y :: l)). by rewrite !IH.
Qed.

(** The loop over calls that need no approval and succeed. *)
Lemma toolLoop_ungated this input calls texts tail finalResponse w :
  Forall (ungated this) calls →
  Forall2 (fun c text => toolText this c = Some text) calls texts →
  ∃ w',
    toolLoop this input (calls ++ tail) finalResponse w
    = toolLoop this input tail (default finalResponse (last texts)) w'
    ∧ invoked w' = invoked w ++ concat (toolInvocations this <$> calls)
    ∧ api_calls w' = api_calls w.
Proof.
  intros Hfree Htexts. revert finalResponse w Hfree.
  induction Htexts as [|c text calls texts Hc Htexts IH];
    intros finalResponse w Hfree.
  - exists w. simpl. by rewrite app_nil_r.
  - apply Forall_cons in Hfree as [Hc_free Hfree].
    destruct (toolText_Some _ _ _ Hc) as (toolArgs & Hparse & Hran & Hinv).
    simpl. unfold mbind at 1, lift. rewrite Hparse.
    unfold ungated in Hc_free. rewrite decide_False by done.
    unfold mbind at 1.
    destruct (callExecuteTool_frame this (call_name c) toolArgs w)
      as (w1 & -> & Hi1 & Ha1).
    rewrite Hran.
    destruct (IH text w1 Hfree) as (w2 & -> & Hi2 & Ha2).
    exists w2. rewrite last_cons_default. split_and!; try done.
    + rewrite Hi2, Hi1, Hinv. by rewrite <- app_assoc.
    + congruence.
Qed.

Lemma loop_entry this input (requested : option (list ToolCall)) finalResponse :
  match requested with
  | Some (toolCall :: rest) => toolLoop this input (toolCall :: rest) finalResponse
  | _ => ret (inl finalResponse)
  end
  = toolLoop this input (default [] requested) finalResponse.
Proof. by destruct requested as [[|c rest]|]. Qed.

(** The turn up to the loop over the tool calls. *)
Lemma turn_entry this input w modelAnswer :
  openai this (api_calls w)
    {| messages := [SystemMessage (systemPrompt (config this));
                    UserMessage (input_message input)];
       tools := Some (getOpenAISchema (toolRegistry this)) |}
  = Returned modelAnswer →
  ∃ w2,
    createChatOrchestrator this input w
    = (let (w3, exit) :=
         toolLoop this input (default [] (tool_calls modelAnswer))
           (string_or (message_content modelAnswer) "No response generated") w2 in
       match exit with
       | Returned (inr output) => (w3, Returned output)
       | Returned (inl finalResponse) =>
           (callEntity (addMessage assistant finalResponse) ;;;
            ret {| success := true; response := finalResponse;
                   requiresApproval := false; out_sessionId := None;
                   out_toolName := None; out_toolArgs := None |})%js w3
       | Threw e => (w3, Threw e)
       end)
    ∧ invoked w2 = invoked w
    ∧ api_calls w2 = S (api_calls w).
Proof.
  intros Hmodel.
  unfold createChatOrchestrator, try_catch. unfold mbind at 1.
  destruct (GateTimingFacts.callEntity_frame
              (addMessage user (input_message input)) w)
    as (w1 & result1 & -> & _ & Hi1 & Ha1 & _).
  unfold mbind at 1.
  destruct (callProcessMessage_frame this (input_message input) w1)
    as (w2 & -> & Hi2 & Ha2).
  rewrite Ha1, Hmodel. cbv beta iota zeta.
  rewrite loop_entry. unfold mbind at 1.
  exists w2. split; [|split; congruence].
  destruct (toolLoop _ _ _ _ w2) as [w3 [[finalResponse|output]|e]]; try done.
  unfold mbind, ret, throw.
  by destruct (callEntity (addMessage assistant finalResponse) w3) as [w4 [r|e]].
Qed.

(** X22.  A turn of the human-in-the-loop orchestrator whose tool calls
    all need no approval and all succeed calls the model once, runs the
    handlers of the calls in order, and answers with the text of the last
    tool call as it is; the model's own text is the answer only when there
    is no tool call, and [No response generated] when there is neither.
    The answer is stored as the assistant's message after the user's. *)
Theorem ungated_turn_answers_with_last_tool_result
    (this : Agent) (input : OrchestratorInput) (w : World)
    (modelAnswer : AssistantMessage) (texts : list string) :
  openai this (api_calls w)
    {| messages := [SystemMessage (systemPrompt (config this));
                    UserMessage (input_message input)];
       tools := Some (getOpenAISchema (toolRegistry this)) |}
  = Returned modelAnswer →
  let calls := default [] (tool_calls modelAnswer) in
  Forall (ungated this) calls →
  Forall2 (fun toolCall text => toolText this toolCall = Some text) calls texts →
  let run := createChatOrchestrator this input w in
  let finalResponse :=
    default (string_or (message_content modelAnswer) "No response generated")
            (last texts) in
  run.2 = Returned {| success := true; response := finalResponse;
                      requiresApproval := false; out_sessionId := None;
                      out_toolName := None; out_toolArgs := None |}
  ∧ invoked run.1 = invoked w ++ concat (toolInvocations this <$> calls)
  ∧ api_calls run.1 = S (api_calls w)
  ∧ (decisionsOnly w →
     said <$> history run.1
     = (said <$> history w)
       ++ [(user, input_message input); (assistant, finalResponse)]).
Proof.
  intros Hmodel calls Hfree Htexts run finalResponse. subst calls run finalResponse.
  cut (∃ w',
         createChatOrchestrator this input w
         = (w', Returned
                  {| success := true;
                     response :=
                       default (string_or (message_content modelAnswer)
                                  "No response generated") (last texts);
                     requiresApproval := false; out_sessionId := None;
                     out_toolName := None; out_toolArgs := None |})
         ∧ invoked w'
           = invoked w
             ++ concat (toolInvocations this <$> default [] (tool_calls modelAnswer))
         ∧ api_calls w' = S (api_calls w)).
  { intros (w' & Hrun & Hinvoked & Hcalls). rewrite Hrun. simpl.
    split_and!; try done. intros Hd.
    by destruct (OrchestratorTurnFacts.turn_history this input w w' _ Hd Hrun)
      as [-> _]. }
  destruct (turn_entry this input w modelAnswer Hmodel) as (w2 & -> & Hi2 & Ha2).
  destruct (toolLoop_ungated this input _ texts []
              (string_or (message_content modelAnswer) "No response generated")
              w2 Hfree Htexts)
    as (w3 & Hloop & Hi3 & Ha3).
  rewrite app_nil_r in Hloop. rewrite Hloop. simpl.
  unfold mbind at 1.
  destruct (GateTimingFacts.callEntity_frame
              (addMessage assistant
                 (default (string_or (message_content modelAnswer)
                             "No response generated") (last texts))) w3)
    as (w4 & result4 & -> & _ & Hi4 & Ha4 & _).
  eexists. split; [reflexivity|]. split; congruence.
Qed.

Lemma ungated_turn_answers_with_last_tool_result_witness :
  (createChatOrchestrator GateSamples.bankAgent (GateSamples.turn "check")
     (GateSamples.worldWith None [])).2
  = Returned {| success := true; response := "Balance: $1,000";
                requiresApproval := false; out_sessionId := None;
                out_toolName := None; out_toolArgs := None |}.
Proof.
  destruct (ungated_turn_answers_with_last_tool_result GateSamples.bankAgent
              (GateSamples.turn "check") (GateSamples.worldWith None [])
              {| message_content := None;
                 tool_calls := Some [GateSamples.balanceCall] |}
              ["Balance: $1,000"])
    as (Hout & _).
  - reflexivity.
  - constructor; [|constructor]. apply (bool_decide_unpack _). vm_compute. reflexivity.
  - constructor; [reflexivity|constructor].
  - exact Hout.
Defined.

(** X23.  A tool call that needs no approval and whose arguments are not
    valid JSON, or whose tool is not registered, fails the whole turn with
    that error.  The calls in front of it have been executed, the calls
    behind it are not, and the history keeps the user's message without a
    response. *)
Theorem failing_tool_call_fails_the_turn
    (this : Agent) (input : OrchestratorInput) (w : World)
    (modelAnswer : AssistantMessage) (good : list ToolCall) (bad : ToolCall)
    (rest : list ToolCall) (texts : list string) :
  openai this (api_calls w)
    {| messages := [SystemMessage (systemPrompt (config this));
                    UserMessage (input_message input)];
       tools := Some (getOpenAISchema (toolRegistry this)) |}
  = Returned modelAnswer →
  tool_calls modelAnswer = Some (good ++ bad :: rest) →
  Forall (ungated this) (good ++ [bad]) →
  Forall2 (fun toolCall text => toolText this toolCall = Some text) good texts →
  toolText this bad = None →
  let run := createChatOrchestrator this input w in
  (∃ e, run.2 = Threw e
        ∧ (argumentsOf this bad = Threw e
           ∨ (Map_get (call_name bad) (toolRegistry this) = None
              ∧ e = notFound (call_name bad))))
  ∧ invoked run.1 = invoked w ++ concat (toolInvocations this <$> good)
  ∧ (decisionsOnly w →
     said <$> history run.1
     = (said <$> history w) ++ [(user, input_message input)]).
Proof.
  intros Hmodel Hcalls Hfree Htexts Hbad run. subst run.
  cut (∃ w' e,
         createChatOrchestrator this input w = (w', Threw e)
         ∧ (argumentsOf this bad = Threw e
            ∨ (Map_get (call_name bad) (toolRegistry this) = None
               ∧ e = notFound (call_name bad)))
         ∧ invoked w' = invoked w ++ concat (toolInvocations this <$> good)).
  { intros (w' & e & Hrun & He & Hinvoked). rewrite Hrun. simpl.
    split_and!; [by exists e|done|]. intros Hd.
    by destruct (OrchestratorTurnFacts.turn_history this input w w' _ Hd Hrun)
      as [-> _]. }
  apply Forall_app in Hfree as [Hgood Hbad_free].
  apply Forall_cons in Hbad_free as [Hbad_free _].
  destruct (turn_entry this input w modelAnswer Hmodel) as (w2 & -> & Hi2 & Ha2).
  rewrite Hcalls. simpl.
  destruct (toolLoop_ungated this input good texts (bad :: rest)
              (string_or (message_content modelAnswer) "No response generated")
              w2 Hgood Htexts)
    as (w3 & -> & Hi3 & Ha3).
  destruct (toolText_None this bad Hbad) as (e & He & Hnone).
  simpl. unfold mbind at 1, lift. unfold argumentsOf in He.
  destruct He as [Hparse|(toolArgs & Hparse & Hmiss & ->)]; rewrite Hparse.
  - exists w3, e. split; [done|]. split; [by left|congruence].
  - unfold ungated in Hbad_free. rewrite decide_False by done.
    unfold mbind at 1.
    destruct (callExecuteTool_frame this (call_name bad) toolArgs w3)
      as (w4 & -> & Hi4 & Ha4).
    unfold executeTool in *. rewrite Hmiss in *. simpl in *.
    exists w4, (notFound (call_name bad)). split; [done|].
    split; [by right|]. rewrite Hi4, Hi3, Hi2. by rewrite app_nil_r.
Qed.

Lemma failing_tool_call_fails_the_turn_witness :
  ∃ e,
    (createChatOrchestrator
       (setHumanApprovalTools []
          {| openai := GateSamples.bankModel;
             config := {| agentName := "FinancialAgent";
                          systemPrompt := "You are a financial assistant." |};
             toolRegistry := registerTool GateSamples.checkBalance new_ToolRegistry;
             humanApprovalTools := ∅;
             JSON_ := AgentSamples.sampleJSON |})
       (GateSamples.turn "check then pay") (GateSamples.worldWith None [])).2
    = Threw e.
Proof.
  destruct (failing_tool_call_fails_the_turn
              (setHumanApprovalTools []
                 {| openai := GateSamples.bankModel;
                    config := {| agentName := "FinancialAgent";
                                 systemPrompt := "You are a financial assistant." |};
                    toolRegistry :=
                      registerTool GateSamples.checkBalance new_ToolRegistry;
                    humanApprovalTools := ∅;
                    JSON_ := AgentSamples.sampleJSON |})
              (GateSamples.turn "check then pay") (GateSamples.worldWith None [])
              {| message_content := None;
                 tool_calls := Some [GateSamples.balanceCall; GateSamples.paymentCall] |}
              [GateSamples.balanceCall] GateSamples.paymentCall []
              ["Balance: $1,000"])
    as ((e & Hthrown & _) & _).
  - reflexivity.
  - reflexivity.
  - repeat constructor; apply (bool_decide_unpack _); vm_compute; reflexivity.
  - constructor; [reflexivity|constructor].
  - reflexivity.
  - by exists e.
Defined.

End UngatedTurnFacts.

(* ================================================================== *)
(** * The endpoints of the human-in-the-loop orchestrator *)
(* ================================================================== *)

Module OrchestratorEndpointFacts.
Import Js Tool OpenAI Http HumanInLoopDurableAgentOrchestrator.
Import HumanInLoopDurableAgentOrchestratorHttp.

(** X24.  The approval endpoint of the orchestrator, given a session and
    a body whose [approved] is a boolean, sends one [handleApproval]
    signal for the session with the decision and with the feedback (the
    empty text when the feedback is missing or falsy), and answers 200
    [Human approval stored for session.] when the signal was sent.  It
    does not look for a request: when the session has no pending request,
    the entity answers the signal with [Approval request not found] and
    changes nothing, and the endpoint has answered 200 all the same. *)
Theorem approve_endpoint_never_looks_for_a_request
    (signalEntity : SessionSignal → Completion unit) (request : HttpRequest)
    (session : string) (body : JsValue) (ok : bool) :
  params_sessionId request = Some session →
  session ≠ EmptyString →
  json request = Returned body →
  getOptional body "approved" = JBool ok →
  let outcome := createApprovalBySessionEndpoint signalEntity request in
  let feedback := getOptional body "feedback" in
  let signal :=
    {| ss_sessionId := session;
       ss_decision := if ok then decide_approved else decide_rejected;
       ss_humanResponse := or_else feedback (JStr EmptyString) |} in
  outcome.2 = [signal]
  ∧ (signalEntity signal = Returned tt →
     approve_status outcome.1 = 200
     ∧ approve_success outcome.1 = true
     ∧ approve_message outcome.1 = Some "Human approval stored for session."
     ∧ approve_approved outcome.1 = Some ok)
  ∧ (∀ text, feedback = JStr text →
       operationOf signal = Some (approvalSignal session ok (Some text)))
  ∧ (truthy feedback = false →
       operationOf signal = Some (approvalSignal session ok None))
  ∧ (∀ op stored h,
       operationOf signal = Some op →
       Forall (fun a => ¬ awaitsDecision session a)
              (default [] (pendingApprovals <$> stored)) →
       (createConversationEntity op stored h).1
       = (Failure "Approval request not found", stored)).
Proof.
  intros Hsession Hnonempty Hjson Happroved outcome feedback signal.
  subst outcome feedback signal.
  unfold createApprovalBySessionEndpoint. rewrite Hsession, Hjson. simpl.
  destruct session as [|c session']; [done|]. simpl.
  assert (Hbody : destructure body
                  = Returned (JBool ok, getOptional body "feedback")).
  { unfold destructure. rewrite Happroved. by destruct body. }
  rewrite Hbody.
  set (session := String c session').
  set (signal := {| ss_sessionId := session;
                    ss_decision := if ok then decide_approved else decide_rejected;
                    ss_humanResponse :=
                      or_else (getOptional body "feedback") (JStr EmptyString) |}).
  split_and!.
  - by destruct (signalEntity signal) as [[]|e].
  - intros ->. done.
  - intros text Htext. unfold operationOf, approvalSignal, signal, or_else.
    cbn [ss_humanResponse ss_sessionId ss_decision]. rewrite Htext.
    by destruct text.
  - intros Hfalsy. unfold operationOf, approvalSignal, signal, or_else.
    cbn [ss_humanResponse ss_sessionId ss_decision]. by rewrite Hfalsy.
  - intros op stored h Hop Hnone.
    assert (Hshape : ∃ response,
              op = handleApproval session (ss_decision signal) response).
    { unfold operationOf in Hop.
      destruct (ss_humanResponse signal); try discriminate.
      injection Hop as <-. by eexists. }
    destruct Hshape as [response ->].
    rewrite OrchestratorEntityFacts.handleApproval_by_session_missing; [done|].
    apply list_find_None.
    by rewrite OrchestratorEntityFacts.ledger_loadState_by_session.
Qed.

Lemma approve_endpoint_never_looks_for_a_request_witness :
  approve_status
    (createApprovalBySessionEndpoint (fun _ => Returned tt)
       {| json := Returned (JObj [("approved", JBool true)]);
          params_sessionId := Some "no-such-session" |}).1
  = 200.
Proof.
  destruct (approve_endpoint_never_looks_for_a_request (fun _ => Returned tt)
              {| json := Returned (JObj [("approved", JBool true)]);
                 params_sessionId := Some "no-such-session" |}
              "no-such-session" (JObj [("approved", JBool true)]) true)
    as (_ & Hstored & _).
  - reflexivity.
  - discriminate.
  - reflexivity.
  - reflexivity.
  - by destruct (Hstored eq_refl) as (Hstatus & _).
Defined.

(** X25.  The chat endpoint of the human-in-the-loop orchestrator starts
    at most one orchestration and answers 200, 202 or 500.  The timeout it
    passes on is the body's [approvalTimeoutMinutes] when that is truthy
    and 30 otherwise, so a timeout of 0 cannot be asked for (it becomes
    30) while a negative one is passed on.  It answers 200 exactly when
    the started orchestration's status already carries an output that
    requires approval and names a session, and it answers 500 although an
    orchestration was started exactly when [startNew] or [getStatus]
    failed. *)
Theorem timed_chat_endpoint_outcomes
    (this : Agent) (client : DurableClient) (request : HttpRequest) (h : Host) :
  let outcome := createChatEndpoint this client request h in
  let answer := outcome.1.1 in
  let started := outcome.1.2 in
  (length started ≤ 1)%nat
  ∧ (chat_status answer = 200 ∨ chat_status answer = 202 ∨ chat_status answer = 500)
  ∧ (∀ input, started = [input] →
       ∃ body,
         json request = Returned body
         ∧ timed_message input = messageOf body
         ∧ timed_approvalTimeoutMinutes input
           = (if truthy (getOptional body "approvalTimeoutMinutes")
              then getOptional body "approvalTimeoutMinutes" else JNum 30)
         ∧ (∀ turn, inputOf input = Some turn →
              minutesOf turn ≠ 0
              ∧ (getOptional body "approvalTimeoutMinutes" = JUndefined →
                 minutesOf turn = 30)))
  ∧ (chat_status answer = 200
     ↔ ∃ input instanceId output,
         started = [input]
         ∧ startNew client input = Returned instanceId
         ∧ getStatus client instanceId = Returned (Some output)
         ∧ requiresApproval output = true
         ∧ (∃ session, out_sessionId output = Some session
                       ∧ session ≠ EmptyString))
  ∧ (chat_status answer = 500 ∧ started ≠ []
     ↔ ∃ input, started = [input]
                ∧ ((∃ e, startNew client input = Threw e)
                   ∨ (∃ instanceId e,
                        startNew client input = Returned instanceId
                        ∧ getStatus client instanceId = Threw e))).
Proof.
  unfold createChatEndpoint.
  destruct (json request) as [body|e0] eqn:Hjson; simpl.
  2:{ split_and!; [lia|auto|done| |].
      - split; [done|]. by intros (? & ? & ? & ? & _).
      - split; [by intros [_ ?]|]. by intros (? & ? & _). }
  destruct (sessionOf body (params_sessionId request) h) as [session h1].
  destruct (substring_check (messageOf body)) as [[]|e1] eqn:Hmessage; simpl.
  2:{ split_and!; [lia|auto|done| |].
      - split; [done|]. by intros (? & ? & ? & ? & _).
      - split; [by intros [_ ?]|]. by intros (? & ? & _). }
  set (input := {| timed_orchestrator :=
                     AgentNames.orchestratorName (agentName (config this));
                   timed_message := messageOf body;
                   timed_sessionId := session;
                   timed_approvalTimeoutMinutes :=
                     or_else (getOptional body "approvalTimeoutMinutes") (JNum 30) |}).
  assert (Hinput : ∀ i, [input] = [i] →
            ∃ body0,
              Returned body = Returned body0
              ∧ timed_message i = messageOf body0
              ∧ timed_approvalTimeoutMinutes i
                = (if truthy (getOptional body0 "approvalTimeoutMinutes")
                   then getOptional body0 "approvalTimeoutMinutes" else JNum 30)
              ∧ (∀ turn, inputOf i = Some turn →
                   minutesOf turn ≠ 0
                   ∧ (getOptional body0 "approvalTimeoutMinutes" = JUndefined →
                      minutesOf turn = 30))).
  { intros i [= <-]. exists body. split_and!; try done.
    intros turn. unfold inputOf, input, or_else. simpl.
    destruct (messageOf body); try discriminate.
    destruct session; try discriminate.
    destruct (getOptional body "approvalTimeoutMinutes") as [| |b|n|t|items|props]
      eqn:Hminutes; simpl;
      try destruct b; try destruct (isEmpty t);
      try destruct (n =? 0) eqn:Hzero; simpl; try discriminate;
      intros [= <-]; unfold minutesOf; simpl; split; try done; lia. }
  destruct (startNew client input) as [instanceId|e2] eqn:Hstart; simpl.
  2:{ split_and!; [lia|auto|exact Hinput| |].
      - split; [done|]. intros (i & inst & out & [= <-] & Hs & _). congruence.
      - split; [|done]. intros _. exists input. split; [done|]. left. by exists e2. }
  destruct (getStatus client instanceId) as [output|e3] eqn:Hstatus; simpl.
  2:{ split_and!; [lia|auto|exact Hinput| |].
      - split; [done|].
        intros (i & inst & out & [= <-] & Hs & Hg & _). congruence.
      - split; [|done]. intros _. exists input. split; [done|]. right.
        by exists instanceId, e3. }
  assert (Hasks : asksForApproval output = true
                  ↔ ∃ out, output = Some out ∧ requiresApproval out = true
                           ∧ ∃ s, out_sessionId out = Some s ∧ s ≠ EmptyString).
  { unfold asksForApproval. destruct output as [out|].
    - rewrite andb_true_iff, negb_true_iff. split.
      + intros [Hreq Hs]. exists out. split_and!; try done.
        destruct (out_sessionId out) as [s|]; [|done].
        exists s. split; [done|]. by intros ->.
      + intros (out' & [= <-] & Hreq & s & Hs & Hne). split; [done|].
        rewrite Hs. simpl. by destruct s.
    - split; [done|]. by intros (? & ? & _). }
  destruct (asksForApproval output) eqn:Hdecision; simpl.
  - destruct (proj1 Hasks eq_refl) as (out & -> & Hreq & Hs).
    split_and!; [lia|auto|exact Hinput| |].
    + split; [|done]. intros _. by exists input, instanceId, out.
    + split; [by intros [? _]|].
      intros (i & [= <-] & [[e He]|(inst & e & Hs' & Hg)]); congruence.
  - split_and!; [lia|auto|exact Hinput| |].
    + split; [done|].
      intros (i & inst & out & [= <-] & Hs & Hg & Hreq & Hsess).
      assert (inst = instanceId) as -> by congruence.
      assert (output = Some out) as -> by congruence.
      assert (false = true); [|done]. apply Hasks. by exists out.
    + split; [by intros [? _]|].
      intros (i & [= <-] & [[e He]|(inst & e & Hs' & Hg)]); congruence.
Qed.

End OrchestratorEndpointFacts.

(* ================================================================== *)
(** * The approval API of the function app *)
(* ================================================================== *)

Module FunctionAppFacts.
Import Js Tool OpenAI Http HumanInLoopDurableAgentWrapper.
Import HumanInLoopDurableAgentWrapperHttp HumanInLoopFunctionApp MapFacts.

Lemma holder_cases approvalId s :
  match holder approvalId s with
  | Some Financial => is_Some (getPendingApproval approvalId (financialWorld s))
  | Some Data =>
      getPendingApproval approvalId (financialWorld s) = None
      ∧ is_Some (getPendingApproval approvalId (dataWorld s))
  | Some Communication =>
      getPendingApproval approvalId (financialWorld s) = None
      ∧ getPendingApproval approvalId (dataWorld s) = None
      ∧ is_Some (getPendingApproval approvalId (communicationWorld s))
  | None =>
      getPendingApproval approvalId (financialWorld s) = None
      ∧ getPendingApproval approvalId (dataWorld s) = None
      ∧ getPendingApproval approvalId (communicationWorld s) = None
  end.
Proof.
  unfold holder. rewrite !filter_cons, filter_nil. simpl.
  destruct (getPendingApproval approvalId (financialWorld s)) as [a1|] eqn:E1.
  { rewrite decide_True by by eexists. simpl. by eexists. }
  rewrite decide_False by by intros [? ?].
  destruct (getPendingApproval approvalId (dataWorld s)) as [a2|] eqn:E2.
  { rewrite decide_True by by eexists. simpl. split; [done|by eexists]. }
  rewrite decide_False by by intros [? ?].
  destruct (getPendingApproval approvalId (communicationWorld s)) as [a3|] eqn:E3.
  { rewrite decide_True by by eexists. simpl. split_and!; [done|done|by eexists]. }
  rewrite decide_False by by intros [? ?]. done.
Qed.

(** What [processApproval] does on a well-formed request. *)
Lemma processApproval_decides app s approvalId body ok fb :
  approvalId ≠ EmptyString →
  getProperty body "approved" = Returned (JBool ok) →
  feedbackOf (getOptional body "feedback") = Some fb →
  match holder approvalId s with
  | None =>
      processApproval app (Some approvalId) (Returned body) s
      = Some (decisionRefused 404
                ("Approval " +:+ approvalId +:+ " not found or already processed"),
              s)
  | Some label =>
      ∃ s',
        processApproval app (Some approvalId) (Returned body) s
        = Some (decisionMade approvalId ok label (getOptional body "feedback"), s')
        ∧ worldOf s' label
          = (processApprovalDecision (agentOf app label) approvalId ok fb
               (worldOf s label)).1
        ∧ (∀ other, other ≠ label → worldOf s' other = worldOf s other)
  end.
Proof.
  intros Hid Happroved Hfeedback.
  pose proof (holder_cases approvalId s) as Hcases.
  assert (Hne : isEmpty approvalId = false) by by destruct approvalId.
  unfold processApproval. simpl. rewrite Hne, Happroved, Hfeedback.
  destruct (holder approvalId s) as [[| |]|].
  - destruct Hcases as [a Ha].
    destruct (WrapperApprovalFacts.processApprovalDecision_held
                (financialAgent app) approvalId ok fb
                _ a Ha) as (w' & decided & Hrun & _).
    rewrite Hrun. eexists. split; [reflexivity|]. simpl. rewrite ?Hrun.
    split; [done|]. by intros [| |].
  - destruct Hcases as [H1 [a Ha]].
    rewrite (WrapperApprovalFacts.processApprovalDecision_missing _ _ _ _ _ H1). simpl.
    destruct (WrapperApprovalFacts.processApprovalDecision_held
                (dataAgent app) approvalId ok fb
                _ a Ha) as (w' & decided & Hrun & _).
    rewrite Hrun. eexists. split; [reflexivity|]. simpl. rewrite ?Hrun.
    split; [done|]. by intros [| |].
  - destruct Hcases as (H1 & H2 & [a Ha]).
    rewrite (WrapperApprovalFacts.processApprovalDecision_missing _ _ _ _ _ H1). simpl.
    rewrite (WrapperApprovalFacts.processApprovalDecision_missing _ _ _ _ _ H2). simpl.
    destruct (WrapperApprovalFacts.processApprovalDecision_held
                (communicationAgent app) approvalId ok fb
                _ a Ha) as (w' & decided & Hrun & _).
    rewrite Hrun. eexists. split; [reflexivity|]. simpl. rewrite ?Hrun.
    split; [done|]. by intros [| |].
  - destruct Hcases as (H1 & H2 & H3).
    rewrite (WrapperApprovalFacts.processApprovalDecision_missing _ _ _ _ _ H1). simpl.
    rewrite (WrapperApprovalFacts.processApprovalDecision_missing _ _ _ _ _ H2). simpl.
    rewrite (WrapperApprovalFacts.processApprovalDecision_missing _ _ _ _ _ H3). simpl.
    by destruct s.
Qed.

Lemma holder_ext approvalId s s' :
  (∀ label,
     is_Some (getPendingApproval approvalId (worldOf s' label))
     ↔ is_Some (getPendingApproval approvalId (worldOf s label))) →
  holder approvalId s' = holder approvalId s.
Proof.
  intros Hsame. unfold holder. f_equal. by apply list_filter_iff.
Qed.

Lemma holder_holds approvalId s label :
  holder approvalId s = Some label →
  is_Some (getPendingApproval approvalId (worldOf s label)).
Proof.
  intros Hholder. pose proof (holder_cases approvalId s) as Hcases.
  rewrite Hholder in Hcases. destruct label; simpl; tauto.
Qed.

(** A well-formed request for an approval that some agent holds. *)
Lemma processApproval_on_holder app s approvalId body ok fb label approval :
  approvalId ≠ EmptyString →
  getProperty body "approved" = Returned (JBool ok) →
  feedbackOf (getOptional body "feedback") = Some fb →
  holder approvalId s = Some label →
  getPendingApproval approvalId (worldOf s label) = Some approval →
  ∃ s' decided,
    processApproval app (Some approvalId) (Returned body) s
    = Some (decisionMade approvalId ok label (getOptional body "feedback"), s')
    ∧ approvalMap (worldOf s' label)
      = Map_set approvalId decided (approvalMap (worldOf s label))
    ∧ sa_status decided = (if ok then approved else rejected)
    ∧ sa_feedback decided = fb
    ∧ sa_toolName decided = sa_toolName approval
    ∧ sa_toolArgs decided = sa_toolArgs approval
    ∧ invoked (worldOf s' label)
      = invoked (worldOf s label)
        ++ (if ok
            then (executeTool (toolRegistry (agentOf app label))
                    (sa_toolName approval) (sa_toolArgs approval)).1
            else [])
    ∧ (∀ other, other ≠ label → worldOf s' other = worldOf s other)
    ∧ holder approvalId s' = Some label.
Proof.
  intros Hid Happroved Hfeedback Hholder Hget.
  pose proof (processApproval_decides app s approvalId body ok fb
                Hid Happroved Hfeedback) as Hrun.
  rewrite Hholder in Hrun. destruct Hrun as (s' & Hrun & Hworld & Hothers).
  destruct (WrapperApprovalFacts.processApprovalDecision_held
              (agentOf app label) approvalId ok fb
              (worldOf s label) approval Hget)
    as (w' & decided & Hdecide & Hmap & Hstatus & Hfb & Hname & Hargs & Hinvoked
        & _).
  rewrite Hdecide in Hworld. simpl in Hworld.
  exists s', decided. rewrite Hworld. split_and!; try done.
  rewrite <- Hholder. apply holder_ext. intros other.
  destruct (decide (other = label)) as [->|Hother].
  - rewrite Hget, Hworld. unfold getPendingApproval.
    rewrite Hmap, Map_get_set_eq. split; by eexists.
  - by rewrite Hothers.
Qed.

(** X26.  The approval API of the function app, given an approval id and
    a body whose [approved] is a boolean (and whose [feedback] is a string
    or absent), asks the financial, the data and the communication agent
    in this order and lets the first one that holds the id decide.  It
    then answers 200 with the label of that agent and [Approval granted]
    or [Approval rejected]; that agent records the decision and the
    feedback and, on an approval, runs the tool of the approval; the two
    other agents are left as they were.  It answers 404 exactly when none
    of the three holds the id, and then nothing is changed. *)
Theorem approval_is_decided_by_first_holder
    (app : App) (s : AppState) (approvalId : string) (body : JsValue)
    (ok : bool) (fb : option string) :
  approvalId ≠ EmptyString →
  getProperty body "approved" = Returned (JBool ok) →
  feedbackOf (getOptional body "feedback") = Some fb →
  ∃ answer s',
    processApproval app (Some approvalId) (Returned body) s = Some (answer, s')
    ∧ (decision_status answer = 200 ∨ decision_status answer = 404)
    ∧ (decision_status answer = 404
       ↔ ∀ label, getPendingApproval approvalId (worldOf s label) = None)
    ∧ (decision_status answer = 404 →
       s' = s
       ∧ decision_error answer
         = Some ("Approval " +:+ approvalId +:+ " not found or already processed"))
    ∧ (∀ label approval,
         holder approvalId s = Some label →
         getPendingApproval approvalId (worldOf s label) = Some approval →
         decision_status answer = 200
         ∧ decision_agent answer = Some label
         ∧ decision_message answer
           = Some ("Approval " +:+ (if ok then "granted" else "rejected"))
         ∧ (∃ decided,
              getPendingApproval approvalId (worldOf s' label) = Some decided
              ∧ sa_status decided = (if ok then approved else rejected)
              ∧ sa_feedback decided = fb)
         ∧ invoked (worldOf s' label)
           = invoked (worldOf s label)
             ++ (if ok
                 then (executeTool (toolRegistry (agentOf app label))
                         (sa_toolName approval) (sa_toolArgs approval)).1
                 else [])
         ∧ (∀ other, other ≠ label → worldOf s' other = worldOf s other)).
Proof.
  intros Hid Happroved Hfeedback.
  destruct (holder approvalId s) as [label|] eqn:Hholder.
  - destruct (holder_holds _ _ _ Hholder) as [approval Hget].
    destruct (processApproval_on_holder app s approvalId body ok fb label approval
                Hid Happroved Hfeedback Hholder Hget)
      as (s' & decided & Hrun & Hmap & Hstatus & Hfb & Hname & Hargs & Hinvoked
          & Hothers & _).
    eexists _, s'. split; [exact Hrun|]. simpl. split_and!.
    + by left.
    + split; [done|]. intros Hnone. rewrite Hnone in Hget. done.
    + done.
    + intros label' approval' [= <-] Hget'.
      assert (approval' = approval) as -> by congruence.
      split_and!; try done.
      exists decided. unfold getPendingApproval.
      by rewrite Hmap, Map_get_set_eq.
  - pose proof (processApproval_decides app s approvalId body ok fb
                  Hid Happroved Hfeedback) as Hrun.
    rewrite Hholder in Hrun.
    pose proof (holder_cases approvalId s) as Hcases. rewrite Hholder in Hcases.
    destruct Hcases as (H1 & H2 & H3).
    eexists _, s. split; [exact Hrun|]. simpl. split_and!.
    + by right.
    + split; [|done]. intros _. by intros [| |].
    + done.
    + done.
Qed.

Lemma approval_is_decided_by_first_holder_witness :
  ∃ answer s',
    processApproval
      {| financialAgent := WrapperGateSamples.wrapperAgent;
         dataAgent := WrapperGateSamples.wrapperAgent;
         communicationAgent := WrapperGateSamples.wrapperAgent |}
      (Some "approval-s1-makePayment-0")
      (Returned (JObj [("approved", JBool false); ("feedback", JStr "no")]))
      {| financialWorld := WrapperGateSamples.emptyWorld;
         dataWorld := WrapperGateSamples.afterPayment;
         communicationWorld := WrapperGateSamples.afterPayment |}
    = Some (answer, s')
    ∧ (decision_status answer = 200 ∨ decision_status answer = 404).
Proof.
  destruct (approval_is_decided_by_first_holder
              {| financialAgent := WrapperGateSamples.wrapperAgent;
                 dataAgent := WrapperGateSamples.wrapperAgent;
                 communicationAgent := WrapperGateSamples.wrapperAgent |}
              {| financialWorld := WrapperGateSamples.emptyWorld;
                 dataWorld := WrapperGateSamples.afterPayment;
                 communicationWorld := WrapperGateSamples.afterPayment |}
              "approval-s1-makePayment-0"
              (JObj [("approved", JBool false); ("feedback", JStr "no")])
              false (Some "no"))
    as (answer & s' & Hrun & Hcodes & _).
  - discriminate.
  - reflexivity.
  - reflexivity.
  - by exists answer, s'.
Defined.

(** X27.  A decided approval is not closed.  After a first decision the
    approval is no longer among the pending approvals that the app lists
    for its agent, but a second decision for the same id is accepted with
    200 all the same: it overwrites the recorded status and feedback,
    which is what the status endpoint then reports, and when it is an
    approval the tool is run again, so two approvals run the tool twice.
    The text [not found or already processed] of the 404 answer never
    applies to an id that an agent holds. *)
Theorem decided_approval_is_decided_again
    (app : App) (s : AppState) (approvalId : string) (body body' : JsValue)
    (ok ok' : bool) (fb fb' : option string)
    (label : AgentLabel) (approval : StoredApproval) :
  approvalId ≠ EmptyString →
  getProperty body "approved" = Returned (JBool ok) →
  feedbackOf (getOptional body "feedback") = Some fb →
  getProperty body' "approved" = Returned (JBool ok') →
  feedbackOf (getOptional body' "feedback") = Some fb' →
  holder approvalId s = Some label →
  getPendingApproval approvalId (worldOf s label) = Some approval →
  NoDup (Map_keys (approvalMap (worldOf s label))) →
  let ran :=
    (executeTool (toolRegistry (agentOf app label))
       (sa_toolName approval) (sa_toolArgs approval)).1 in
  ∃ first s1 second s2,
    processApproval app (Some approvalId) (Returned body) s = Some (first, s1)
    ∧ processApproval app (Some approvalId) (Returned body') s1 = Some (second, s2)
    ∧ decision_status first = 200
    ∧ (∀ data, (approvalId, data, label)
               ∉ pending_approvals (getPendingApprovalsEndpoint s1))
    ∧ decision_status second = 200
    ∧ decision_agent second = Some label
    ∧ invoked (worldOf s2 label)
      = invoked (worldOf s label)
        ++ (if ok then ran else []) ++ (if ok' then ran else [])
    ∧ as_status (getApprovalStatus (Some approvalId) s2) = 200
    ∧ as_agent (getApprovalStatus (Some approvalId) s2) = Some label
    ∧ as_approvalStatus (getApprovalStatus (Some approvalId) s2)
      = Some (if ok' then approved else rejected)
    ∧ as_feedback (getApprovalStatus (Some approvalId) s2) = fb'.
Proof.
  intros Hid Happroved Hfeedback Happroved' Hfeedback' Hholder Hget Hnd ran.
  subst ran.
  destruct (processApproval_on_holder app s approvalId body ok fb label approval
              Hid Happroved Hfeedback Hholder Hget)
    as (s1 & decided & Hrun1 & Hmap1 & Hstatus1 & Hfb1 & Hname1 & Hargs1
        & Hinvoked1 & Hothers1 & Hholder1).
  assert (Hget1 : getPendingApproval approvalId (worldOf s1 label) = Some decided).
  { unfold getPendingApproval. by rewrite Hmap1, Map_get_set_eq. }
  destruct (processApproval_on_holder app s1 approvalId body' ok' fb' label decided
              Hid Happroved' Hfeedback' Hholder1 Hget1)
    as (s2 & decided' & Hrun2 & Hmap2 & Hstatus2 & Hfb2 & Hname2 & Hargs2
        & Hinvoked2 & Hothers2 & Hholder2).
  assert (Hget2 : getPendingApproval approvalId (worldOf s2 label) = Some decided').
  { unfold getPendingApproval. by rewrite Hmap2, Map_get_set_eq. }
  assert (Hfound : getApprovalStatus (Some approvalId) s2
                   = {| as_status := 200; as_error := None;
                        as_approvalId := Some approvalId;
                        as_agent := Some label;
                        as_approvalStatus := Some (sa_status decided');
                        as_toolName := Some (sa_toolName decided');
                        as_toolArgs := Some (sa_toolArgs decided');
                        as_reasoning := Some (sa_reasoning decided');
                        as_sessionId := Some (sa_sessionId decided');
                        as_timestamp := Some (sa_timestamp decided');
                        as_decidedAt := sa_decidedAt decided';
                        as_feedback := sa_feedback decided' |}).
  { unfold getApprovalStatus. simpl.
    assert (Hne : isEmpty approvalId = false) by by destruct approvalId.
    rewrite Hne.
    pose proof (holder_cases approvalId s2) as Hcases. rewrite Hholder2 in Hcases.
    destruct label; simpl in *.
    - by rewrite Hget2.
    - destruct Hcases as [-> _]. by rewrite Hget2.
    - destruct Hcases as (-> & -> & _). by rewrite Hget2. }
  exists (decisionMade approvalId ok label (getOptional body "feedback")), s1,
         (decisionMade approvalId ok' label (getOptional body' "feedback")), s2.
  rewrite Hfound. simpl. split_and!; try done.
  - intros data Hin. unfold getPendingApprovalsEndpoint in Hin. simpl in Hin.
    assert (Hlisted : (approvalId, data) ∈ getPendingApprovals (worldOf s1 label)).
    { unfold labelled in Hin.
      rewrite !elem_of_app, !list_elem_of_fmap in Hin.
      destruct Hin as [(a & [= Ha1 Ha2 Ha3] & Hin)|[(a & [= Ha1 Ha2 Ha3] & Hin)
                                                    |(a & [= Ha1 Ha2 Ha3] & Hin)]];
        subst label; simpl; destruct a as [k d]; simpl in *; by subst. }
    unfold getPendingApprovals in Hlisted.
    apply list_elem_of_filter in Hlisted as [Hpending Hin']. simpl in Hpending.
    rewrite Hmap1 in Hin'.
    pose proof (Map_set_NoDup approvalId decided _ Hnd) as Hnd1.
    pose proof (Map_get_NoDup approvalId data _ Hnd1 Hin') as Hdata.
    rewrite Map_get_set_eq in Hdata. injection Hdata as <-.
    rewrite Hstatus1 in Hpending. by destruct ok.
  - rewrite Hinvoked2, Hinvoked1, Hname1, Hargs1. by rewrite <- app_assoc.
  - by rewrite Hstatus2.
Qed.

Lemma decided_approval_is_decided_again_witness :
  ∃ first s1 second s2,
    processApproval
      {| financialAgent := WrapperGateSamples.wrapperAgent;
         dataAgent := WrapperGateSamples.wrapperAgent;
         communicationAgent := WrapperGateSamples.wrapperAgent |}
      (Some "approval-s1-makePayment-0")
      (Returned (JObj [("approved", JBool true)]))
      {| financialWorld := WrapperGateSamples.afterPayment;
         dataWorld := WrapperGateSamples.emptyWorld;
         communicationWorld := WrapperGateSamples.emptyWorld |}
    = Some (first, s1)
    ∧ processApproval
        {| financialAgent := WrapperGateSamples.wrapperAgent;
           dataAgent := WrapperGateSamples.wrapperAgent;
           communicationAgent := WrapperGateSamples.wrapperAgent |}
        (Some "approval-s1-makePayment-0")
        (Returned (JObj [("approved", JBool true)])) s1
      = Some (second, s2)
    ∧ decision_status second = 200
    ∧ length (invoked (financialWorld s2)) = 3%nat.
Proof.
  destruct (decided_approval_is_decided_again
              {| financialAgent := WrapperGateSamples.wrapperAgent;
                 dataAgent := WrapperGateSamples.wrapperAgent;
                 communicationAgent := WrapperGateSamples.wrapperAgent |}
              {| financialWorld := WrapperGateSamples.afterPayment;
                 dataWorld := WrapperGateSamples.emptyWorld;
                 communicationWorld := WrapperGateSamples.emptyWorld |}
              "approval-s1-makePayment-0"
              (JObj [("approved", JBool true)]) (JObj [("approved", JBool true)])
              true true None None Financial
              (default
                 {| sa_toolName := EmptyString; sa_toolArgs := JNull;
                    sa_reasoning := EmptyString; sa_sessionId := EmptyString;
                    sa_timestamp := 0; sa_status := pending;
                    sa_feedback := None; sa_decidedAt := None;
                    sa_executionResult := None; sa_executedAt := None;
                    sa_executionError := None |}
                 (getPendingApproval "approval-s1-makePayment-0"
                    WrapperGateSamples.afterPayment)))
    as (first & s1 & second & s2 & Hrun1 & Hrun2 & _ & _ & Hstatus & _ & Hinvoked & _).
  - discriminate.
  - reflexivity.
  - reflexivity.
  - reflexivity.
  - reflexivity.
  - vm_compute. reflexivity.
  - vm_compute. reflexivity.
  - apply (bool_decide_unpack _). vm_compute. reflexivity.
  - exists first, s1, second, s2. split_and!; try done.
    simpl in Hinvoked. rewrite Hinvoked. vm_compute. reflexivity.
Defined.

End FunctionAppFacts.
